(** * Notes worker: note store and session manager

    A shallow embedding of [src/db.ts] (note persistence and ordering) and
    [src/auth.ts] (session lifecycle, credential comparison, cookie
    parsing) of the notes worker, over a model of the Workers KV
    namespace both files talk to.

    Conventions.
    - A JavaScript string is a [string]: the sequence of its UTF-8 bytes,
      which is what [TextEncoder.encode] yields and what KV keys are
      ordered by.
    - A JavaScript number holding a timestamp or an index is a [Z];
      [Date.now()] is passed to each operation as [now] (milliseconds).
    - An [async] function over [env.NOTES_KV] takes the namespace and
      returns its result together with the namespace it leaves behind
      when it writes.
    - Randomness ([crypto.getRandomValues]) is a byte source
      [rnd : nat -> Z] handed to the operation that draws from it. *)

From Stdlib Require Import ZArith String Ascii List Lia Permutation Sorted.
From stdpp Require Import gmap strings list fin_maps sorting.

Local Open Scope string_scope.
Local Open Scope Z_scope.

(** ** Data model ([types.ts]) *)

Module Note.
Record t := mk
  { id : string;
    title : string;
    content : string;
    htmlContent : string;
    created : Z;
    updated : Z }.
End Note.

Module NoteMeta.
Record t := mk
  { id : string;
    title : string;
    created : Z;
    updated : Z }.
End NoteMeta.

(** ** The KV namespace

    A key holds a value, optional metadata and an optional absolute
    expiration time.  The value is text; the text [JSON.stringify note]
    is kept as [VJson note], so that reading it back with
    [{ type: 'json' }] is the projection [json_note].

    The operations are those of a binding whose calls succeed.  The
    binding rejects a key of more than 512 bytes ([kv_key_ok] below);
    what is stated of a request handler is stated of requests whose
    keys it accepts. *)

Inductive KVValue :=
| VText (s : string)
| VJson (n : Note.t).

Record KVEntry := mkEntry
  { kv_value : KVValue;
    kv_metadata : option NoteMeta.t;
    kv_expiration : option Z }.

Abbreviation KVNamespace := (gmap string KVEntry).

(** An entry with an expiration time is readable strictly before it. *)
Definition kv_live (now : Z) (e : KVEntry) : bool :=
  match kv_expiration e with
  | Some t => now <? t
  | None => true
  end.

Definition kv_get (kv : KVNamespace) (now : Z) (key : string) : option KVEntry :=
  match kv !! key with
  | Some e => if kv_live now e then Some e else None
  | None => None
  end.

(** [put] replaces the whole entry: value, metadata and expiration. *)
Definition kv_put (kv : KVNamespace) (key : string) (v : KVValue)
    (metadata : option NoteMeta.t) (expiration : option Z) : KVNamespace :=
  <[key := mkEntry v metadata expiration]> kv.

Definition kv_delete (kv : KVNamespace) (key : string) : KVNamespace :=
  delete key kv.

(** Stable insertion sort on a boolean "comes no later than" test. *)
Fixpoint insert_sorted {A} (le : A -> A -> bool) (x : A) (l : list A) : list A :=
  match l with
  | [] => [x]
  | y :: r => if le x y then x :: y :: r else y :: insert_sorted le x r
  end.

Fixpoint stable_sort {A} (le : A -> A -> bool) (l : list A) : list A :=
  match l with
  | [] => []
  | x :: r => insert_sorted le x (stable_sort le r)
  end.

(** A single [list] call returns at most this many keys. *)
Definition KV_LIST_LIMIT : nat := 1000.

(** [list({ prefix })]: the live keys that start with [prefix], in
    lexicographic key order, each with its metadata; one page only. *)
Definition kv_list (kv : KVNamespace) (now : Z) (prefix : string)
    : list (string * option NoteMeta.t) :=
  take KV_LIST_LIMIT
    (map (fun ke => (fst ke, kv_metadata (snd ke)))
       (filter (fun ke => String.prefix prefix (fst ke) && kv_live now (snd ke) = true)
          (stable_sort (fun a b => String.leb (fst a) (fst b)) (map_to_list kv)))).

(** ** JavaScript helpers *)

(** [Array.prototype.sort(cmp)]: stable, [a] before [b] when
    [cmp a b <= 0]. *)
Definition js_sort {A} (cmp : A -> A -> Z) (l : list A) : list A :=
  stable_sort (fun a b => cmp a b <=? 0) l.

(** [Array.prototype.findIndex]: first index satisfying [p], else -1. *)
Fixpoint findIndex {A} (p : A -> bool) (l : list A) : Z :=
  match l with
  | [] => -1
  | x :: r => if p x then 0 else
                let i := findIndex p r in
                if i <? 0 then -1 else i + 1
  end.

(** [arr[i]] for an integer index: [None] is [undefined]. *)
Definition js_index {A} (l : list A) (i : Z) : option A :=
  if i <? 0 then None else l !! Z.to_nat i.

(** [x || d] on an optional number: [undefined], [null] and [0] are falsy. *)
Definition js_or_num (x : option Z) (d : Z) : Z :=
  match x with
  | Some v => if v =? 0 then d else v
  | None => d
  end.

(** Truthiness of a string: only the empty string is falsy. *)
Definition js_truthy_str (s : string) : bool :=
  negb (String.eqb s "").

(** [str.startsWith(p)] with the remainder: [Some rest] when [s = p ++ rest]. *)
Fixpoint strip_prefix (p s : string) : option string :=
  match p, s with
  | EmptyString, _ => Some s
  | String a p', String b s' => if Ascii.eqb a b then strip_prefix p' s' else None
  | String _ _, EmptyString => None
  end.

(** ** Platform and library interfaces

    The worker calls into the Web Crypto digest, the [marked] renderer
    and the [sanitize-html] sanitizer.  None of them is part of the
    repository; the development is parametric in them. *)

Class SubtleCrypto := { digest_SHA256 : list Z -> list Z }.

Class Marked := { marked_parse : string -> string }.

(** The fields of [sanitizeHtml.IOptions] the worker sets. *)
Record IOptions := mkIOptions
  { allowedTags : list string;
    allowedAttributes : gmap string (list string);
    allowedSchemes : list string;
    disallowedTagsMode : string }.

Class SanitizeHtml :=
  { sanitizeHtml : string -> IOptions -> string;
    defaults_allowedTags : list string;
    defaults_allowedAttributes : gmap string (list string) }.

(** Bytes drawn from the random source: [crypto.getRandomValues(new
    Uint8Array(n))]. *)
Definition getRandomValues (rnd : nat -> Z) (n : nat) : list Z :=
  map (fun i => rnd i mod 256) (seq 0 n).

(** ** [src/auth.ts] *)

Definition SESSION_PREFIX : string := "session:".
Definition SESSION_TTL : Z := 60 * 60 * 24.

(** [new TextEncoder().encode(s)] as a [Uint8Array]. *)
Definition TextEncoder_encode (s : string) : list Z :=
  map (fun c => Z.of_N (N_of_ascii c)) (list_ascii_of_string s).

(** [view[i]] used as an operand of [^]: out of range is [undefined],
    which the operator reads as 0. *)
Definition u8_at (view : list Z) (i : nat) : Z :=
  default 0 (view !! i).

(** [for (let i = ...; i < ...; i++) result |= a[i] ^ b[i]], with
    [steps] iterations left.  The operands are bytes, so the 32-bit
    operators [|] and [^] coincide with [Z.lor] and [Z.lxor]. *)
Fixpoint xor_loop (a b : list Z) (steps i : nat) (result : Z) : Z :=
  match steps with
  | O => result
  | S k => xor_loop a b k (S i) (Z.lor result (Z.lxor (u8_at a i) (u8_at b i)))
  end.

Definition secureCompare `{SubtleCrypto} (a b : string) : bool :=
  let aBuffer := TextEncoder_encode a in
  let bBuffer := TextEncoder_encode b in
  if negb (length aBuffer =? length bBuffer)%nat then
    let aView := digest_SHA256 aBuffer in
    let bView := digest_SHA256 bBuffer in
    let result := xor_loop aView bView (length aView) 0 0 in
    false
  else
    let result := xor_loop aBuffer bBuffer (length aBuffer) 0 0 in
    result =? 0.

Definition hex_digit (n : Z) : ascii :=
  nth (Z.to_nat n) (list_ascii_of_string "0123456789abcdef") "0"%char.

Definition hex_byte (b : Z) : string :=
  String (hex_digit (b / 16)) (String (hex_digit (b mod 16)) "").

Definition hex_bytes (bs : list Z) : string :=
  fold_right (fun b acc => hex_byte b +:+ acc) "" bs.

(** [crypto.randomUUID()]: a version-4 UUID printed as 8-4-4-4-12
    lower-case hexadecimal digits. *)
Definition randomUUID (rnd : nat -> Z) : string :=
  let b := getRandomValues rnd 16 in
  let b := <[6%nat := Z.lor (Z.land (u8_at b 6) 15) 64]> b in
  let b := <[8%nat := Z.lor (Z.land (u8_at b 8) 63) 128]> b in
  hex_bytes (take 4 b) +:+ "-" +:+
  hex_bytes (take 2 (drop 4 b)) +:+ "-" +:+
  hex_bytes (take 2 (drop 6 b)) +:+ "-" +:+
  hex_bytes (take 2 (drop 8 b)) +:+ "-" +:+
  hex_bytes (drop 10 b).

Definition createSession (kv : KVNamespace) (now : Z) (rnd : nat -> Z)
    : string * KVNamespace :=
  let token := randomUUID rnd in
  (token,
   kv_put kv (SESSION_PREFIX +:+ token) (VText "valid") None
     (Some (now + SESSION_TTL * 1000))).

(** [get(key)] as text: a stored note reads as its JSON text, which is
    never the text [valid]. *)
Definition validateSession (kv : KVNamespace) (now : Z) (token : string) : bool :=
  if negb (js_truthy_str token) then false else
  match kv_get kv now (SESSION_PREFIX +:+ token) with
  | Some e => match kv_value e with
              | VText session => String.eqb session "valid"
              | VJson _ => false
              end
  | None => false
  end.

Definition deleteSession (kv : KVNamespace) (token : string) : KVNamespace :=
  if js_truthy_str token then kv_delete kv (SESSION_PREFIX +:+ token) else kv.

(** The greedy class [[^;]+]: the longest run without a semicolon. *)
Fixpoint not_semicolon_run (s : string) : string :=
  match s with
  | EmptyString => ""
  | String c r => if Ascii.eqb c ";" then "" else String c (not_semicolon_run r)
  end.

(** [cookie.match(/session=([^;]+)/)]: capture group 1 of the leftmost
    match, trying each start position in turn. *)
Fixpoint match_session (s : string) : option string :=
  let here :=
    match strip_prefix "session=" s with
    | Some rest =>
        let group := not_semicolon_run rest in
        if js_truthy_str group then Some group else None
    | None => None
    end in
  match here with
  | Some group => Some group
  | None => match s with
            | EmptyString => None
            | String _ r => match_session r
            end
  end.

(** The argument is [request.headers.get('Cookie')]. *)
Definition getSessionFromCookie (cookie : option string) : option string :=
  match cookie with
  | None => None
  | Some c => if negb (js_truthy_str c) then None else match_session c
  end.

(** [requireAuth]: [true] is the redirect to the login page, [false]
    is "authenticated". *)
Definition requireAuth (kv : KVNamespace) (now : Z) (cookie : option string) : bool :=
  match getSessionFromCookie cookie with
  | None => true
  | Some token => negb (js_truthy_str token) || negb (validateSession kv now token)
  end.

(** ** [src/db.ts] *)

(** [nanoid]'s default alphabet ([urlAlphabet]). *)
Definition urlAlphabet : string :=
  "useandom-26T198340PX75pxJACKVERYMINDBUSHWOLF_GQZbfghjklqvwyzrict".

(** [nanoid(size)]: after [bytes = crypto.getRandomValues(new
    Uint8Array(size))], the loop [while (size--) id +=
    urlAlphabet[bytes[size] & 63]] appends one symbol per random byte,
    the last byte first. *)
Definition nanoid (size : nat) (rnd : nat -> Z) : string :=
  string_of_list_ascii
    (map (fun byte => nth (Z.to_nat (Z.land byte 63)) (list_ascii_of_string urlAlphabet) "u"%char)
       (rev (getRandomValues rnd size))).

Definition generateNoteId (rnd : nat -> Z) : string :=
  nanoid 8 rnd.

(** [{...defaults, k: v}]: the later key wins. *)
Definition SANITIZE_OPTIONS `{SanitizeHtml} : IOptions :=
  {| allowedTags := defaults_allowedTags ++ ["img"; "h1"; "h2"; "h3"];
     allowedAttributes :=
       <["span" := ["class"]]>
       (<["pre" := ["class"]]>
       (<["code" := ["class"]]>
       (<["a" := ["href"; "title"; "target"; "rel"]]>
       (<["img" := ["src"; "alt"; "title"]]> defaults_allowedAttributes))));
     allowedSchemes := ["http"; "https"; "mailto"];
     disallowedTagsMode := "discard" |}.

Definition note_key (id : string) : string := "note:" +:+ id.

(** [JSON.parse] of a stored value, as a [Note].  Text other than the
    JSON of a note never sits under a note key of a namespace written
    by the worker (see [store_wf]); reading it yields no note. *)
Definition json_note (v : KVValue) : option Note.t :=
  match v with
  | VJson n => Some n
  | VText _ => None
  end.

Definition getNote (kv : KVNamespace) (now : Z) (id : string) : option Note.t :=
  match kv_get kv now (note_key id) with
  | Some e => json_note (kv_value e)
  | None => None
  end.

Definition saveNote `{Marked} `{SanitizeHtml}
    (kv : KVNamespace) (now : Z) (id title content : string)
    : Note.t * KVNamespace :=
  let existing := getNote kv now id in
  let rawHtml := marked_parse content in
  let htmlContent := sanitizeHtml rawHtml SANITIZE_OPTIONS in
  let note :=
    {| Note.id := id;
       Note.title := title;
       Note.content := content;
       Note.htmlContent := htmlContent;
       Note.created := js_or_num (Note.created <$> existing) now;
       Note.updated := now |} in
  (note,
   kv_put kv (note_key id) (VJson note)
     (Some {| NoteMeta.id := Note.id note;
              NoteMeta.title := Note.title note;
              NoteMeta.created := Note.created note;
              NoteMeta.updated := Note.updated note |})
     None).

Definition deleteNote (kv : KVNamespace) (now : Z) (id : string)
    : bool * KVNamespace :=
  match getNote kv now id with
  | None => (false, kv)
  | Some _ => (true, kv_delete kv (note_key id))
  end.

(** [.map(key => key.metadata).filter(meta => meta != null)] is [omap];
    the comparator is [b.created - a.created]. *)
Definition getAllNotes (kv : KVNamespace) (now : Z) : list NoteMeta.t :=
  js_sort (fun a b => NoteMeta.created b - NoteMeta.created a)
    (omap snd (kv_list kv now "note:")).

Definition getLatestNote (kv : KVNamespace) (now : Z) : option Note.t :=
  match getAllNotes kv now with
  | [] => None
  | first :: _ => getNote kv now (NoteMeta.id first)
  end.

Definition getPreviousNoteId (kv : KVNamespace) (now : Z) (currentId : string)
    : option string :=
  match getNote kv now currentId with
  | None => None
  | Some _ =>
      let notes := getAllNotes kv now in
      let currentIndex := findIndex (fun n => String.eqb (NoteMeta.id n) currentId) notes in
      if (0 <=? currentIndex) && (currentIndex <? Z.of_nat (length notes) - 1)
      then NoteMeta.id <$> js_index notes (currentIndex + 1)
      else None
  end.

Definition getNextNoteId (kv : KVNamespace) (now : Z) (currentId : string)
    : option string :=
  match getNote kv now currentId with
  | None => None
  | Some _ =>
      let notes := getAllNotes kv now in
      let currentIndex := findIndex (fun n => String.eqb (NoteMeta.id n) currentId) notes in
      if 0 <? currentIndex
      then NoteMeta.id <$> js_index notes (currentIndex - 1)
      else None
  end.

(** [handleCreateNote] after validation: a fresh id, then [saveNote]. *)
Definition createNote `{Marked} `{SanitizeHtml}
    (kv : KVNamespace) (now : Z) (rnd : nat -> Z) (title content : string)
    : Note.t * KVNamespace :=
  saveNote kv now (generateNoteId rnd) title content.

(** ** Vocabulary of the properties *)

(** The characters of a string, and the classes identifiers are drawn from. *)
Definition chars (s : string) : list ascii := list_ascii_of_string s.

Definition is_alphanumeric (c : ascii) : bool :=
  let n := nat_of_ascii c in
  ((48 <=? n) && (n <=? 57) || (65 <=? n) && (n <=? 90) || (97 <=? n) && (n <=? 122))%nat.

(** [A-Za-z0-9_-], the class the router accepts as a note id. *)
Definition is_url_safe (c : ascii) : bool :=
  is_alphanumeric c || Ascii.eqb c "_" || Ascii.eqb c "-".

(** What every note key of a namespace written by the worker looks
    like: a JSON note whose metadata, when present, carries the id the
    key is built from. *)
Definition store_wf (kv : KVNamespace) : Prop :=
  forall key e,
    kv !! key = Some e ->
    String.prefix "note:" key = true ->
    (exists n, kv_value e = VJson n) /\
    (forall m, kv_metadata e = Some m -> key = note_key (NoteMeta.id m)).

(** The namespaces the worker can produce from an empty one. *)
Inductive reachable `{Marked} `{SanitizeHtml} : KVNamespace -> Prop :=
| reach_empty : reachable ∅
| reach_saveNote kv now id title content :
    reachable kv -> reachable (snd (saveNote kv now id title content))
| reach_deleteNote kv now id :
    reachable kv -> reachable (snd (deleteNote kv now id))
| reach_createSession kv now rnd :
    reachable kv -> reachable (snd (createSession kv now rnd))
| reach_deleteSession kv token :
    reachable kv -> reachable (deleteSession kv token).

(** ** Reading an HTML text

    The start tags of an HTML text and the attributes they carry, as
    the tokenizer of an HTML parser finds them from its data state
    (WHATWG HTML, 13.2.5 Tokenization): names are read in lower case;
    an end tag is read like a start tag, attributes and all, and
    yields nothing; so do comments and declarations.  A tag that the
    text ends in is reported as if it were closed there, as it is by
    the markup that follows the text in a page.  Character references
    and attribute values play no part in the names and are not
    decoded. *)
Definition lower (c : ascii) : ascii :=
  let n := nat_of_ascii c in
  if ((65 <=? n) && (n <=? 90))%nat then ascii_of_nat (n + 32) else c.

Definition snoc (s : string) (c : ascii) : string := s +:+ String c "".

(** The double quote character. *)
Definition double_quote : ascii := "034"%char.

(** Tab, line feed, form feed, carriage return (which the parser reads
    as a line feed) and space. *)
Definition html_space (c : ascii) : bool :=
  let n := nat_of_ascii c in
  ((n =? 9) || (n =? 10) || (n =? 12) || (n =? 13) || (n =? 32))%nat.

Definition is_alpha (c : ascii) : bool :=
  let n := nat_of_ascii c in
  ((65 <=? n) && (n <=? 90) || (97 <=? n) && (n <=? 122))%nat.

Inductive html_event :=
| OpenTag (tag : string)
| Attribute (tag attr : string).

(** The tag token under construction: a start or an end tag, its name
    and the names of its attributes so far. *)
Record tag_token := mkTag
  { tag_closing : bool;
    tag_name : string;
    tag_attrs : list string }.

Definition add_attr (t : tag_token) (attr : string) : tag_token :=
  mkTag (tag_closing t) (tag_name t) (tag_attrs t ++ [attr]).

Definition add_name (t : tag_token) (c : ascii) : tag_token :=
  mkTag (tag_closing t) (snoc (tag_name t) c) (tag_attrs t).

(** Emitting a tag token: a start tag is reported with its attributes. *)
Definition emit (t : tag_token) : list html_event :=
  if tag_closing t then []
  else OpenTag (tag_name t) :: map (Attribute (tag_name t)) (tag_attrs t).

(** The states of the tokenizer.  [InText] is its data state; the name
    of an attribute is added to the token when its state is left.  The
    states a comment passes through after a [<] lead where [InComment]
    leads and are merged with it; a [DOCTYPE] and, in HTML content, a
    [CDATA] section end at the first [>], like a bogus comment. *)
Inductive html_state :=
| InText
| TagOpen
| EndTagOpen
| InTagName (t : tag_token)
| BeforeAttrName (t : tag_token)
| InAttrName (t : tag_token) (attr : string)
| AfterAttrName (t : tag_token)
| BeforeValue (t : tag_token)
| InValue (t : tag_token) (quote : option ascii)
| AfterQuotedValue (t : tag_token)
| SelfClosing (t : tag_token)
| BogusComment
| MarkupDeclaration
| MarkupDeclarationDash
| CommentStart
| CommentStartDash
| InComment
| CommentEndDash
| CommentEnd
| CommentEndBang.

Definition step_bogus_comment (c : ascii) : html_state * list html_event :=
  (if Ascii.eqb c ">" then InText else BogusComment, []).

Definition step_after_attr_name (t : tag_token) (c : ascii)
    : html_state * list html_event :=
  if html_space c then (AfterAttrName t, [])
  else if Ascii.eqb c "/" then (SelfClosing t, [])
  else if Ascii.eqb c "=" then (BeforeValue t, [])
  else if Ascii.eqb c ">" then (InText, emit t)
  else (InAttrName t (String (lower c) ""), []).

Definition step_attr_name (t : tag_token) (attr : string) (c : ascii)
    : html_state * list html_event :=
  if html_space c || Ascii.eqb c "/" || Ascii.eqb c ">"
  then step_after_attr_name (add_attr t attr) c
  else if Ascii.eqb c "=" then (BeforeValue (add_attr t attr), [])
  else (InAttrName t (snoc attr (lower c)), []).

Definition step_before_attr_name (t : tag_token) (c : ascii)
    : html_state * list html_event :=
  if html_space c then (BeforeAttrName t, [])
  else if Ascii.eqb c "/" || Ascii.eqb c ">" then step_after_attr_name t c
  else if Ascii.eqb c "=" then (InAttrName t "=", [])
  else step_attr_name t "" c.

Definition html_step (st : html_state) (c : ascii) : html_state * list html_event :=
  match st with
  | InText => (if Ascii.eqb c "<" then TagOpen else InText, [])
  | TagOpen =>
      if Ascii.eqb c "!" then (MarkupDeclaration, [])
      else if Ascii.eqb c "/" then (EndTagOpen, [])
      else if is_alpha c then (InTagName (mkTag false (String (lower c) "") []), [])
      else if Ascii.eqb c "?" then (BogusComment, [])
      else (if Ascii.eqb c "<" then TagOpen else InText, [])
  | EndTagOpen =>
      if is_alpha c then (InTagName (mkTag true (String (lower c) "") []), [])
      else step_bogus_comment c
  | InTagName t =>
      if html_space c then (BeforeAttrName t, [])
      else if Ascii.eqb c "/" then (SelfClosing t, [])
      else if Ascii.eqb c ">" then (InText, emit t)
      else (InTagName (add_name t (lower c)), [])
  | BeforeAttrName t => step_before_attr_name t c
  | InAttrName t attr => step_attr_name t attr c
  | AfterAttrName t => step_after_attr_name t c
  | BeforeValue t =>
      if html_space c then (BeforeValue t, [])
      else if Ascii.eqb c double_quote || Ascii.eqb c "'" then (InValue t (Some c), [])
      else if Ascii.eqb c ">" then (InText, emit t)
      else (InValue t None, [])
  | InValue t (Some q) =>
      (if Ascii.eqb c q then AfterQuotedValue t else InValue t (Some q), [])
  | InValue t None =>
      if html_space c then (BeforeAttrName t, [])
      else if Ascii.eqb c ">" then (InText, emit t)
      else (InValue t None, [])
  | AfterQuotedValue t =>
      if html_space c then (BeforeAttrName t, [])
      else if Ascii.eqb c "/" then (SelfClosing t, [])
      else if Ascii.eqb c ">" then (InText, emit t)
      else step_before_attr_name t c
  | SelfClosing t =>
      if Ascii.eqb c ">" then (InText, emit t)
      else step_before_attr_name t c
  | BogusComment => step_bogus_comment c
  | MarkupDeclaration =>
      if Ascii.eqb c "-" then (MarkupDeclarationDash, [])
      else step_bogus_comment c
  | MarkupDeclarationDash =>
      if Ascii.eqb c "-" then (CommentStart, [])
      else step_bogus_comment c
  | CommentStart =>
      if Ascii.eqb c "-" then (CommentStartDash, [])
      else if Ascii.eqb c ">" then (InText, [])
      else (InComment, [])
  | CommentStartDash =>
      if Ascii.eqb c "-" then (CommentEnd, [])
      else if Ascii.eqb c ">" then (InText, [])
      else (InComment, [])
  | InComment => (if Ascii.eqb c "-" then CommentEndDash else InComment, [])
  | CommentEndDash => (if Ascii.eqb c "-" then CommentEnd else InComment, [])
  | CommentEnd =>
      if Ascii.eqb c ">" then (InText, [])
      else if Ascii.eqb c "!" then (CommentEndBang, [])
      else if Ascii.eqb c "-" then (CommentEnd, [])
      else (InComment, [])
  | CommentEndBang =>
      if Ascii.eqb c "-" then (CommentEndDash, [])
      else if Ascii.eqb c ">" then (InText, [])
      else (InComment, [])
  end.

(** The tag left open where the text ends. *)
Definition html_flush (st : html_state) : list html_event :=
  match st with
  | InTagName t | BeforeAttrName t | AfterAttrName t | BeforeValue t
  | InValue t _ | AfterQuotedValue t | SelfClosing t => emit t
  | InAttrName t attr => emit (add_attr t attr)
  | _ => []
  end.

Fixpoint html_scan (st : html_state) (s : string) : list html_event :=
  match s with
  | EmptyString => html_flush st
  | String c r => let '(st', out) := html_step st c in out ++ html_scan st' r
  end.

Definition html_tags (html : string) : list string :=
  omap (fun e => match e with OpenTag t => Some t | Attribute _ _ => None end)
    (html_scan InText html).

Definition html_attributes (html : string) : list (string * string) :=
  omap (fun e => match e with Attribute t a => Some (t, a) | OpenTag _ => None end)
    (html_scan InText html).

(** An entry of an attribute allow-list names an attribute literally
    or, with [*] standing for any run of characters, as a pattern. *)
Fixpoint glob_match (pattern s : string) : bool :=
  match pattern with
  | EmptyString => String.eqb s ""
  | String p pattern' =>
      if Ascii.eqb p "*" then
        (fix any (s : string) : bool :=
           glob_match pattern' s ||
           match s with
           | EmptyString => false
           | String _ s' => any s'
           end) s
      else
        match s with
        | EmptyString => false
        | String c s' => Ascii.eqb p c && glob_match pattern' s'
        end
  end.

Fixpoint star_free (pattern : string) : bool :=
  match pattern with
  | EmptyString => true
  | String c r => negb (Ascii.eqb c "*") && star_free r
  end.

(** [sanitize-html] under [disallowedTagsMode: 'discard']: a tag
    survives only when it is on the allow-list, an attribute only when
    an entry of the list of its tag (or of ["*"]) matches it. *)
Definition sanitizer_discards `{SanitizeHtml} : Prop :=
  forall (html : string) (o : IOptions),
    (forall tag, In tag (html_tags (sanitizeHtml html o)) -> In tag (allowedTags o)) /\
    (forall tag attr, In (tag, attr) (html_attributes (sanitizeHtml html o)) ->
       exists names name,
         (allowedAttributes o !! tag = Some names \/ allowedAttributes o !! "*" = Some names) /\
         In name names /\ glob_match name attr = true).

(** An [on*] attribute name (an event handler). *)
Definition is_event_handler (attr : string) : bool :=
  String.prefix "on" attr.

(** The elements inside which a parser reads the text otherwise than
    from the data state: the raw text and escapable raw text elements,
    [script] among them, and the roots of foreign content. *)
Definition special_elements : list string :=
  ["script"; "style"; "textarea"; "title"; "xmp"; "iframe"; "noembed";
   "noframes"; "noscript"; "plaintext"; "svg"; "math"].

Definition is_special (tag : string) : bool :=
  existsb (String.eqb tag) special_elements.

(** No [script] tag and no event-handler attribute, on a reading that
    is the parser's own: the text opens none of the special elements,
    so that the parser never leaves the states of [html_step]. *)
Definition script_free (html : string) : bool :=
  forallb (fun tag => negb (is_special tag)) (html_tags html) &&
  forallb (fun ta => negb (is_event_handler (snd ta))) (html_attributes html).

(** The structured reading of a [Cookie] header: [name=value] pairs
    separated by semicolons, optional spaces before each name. *)
Fixpoint split_on (sep : ascii) (s : string) : list string :=
  match s with
  | EmptyString => [""]
  | String c r =>
      if Ascii.eqb c sep then "" :: split_on sep r
      else match split_on sep r with
           | [] => [String c ""]
           | w :: ws => String c w :: ws
           end
  end.

Fixpoint trim_left (s : string) : string :=
  match s with
  | String c r => if Ascii.eqb c " " then trim_left r else s
  | EmptyString => ""
  end.

Fixpoint before_equals (s : string) : string :=
  match s with
  | EmptyString => ""
  | String c r => if Ascii.eqb c "=" then "" else String c (before_equals r)
  end.

Definition cookie_names (header : string) : list string :=
  map (fun pair => before_equals (trim_left pair)) (split_on ";" header).

(** ** A text-only instance of the interfaces

    The digest, renderer and sanitizer used to run the model on
    concrete namespaces: the renderer wraps the source in a paragraph,
    the sanitizer keeps no markup at all (it escapes every character
    that could start or end a tag), and the default lists are those of
    sanitize-html 2. *)
Fixpoint escape_html (s : string) : string :=
  match s with
  | EmptyString => ""
  | String c r =>
      (if Ascii.eqb c "&" then "&amp;"
       else if Ascii.eqb c "<" then "&lt;"
       else if Ascii.eqb c ">" then "&gt;"
       else if Ascii.eqb c double_quote then "&quot;"
       else String c "") +:+ escape_html r
  end.

Module TextOnly.
#[export] Instance crypto : SubtleCrypto :=
  {| digest_SHA256 := fun bytes => take 32 (bytes ++ repeat 0 32) |}.

#[export] Instance marked : Marked :=
  {| marked_parse := fun src => "<p>" +:+ src +:+ "</p>" |}.

#[export] Instance sanitizer : SanitizeHtml :=
  {| sanitizeHtml := fun html _ => escape_html html;
     defaults_allowedTags :=
       ["address"; "article"; "aside"; "footer"; "header"; "h1"; "h2"; "h3";
        "h4"; "h5"; "h6"; "hgroup"; "main"; "nav"; "section"; "blockquote";
        "dd"; "div"; "dl"; "dt"; "figcaption"; "figure"; "hr"; "li"; "main";
        "ol"; "p"; "pre"; "ul"; "a"; "abbr"; "b"; "bdi"; "bdo"; "br"; "cite";
        "code"; "data"; "dfn"; "em"; "i"; "kbd"; "mark"; "q"; "rb"; "rp";
        "rt"; "rtc"; "ruby"; "s"; "samp"; "small"; "span"; "strong"; "sub";
        "sup"; "time"; "u"; "var"; "wbr"; "caption"; "col"; "colgroup";
        "table"; "tbody"; "td"; "tfoot"; "th"; "thead"; "tr"];
     defaults_allowedAttributes :=
       <["img" := ["src"; "srcset"; "alt"; "title"; "width"; "height"; "loading"]]>
       (<["a" := ["href"; "name"; "target"]]> ∅) |}.

(** The scenario of the specification: notes A, B, C created at 100,
    200 and 300. *)
Definition three_notes : KVNamespace :=
  snd (saveNote (snd (saveNote (snd (saveNote ∅ 100 "A" "first" "one"))
                               200 "B" "second" "two"))
                300 "C" "third" "three").
End TextOnly.

(** ** An allow-list instance of the sanitizer

    A sanitizer that consults its policy: it keeps a text whose every
    tag and attribute the policy allows, and escapes any other text
    whole.  The default lists are those of the text-only instance. *)
Definition attribute_allowed (o : IOptions) (ta : string * string) : bool :=
  existsb (fun name => glob_match name (snd ta))
    (default [] (allowedAttributes o !! fst ta) ++ default [] (allowedAttributes o !! "*")).

Definition policy_allows (o : IOptions) (html : string) : bool :=
  forallb (fun tag => existsb (String.eqb tag) (allowedTags o)) (html_tags html) &&
  forallb (attribute_allowed o) (html_attributes html).

Module AllowList.
#[export] Instance sanitizer : SanitizeHtml :=
  {| sanitizeHtml := fun html o => if policy_allows o html then html else escape_html html;
     defaults_allowedTags := @defaults_allowedTags TextOnly.sanitizer;
     defaults_allowedAttributes := @defaults_allowedAttributes TextOnly.sanitizer |}.
End AllowList.

(** * The rest of the worker

    [createSessionCookie] and [createLogoutCookie] of [src/auth.ts],
    [getNextNoteNumber] of [src/db.ts], [escapeHtml] of
    [src/templates.ts] and the request handlers of [src/index.ts]. *)

From Stdlib Require DecimalString DecimalZ DecimalN DecimalFacts.

(** ** More JavaScript helpers *)

(** The decimal digits of an integer [n]: [n.toString()] for an [n]
    that is exact as a Number. *)
Definition Number_toString (n : Z) : string :=
  DecimalString.NilZero.string_of_int (Z.to_int n).

(** [str.replace(/c/g, by)] for a pattern of one character. *)
Fixpoint replace_all (c : ascii) (by_ : string) (str : string) : string :=
  match str with
  | EmptyString => ""
  | String d r => (if Ascii.eqb d c then by_ else String d "") +:+ replace_all c by_ r
  end.

(** [/^[a-zA-Z0-9_-]+$/]: the whole of a non-empty string of URL-safe
    characters. *)
Definition match_id (s : string) : option string :=
  if js_truthy_str s && forallb is_url_safe (list_ascii_of_string s)
  then Some s else None.

(** ** [src/auth.ts], continued *)

Definition createSessionCookie (token : string) : string :=
  "session=" +:+ token +:+
  "; HttpOnly; Secure; SameSite=Strict; Path=/; Max-Age=" +:+ Number_toString SESSION_TTL.

Definition createLogoutCookie : string :=
  "session=; HttpOnly; Secure; SameSite=Strict; Path=/; Max-Age=0".

(** A text without semicolon: what a cookie value can be. *)
Definition no_semicolon (s : string) : bool :=
  forallb (fun c => negb (Ascii.eqb c ";")) (list_ascii_of_string s).

Definition SECURITY_HEADERS : list (string * string) :=
  [("Content-Security-Policy",
    "default-src 'self'; style-src 'self' 'unsafe-inline'; img-src 'self' https: data:; script-src 'none'");
   ("X-Content-Type-Options", "nosniff");
   ("X-Frame-Options", "DENY");
   ("Referrer-Policy", "strict-origin-when-cross-origin");
   ("Permissions-Policy", "geolocation=(), microphone=(), camera=()")].

(** ** [src/templates.ts] *)

Definition single_quote : ascii := "039"%char.

Definition escapeHtml (str : string) : string :=
  replace_all single_quote "&#039;"
    (replace_all double_quote "&quot;"
       (replace_all ">" "&gt;"
          (replace_all "<" "&lt;"
             (replace_all "&" "&amp;" str)))).

(** What [escapeHtml] makes of one character. *)
Definition escape_char (c : ascii) : string :=
  if Ascii.eqb c "&" then "&amp;"
  else if Ascii.eqb c "<" then "&lt;"
  else if Ascii.eqb c ">" then "&gt;"
  else if Ascii.eqb c double_quote then "&quot;"
  else if Ascii.eqb c single_quote then "&#039;"
  else String c "".

Definition is_markup_char (c : ascii) : bool :=
  Ascii.eqb c "<" || Ascii.eqb c ">" || Ascii.eqb c double_quote || Ascii.eqb c single_quote.

(** The pages.  Their markup is fixed text around the values passed
    in; the handlers only pass these values and return the text. *)
Class Templates :=
  { renderNotePage : Note.t -> option string -> string;
    renderEmptyPage : string;
    render404Page : string;
    renderLoginPage : option string -> string;
    renderAdminDashboard : list NoteMeta.t -> string;
    renderNoteEditor : option Note.t -> string;
    renderDeleteConfirm : Note.t -> string }.

(** ** [src/index.ts] *)

Record Env := mkEnv
  { NOTES_KV : KVNamespace;
    ADMIN_PASSWORD : string }.

(** What a handler reads of a [Request]: the method, the path of its
    URL, its [Cookie] header, and the fields of its form body in
    order ([None] when the body is no form, so that [formData()]
    rejects). *)
Module Request.
Record t := mk
  { method : string;
    pathname : string;
    cookie : option string;
    formData : option (list (string * string)) }.
End Request.

(** Header names are kept as the worker writes them; it never writes
    one name in two spellings. *)
Module Response.
Record t := mk
  { status : Z;
    headers : gmap string string;
    body : option string }.
End Response.

Record ResponseInit := mkInit
  { init_status : option Z;
    init_headers : list (string * string) }.

(** The outcome of a handler: a response and the namespace it leaves,
    or a rejected promise.  A handler is modelled as rejecting where
    [formData()] does; its KV calls are taken to succeed, which they
    do on the keys the binding accepts ([kv_key_ok] below). *)
Inductive Outcome :=
| Responded (response : Response.t) (kv : KVNamespace)
| Threw.

(** A block [if (...) { ... return ...; }] followed by the rest of the
    function: [None] when the block does not return. *)
Definition orelse (block : option Outcome) (rest : Outcome) : Outcome :=
  match block with
  | Some outcome => outcome
  | None => rest
  end.

(** [headers.set(key, value)] for each entry, in order. *)
Definition Headers_set_all (entries : list (string * string))
    (headers : gmap string string) : gmap string string :=
  foldl (fun h entry => <[fst entry := snd entry]> h) headers entries.

(** Truthiness of a body: [null] and the empty string are falsy. *)
Definition body_truthy (body : option string) : bool :=
  match body with
  | Some text => js_truthy_str text
  | None => false
  end.

(** [formData.get(name)?.toString() || '']. *)
Definition form_field (form : list (string * string)) (name : string) : string :=
  match find (fun field => String.eqb (fst field) name) form with
  | Some field => snd field
  | None => ""
  end.

Definition secureResponse (body : option string) (init : ResponseInit) : Response.t :=
  let headers := Headers_set_all (init_headers init) ∅ in
  let headers := Headers_set_all SECURITY_HEADERS headers in
  let headers :=
    if body_truthy body && negb (bool_decide (is_Some (headers !! "Content-Type")))
    then <["Content-Type" := "text/html; charset=utf-8"]> headers
    else headers in
  Response.mk (default 200 (init_status init)) headers body.

(** A response made by [secureResponse]. *)
Definition secured (response : Response.t) : Prop :=
  exists body init, response = secureResponse body init.

(** The response [requireAuth] builds itself, with [new Response]. *)
Definition AUTH_REDIRECT : Response.t :=
  Response.mk 302 {["Location" := "/admin/login"]} None.

Definition handleHome `{Templates} (env : Env) (now : Z) : Outcome :=
  match getLatestNote (NOTES_KV env) now with
  | None => Responded (secureResponse (Some renderEmptyPage) (mkInit None [])) (NOTES_KV env)
  | Some latestNote =>
      Responded
        (secureResponse None
           (mkInit (Some 302) [("Location", "/" +:+ Note.id latestNote)]))
        (NOTES_KV env)
  end.

Definition handleNotePage `{Templates} (env : Env) (now : Z) (id : string) : Outcome :=
  match getNote (NOTES_KV env) now id with
  | None =>
      Responded (secureResponse (Some render404Page) (mkInit (Some 404) [])) (NOTES_KV env)
  | Some note =>
      let previousId := getPreviousNoteId (NOTES_KV env) now id in
      Responded (secureResponse (Some (renderNotePage note previousId)) (mkInit None []))
        (NOTES_KV env)
  end.

Definition handleLogin `{SubtleCrypto} `{Templates}
    (request : Request.t) (env : Env) (now : Z) (rnd : nat -> Z) : Outcome :=
  match Request.formData request with
  | None => Threw
  | Some formData =>
      let password := form_field formData "password" in
      let isValid := secureCompare password (ADMIN_PASSWORD env) in
      if negb isValid then
        Responded
          (secureResponse (Some (renderLoginPage (Some "Invalid password")))
             (mkInit (Some 401) []))
          (NOTES_KV env)
      else
        let '(token, kv) := createSession (NOTES_KV env) now rnd in
        Responded
          (secureResponse None
             (mkInit (Some 302)
                [("Location", "/admin"); ("Set-Cookie", createSessionCookie token)]))
          kv
  end.

Definition handleCreateNote `{Marked} `{SanitizeHtml}
    (request : Request.t) (env : Env) (now : Z) (rnd : nat -> Z) : Outcome :=
  match Request.formData request with
  | None => Threw
  | Some formData =>
      let title := form_field formData "title" in
      let content := form_field formData "content" in
      if negb (js_truthy_str title) || negb (js_truthy_str content) then
        Responded
          (secureResponse (Some "Title and content are required") (mkInit (Some 400) []))
          (NOTES_KV env)
      else
        let id := generateNoteId rnd in
        let '(_, kv) := saveNote (NOTES_KV env) now id title content in
        Responded (secureResponse None (mkInit (Some 302) [("Location", "/admin")])) kv
  end.

Definition handleUpdateNote `{Marked} `{SanitizeHtml}
    (request : Request.t) (env : Env) (now : Z) (id : string) : Outcome :=
  match Request.formData request with
  | None => Threw
  | Some formData =>
      let title := form_field formData "title" in
      let content := form_field formData "content" in
      if negb (js_truthy_str title) || negb (js_truthy_str content) then
        Responded
          (secureResponse (Some "Title and content are required") (mkInit (Some 400) []))
          (NOTES_KV env)
      else
        let '(_, kv) := saveNote (NOTES_KV env) now id title content in
        Responded (secureResponse None (mkInit (Some 302) [("Location", "/admin")])) kv
  end.

(** [path.match(/^\/admin\/edit\/([a-zA-Z0-9_-]+)$/)] and its like:
    the id after a fixed prefix. *)
Definition match_route (prefix path : string) : option string :=
  match strip_prefix prefix path with
  | Some rest => match_id rest
  | None => None
  end.

Definition handleAdminRoutes `{SubtleCrypto} `{Marked} `{SanitizeHtml} `{Templates}
    (request : Request.t) (env : Env) (now : Z) (rnd : nat -> Z) (path : string)
    : Outcome :=
  let kv := NOTES_KV env in
  let method := Request.method request in
  orelse
    (if String.eqb path "/admin/login" then
       if String.eqb method "GET" then
         Some (Responded (secureResponse (Some (renderLoginPage None)) (mkInit None [])) kv)
       else if String.eqb method "POST" then
         Some (handleLogin request env now rnd)
       else None
     else None)
  (orelse
    (if String.eqb path "/admin/logout" then
       let kv' :=
         match getSessionFromCookie (Request.cookie request) with
         | Some token => if js_truthy_str token then deleteSession kv token else kv
         | None => kv
         end in
       Some (Responded
               (secureResponse None
                  (mkInit (Some 302)
                     [("Location", "/"); ("Set-Cookie", createLogoutCookie)]))
               kv')
     else None)
  (orelse
    (if requireAuth kv now (Request.cookie request)
     then Some (Responded AUTH_REDIRECT kv)
     else None)
  (orelse
    (if String.eqb path "/admin" || String.eqb path "/admin/" then
       let notes := getAllNotes kv now in
       Some (Responded (secureResponse (Some (renderAdminDashboard notes)) (mkInit None [])) kv)
     else None)
  (orelse
    (if String.eqb path "/admin/new" then
       if String.eqb method "GET" then
         Some (Responded (secureResponse (Some (renderNoteEditor None)) (mkInit None [])) kv)
       else if String.eqb method "POST" then
         Some (handleCreateNote request env now rnd)
       else None
     else None)
  (orelse
    (match match_route "/admin/edit/" path with
     | Some id =>
         if String.eqb method "GET" then
           match getNote kv now id with
           | None =>
               Some (Responded (secureResponse (Some "Note not found") (mkInit (Some 404) [])) kv)
           | Some note =>
               Some (Responded
                       (secureResponse (Some (renderNoteEditor (Some note))) (mkInit None []))
                       kv)
           end
         else if String.eqb method "POST" then
           Some (handleUpdateNote request env now id)
         else None
     | None => None
     end)
  (orelse
    (match match_route "/admin/delete/" path with
     | Some id =>
         if String.eqb method "GET" then
           match getNote kv now id with
           | None =>
               Some (Responded (secureResponse (Some "Note not found") (mkInit (Some 404) [])) kv)
           | Some note =>
               Some (Responded
                       (secureResponse (Some (renderDeleteConfirm note)) (mkInit None []))
                       kv)
           end
         else if String.eqb method "POST" then
           Some (Responded
                   (secureResponse None (mkInit (Some 302) [("Location", "/admin")]))
                   (snd (deleteNote kv now id)))
         else None
     | None => None
     end)
    (Responded (secureResponse (Some "Not found") (mkInit (Some 404) [])) kv))))))).

Definition fetch `{SubtleCrypto} `{Marked} `{SanitizeHtml} `{Templates}
    (request : Request.t) (env : Env) (now : Z) (rnd : nat -> Z) : Outcome :=
  let path := Request.pathname request in
  if String.eqb path "/" || String.eqb path "" then handleHome env now
  else if String.prefix "/admin" path then handleAdminRoutes request env now rnd path
  else
    match match_route "/" path with
    | Some id => handleNotePage env now id
    | None =>
        Responded (secureResponse (Some render404Page) (mkInit (Some 404) [])) (NOTES_KV env)
    end.

(** ** [src/db.ts], continued: the sequential ids *)

Definition COUNTER_KEY : string := "meta:counter".

(** The white space [parseInt] skips, as UTF-8: the ASCII controls and
    the space, U+00A0, U+1680, U+2000 to U+200A, U+2028, U+2029,
    U+202F, U+205F, U+3000 and U+FEFF. *)
Definition is_ascii_space (c : ascii) : bool :=
  let n := nat_of_ascii c in
  ((9 <=? n) && (n <=? 13) || (n =? 32))%nat.

Definition is_space2 (a b : ascii) : bool :=
  ((nat_of_ascii a =? 194) && (nat_of_ascii b =? 160))%nat.

Definition is_space3 (a b c : ascii) : bool :=
  let '(x, y, z) := (nat_of_ascii a, nat_of_ascii b, nat_of_ascii c) in
  ((x =? 225) && (y =? 154) && (z =? 128)
   || (x =? 226) && (y =? 128) && ((128 <=? z) && (z <=? 138) || (z =? 168) || (z =? 169) || (z =? 175))
   || (x =? 226) && (y =? 129) && (z =? 159)
   || (x =? 227) && (y =? 128) && (z =? 128)
   || (x =? 239) && (y =? 187) && (z =? 191))%nat.

Fixpoint skip_space (s : string) : string :=
  match s with
  | String a r =>
      if is_ascii_space a then skip_space r else
      match r with
      | String b r2 =>
          if is_space2 a b then skip_space r2 else
          match r2 with
          | String c r3 => if is_space3 a b c then skip_space r3 else s
          | EmptyString => s
          end
      | EmptyString => s
      end
  | EmptyString => ""
  end.

Definition digit_value (c : ascii) : option Z :=
  let n := nat_of_ascii c in
  if ((48 <=? n) && (n <=? 57))%nat then Some (Z.of_nat n - 48) else None.

(** The value of the longest run of decimal digits at the start of
    [s], after the digits [acc] read so far; [None] when there is no
    digit at all. *)
Fixpoint leading_digits (acc : option Z) (s : string) : option Z :=
  match s with
  | String c r =>
      match digit_value c with
      | Some d => leading_digits (Some (10 * default 0 acc + d)) r
      | None => acc
      end
  | EmptyString => acc
  end.

(** [parseInt(s, 10)]: [None] is [NaN]. *)
Definition parseInt (s : string) : option Z :=
  match skip_space s with
  | String c r =>
      if Ascii.eqb c "-" then Z.opp <$> leading_digits None r
      else if Ascii.eqb c "+" then leading_digits None r
      else leading_digits None (String c r)
  | EmptyString => None
  end.

(** [str.padStart(n, '0')]. *)
Definition padStart0 (n : nat) (str : string) : string :=
  string_of_list_ascii (repeat "0"%char (n - String.length str)) +:+ str.

(** Integers up to this size are exact as JavaScript numbers. *)
Definition MAX_SAFE_INTEGER : Z := 2 ^ 53 - 1.

(** *** The Numbers of a counter

    A JavaScript Number is a double.  Those that [parseInt] and the
    addition of 1 produce hold an integer, an infinity or [NaN]. *)
Inductive Float64 :=
| Finite (v : Z)
| Infinite (negative : bool)
| NaN.

(** The Number for a mathematical integer: the nearest double, a tie
    going to the even significand, and an infinity from [2^1024 -
    2^970] on.  From [2^53] on the doubles are the multiples of
    [2^e] with a quotient of 53 bits. *)
Definition Float64_of_Z (n : Z) : Float64 :=
  let a := Z.abs n in
  if a <? 2 ^ 53 then Finite n else
  let e := Z.log2 a - 52 in
  let q := a / 2 ^ e in
  let r := a mod 2 ^ e in
  let half := 2 ^ (e - 1) in
  let q' := if (half <? r) || ((r =? half) && Z.odd q) then q + 1 else q in
  if 2 ^ 1024 <=? q' * 2 ^ e then Infinite (n <? 0)
  else Finite (Z.sgn n * (q' * 2 ^ e)).

Definition Float64_is (x : Float64) (v : Z) : bool :=
  match x with
  | Finite w => w =? v
  | _ => false
  end.

(** [x + 1]. *)
Definition Float64_add1 (x : Float64) : Float64 :=
  match x with
  | Finite v => Float64_of_Z (v + 1)
  | _ => x
  end.

(** [parseInt(s, 10)] as a Number: the digits are read exactly and
    then rounded. *)
Definition parseInt_Number (s : string) : Float64 :=
  match parseInt s with
  | Some n => Float64_of_Z n
  | None => NaN
  end.

(** The digits [Number::toString] prints for a double [x] of [2^53] or
    more, an integer of [d] decimal digits: the integers [s] of [k]
    digits and [n] with [k] as small as possible such that [s *
    10^(n-k)] reads back as [x]; of two such [s] the one nearer to
    [x], and the even one when they are as near.  [n] is [d], or
    [d + 1] when the digits round up to a power of ten.  The search
    ends at [k = d] at the latest, where [s] is [x] itself. *)
Fixpoint shortest_digits (x : Z) (d k fuel : nat) : Z * nat * nat :=
  let p := 10 ^ Z.of_nat (d - k) in
  let lo := x / p in
  let hi := lo + 1 in
  let reads_back s := Float64_is (Float64_of_Z (s * p)) x in
  let pick := fun s : Z =>
    if s =? 10 ^ Z.of_nat k then (1, S d, 1%nat) else (s, d, k) in
  match fuel with
  | O => (x, d, d)
  | S fuel' =>
      if reads_back lo && reads_back hi then
        if x - lo * p <? hi * p - x then pick lo
        else if hi * p - x <? x - lo * p then pick hi
        else if Z.even lo then pick lo else pick hi
      else if reads_back lo then pick lo
      else if reads_back hi then pick hi
      else shortest_digits x d (S k) fuel'
  end.

(** The text of a double [x] of [2^53] or more: its shortest digits,
    followed by zeros while the number has at most 21 digits, and in
    exponent notation beyond. *)
Definition Float64_toString_large (x : Z) : string :=
  let d := String.length (Number_toString x) in
  let '(s, n, k) := shortest_digits x d 1 d in
  let digits := Number_toString s in
  if (n <=? 21)%nat then digits +:+ string_of_list_ascii (repeat "0"%char (n - k))
  else
    match digits with
    | String first rest =>
        String first (if (k =? 1)%nat then "" else String "." rest)
        +:+ "e+" +:+ Number_toString (Z.of_nat (n - 1))
    | EmptyString => ""
    end.

(** [x.toString()].  An integer below [2^53] in size is exact and
    prints as its decimal digits. *)
Definition Float64_toString (x : Float64) : string :=
  match x with
  | NaN => "NaN"
  | Infinite negative => if negative then "-Infinity" else "Infinity"
  | Finite v =>
      if Z.abs v <? 2 ^ 53 then Number_toString v
      else if v <? 0 then "-" +:+ Float64_toString_large (- v)
      else Float64_toString_large v
  end.

(** [getNextNoteNumber].  The text under the counter key is read as it
    is stored (a stored note would read as its JSON text, which is
    truthy and has no leading digit). *)
Definition getNextNoteNumber (kv : KVNamespace) (now : Z) : string * KVNamespace :=
  let counter := kv_value <$> kv_get kv now COUNTER_KEY in
  let nextNum : Float64 :=
    match counter with
    | Some (VText text) =>
        if js_truthy_str text then Float64_add1 (parseInt_Number text) else Finite 1
    | Some (VJson _) => NaN
    | None => Finite 1
    end in
  (padStart0 4 (Float64_toString nextNum),
   kv_put kv COUNTER_KEY (VText (Float64_toString nextNum)) None None).

(** ** Vocabulary of the further properties *)

(** The keys the binding accepts: at most 512 bytes.  [get], [put]
    and [delete] reject a longer key. *)
Definition KV_MAX_KEY_BYTES : nat := 512.

Definition kv_key_ok (key : string) : bool :=
  (String.length key <=? KV_MAX_KEY_BYTES)%nat.

(** The session key a request makes the worker look up, if it brings
    a session cookie, is one the binding accepts. *)
Definition cookie_key_ok (cookie : option string) : bool :=
  match getSessionFromCookie cookie with
  | Some token => kv_key_ok (SESSION_PREFIX +:+ token)
  | None => true
  end.

(** The order in which [list] returns the keys. *)
Definition key_le (a b : string * KVEntry) : Prop :=
  String.leb (fst a) (fst b) = true.

(** The metadata [saveNote] stores beside a note. *)
Definition meta_of (n : Note.t) : NoteMeta.t :=
  {| NoteMeta.id := Note.id n;
     NoteMeta.title := Note.title n;
     NoteMeta.created := Note.created n;
     NoteMeta.updated := Note.updated n |}.

(** Every note key holds a note under its own id, with the metadata
    of that note. *)
Definition store_synced (kv : KVNamespace) : Prop :=
  forall key e,
    kv !! key = Some e ->
    String.prefix "note:" key = true ->
    exists n, kv_value e = VJson n /\
              kv_metadata e = Some (meta_of n) /\
              key = note_key (Note.id n).

(** The number written by the digits [d] after the digits that make
    up [acc]. *)
Fixpoint uint_value (acc : Z) (d : Decimal.uint) : Z :=
  match d with
  | Decimal.Nil => acc
  | Decimal.D0 l => uint_value (10 * acc + 0) l
  | Decimal.D1 l => uint_value (10 * acc + 1) l
  | Decimal.D2 l => uint_value (10 * acc + 2) l
  | Decimal.D3 l => uint_value (10 * acc + 3) l
  | Decimal.D4 l => uint_value (10 * acc + 4) l
  | Decimal.D5 l => uint_value (10 * acc + 5) l
  | Decimal.D6 l => uint_value (10 * acc + 6) l
  | Decimal.D7 l => uint_value (10 * acc + 7) l
  | Decimal.D8 l => uint_value (10 * acc + 8) l
  | Decimal.D9 l => uint_value (10 * acc + 9) l
  end.

(** The counter stands at [n]: it holds the decimal text of [n], or,
    for [n = 0], there is no counter yet. *)
Definition counter_is (kv : KVNamespace) (now : Z) (n : Z) : Prop :=
  kv_value <$> kv_get kv now COUNTER_KEY = Some (VText (Number_toString n)) \/
  (n = 0 /\ kv_get kv now COUNTER_KEY = None).

(** ** Pages and an environment to run the handlers on

    Each page is reduced to the values it shows. *)
Module Pages.
#[export] Instance templates : Templates :=
  {| renderNotePage := fun note previousId =>
       "#" +:+ Note.id note +:+ " " +:+ escapeHtml (Note.title note) +:+ " "
       +:+ Note.htmlContent note
       +:+ match previousId with Some p => " /" +:+ p | None => "" end;
     renderEmptyPage := "No notes yet.";
     render404Page := "Note not found.";
     renderLoginPage := fun error =>
       "Admin Login" +:+ match error with Some e => ": " +:+ escapeHtml e | None => "" end;
     renderAdminDashboard := fun notes =>
       "Notes Admin" +:+ fold_right (fun m acc => " #" +:+ NoteMeta.id m +:+ acc) "" notes;
     renderNoteEditor := fun note =>
       match note with Some n => "Edit #" +:+ Note.id n | None => "New Note" end;
     renderDeleteConfirm := fun note => "Delete #" +:+ Note.id note |}.

Definition env : Env := mkEnv TextOnly.three_notes "hunter2".

(** Random bytes under which [nanoid] spells [adminXYZ]. *)
Definition admin_bytes (i : nat) : Z :=
  nth i [47; 31; 19; 4; 61; 7; 5; 3] 0.

(** The same environment after a login at time 1000, and the cookie
    of that login. *)
Definition session_bytes (i : nat) : Z := Z.of_nat i * 37 + 11.

Definition signed_in : Env :=
  mkEnv (snd (createSession TextOnly.three_notes 1000 session_bytes)) "hunter2".

Definition session_cookie : option string :=
  Some ("session=" +:+ randomUUID session_bytes).
End Pages.
(** * Properties *)

(** ** Sorting and searching *)

Section Sorting.
Context {A : Type} (le : A -> A -> bool).

Lemma insert_sorted_Permutation x l : insert_sorted le x l ≡ₚ x :: l.
Proof.
  induction l as [|y r IH]; simpl; [done|].
  destruct (le x y); [done|].
  rewrite IH. apply Permutation_swap.
Qed.

Lemma stable_sort_Permutation l : stable_sort le l ≡ₚ l.
Proof.
  induction l as [|x r IH]; simpl; [done|].
  by rewrite insert_sorted_Permutation, IH.
Qed.

Hypothesis le_total : forall a b, le a b = false -> le b a = true.

Lemma insert_sorted_HdRel a x l :
  le a x = true -> HdRel (fun u v => le u v = true) a l ->
  HdRel (fun u v => le u v = true) a (insert_sorted le x l).
Proof.
  intros Hax Hal. destruct l as [|y r]; simpl.
  - by constructor.
  - destruct (le x y); constructor; [done|].
    by inversion Hal.
Qed.

Lemma insert_sorted_Sorted x l :
  Sorted (fun u v => le u v = true) l ->
  Sorted (fun u v => le u v = true) (insert_sorted le x l).
Proof.
  induction 1 as [|y r Hr IH Hhd]; simpl.
  - by repeat constructor.
  - destruct (le x y) eqn:Hxy.
    + constructor; [by constructor|by constructor].
    + constructor; [done|].
      apply insert_sorted_HdRel; [by apply le_total|done].
Qed.

Lemma stable_sort_Sorted l : Sorted (fun u v => le u v = true) (stable_sort le l).
Proof.
  induction l as [|x r IH]; simpl; [constructor|].
  by apply insert_sorted_Sorted.
Qed.
End Sorting.

Lemma Sorted_adjacent {A} (R : A -> A -> Prop) (l : list A) (i : nat) (a b : A) :
  Sorted R l -> l !! i = Some a -> l !! S i = Some b -> R a b.
Proof.
  intros Hs. revert i. induction Hs as [|x r Hr IH Hhd]; intros i Ha Hb.
  - by rewrite lookup_nil in Ha.
  - destruct i as [|i]; simpl in *.
    + injection Ha as <-. destruct r as [|y r']; simpl in Hb; [done|].
      injection Hb as <-. by inversion Hhd.
    + by apply (IH i).
Qed.

Section FindIndex.
Context {A : Type} (p : A -> bool).

Lemma findIndex_ge l : -1 <= findIndex p l.
Proof.
  induction l as [|x r IH]; simpl; [lia|].
  destruct (p x); [lia|].
  destruct (Z.ltb_spec (findIndex p r) 0); lia.
Qed.

Lemma findIndex_lt_length l : findIndex p l < Z.of_nat (length l).
Proof.
  induction l as [|x r IH]; simpl length; simpl findIndex; [lia|].
  destruct (p x); [lia|].
  destruct (Z.ltb_spec (findIndex p r) 0); lia.
Qed.

Lemma findIndex_lookup l :
  0 <= findIndex p l ->
  exists x, l !! Z.to_nat (findIndex p l) = Some x /\ p x = true.
Proof.
  induction l as [|x r IH]; simpl; [lia|].
  destruct (p x) eqn:Hpx; [by exists x|].
  destruct (Z.ltb_spec (findIndex p r) 0) as [Hneg|Hpos]; [lia|].
  intros _. destruct (IH Hpos) as (y & Hy & Hpy).
  exists y. split; [|done].
  replace (Z.to_nat (findIndex p r + 1)) with (S (Z.to_nat (findIndex p r))) by lia.
  done.
Qed.

Lemma findIndex_first l (j : nat) y :
  l !! j = Some y -> p y = true ->
  (forall k z, (k < j)%nat -> l !! k = Some z -> p z = false) ->
  findIndex p l = Z.of_nat j.
Proof.
  revert j. induction l as [|x r IH]; intros j Hj Hpy Hbefore.
  - by rewrite lookup_nil in Hj.
  - destruct j as [|j]; simpl in *.
    + injection Hj as ->. by rewrite Hpy.
    + rewrite (Hbefore 0%nat x) by (done || lia).
      rewrite (IH j Hj Hpy).
      * destruct (Z.ltb_spec (Z.of_nat j) 0); lia.
      * intros k z Hk Hz. apply (Hbefore (S k) z); [lia|done].
Qed.
End FindIndex.

(** Among elements with pairwise distinct keys, the one found by key
    is the one that carries it. *)
Lemma findIndex_NoDup {A} (f : A -> string) (l : list A) (j : nat) (y : A) :
  NoDup (map f l) -> l !! j = Some y ->
  findIndex (fun n => String.eqb (f n) (f y)) l = Z.of_nat j.
Proof.
  intros Hnd Hj. apply (findIndex_first _ l j y Hj).
  - apply String.eqb_refl.
  - intros k z Hk Hz. apply String.eqb_neq. intros Heq.
    assert (k = j); [|lia].
    apply (NoDup_lookup (map f l) k j (f y)); [done| |].
    + by rewrite list_lookup_fmap, Hz; simpl; rewrite Heq.
    + by rewrite list_lookup_fmap, Hj.
Qed.

(** ** The KV model *)

Lemma note_key_inj id1 id2 : note_key id1 = note_key id2 -> id1 = id2.
Proof. unfold note_key. apply (inj _). Qed.

Lemma note_key_prefix id : String.prefix "note:" (note_key id) = true.
Proof. unfold note_key. simpl. by destruct id. Qed.

Lemma session_key_not_note token :
  String.prefix "note:" (SESSION_PREFIX +:+ token) = false.
Proof. reflexivity. Qed.

Lemma kv_get_put_eq kv now key v metadata :
  kv_get (kv_put kv key v metadata None) now key = Some (mkEntry v metadata None).
Proof. unfold kv_get, kv_put. by rewrite lookup_insert_eq. Qed.

Lemma kv_get_put_ne kv now key key' v metadata expiration :
  key <> key' ->
  kv_get (kv_put kv key v metadata expiration) now key' = kv_get kv now key'.
Proof. intros Hne. unfold kv_get, kv_put. by rewrite lookup_insert_ne. Qed.

Lemma kv_get_delete_eq kv now key : kv_get (kv_delete kv key) now key = None.
Proof. unfold kv_get, kv_delete. by rewrite lookup_delete_eq. Qed.

(** Once unreadable, an entry stays unreadable as time passes. *)
Lemma kv_get_None_mono kv now now' key :
  now <= now' -> kv_get kv now key = None -> kv_get kv now' key = None.
Proof.
  unfold kv_get, kv_live. intros Hle.
  destruct (kv !! key) as [e|]; [|done].
  destruct (kv_expiration e) as [t|]; [|done].
  destruct (Z.ltb_spec now t), (Z.ltb_spec now' t); (done || lia).
Qed.

Lemma NoDup_fmap_filter {A B} (f : A -> B) (P : A -> Prop)
    `{!forall x, Decision (P x)} (l : list A) :
  NoDup (f <$> l) -> NoDup (f <$> filter P l).
Proof.
  induction l as [|x r IH]; [done|].
  rewrite fmap_cons, NoDup_cons. intros [Hx Hr].
  rewrite filter_cons. destruct (decide (P x)); [|by apply IH].
  rewrite fmap_cons, NoDup_cons. split; [|by apply IH].
  intros Hin. apply Hx.
  apply list_elem_of_fmap in Hin as (y & -> & Hy).
  apply list_elem_of_filter in Hy as [_ Hy].
  by apply list_elem_of_fmap_2.
Qed.

Lemma kv_list_elem kv now pfx key om :
  (key, om) ∈ kv_list kv now pfx ->
  exists e, kv !! key = Some e /\ om = kv_metadata e /\
            String.prefix pfx key = true /\ kv_live now e = true.
Proof.
  unfold kv_list. intros Hin.
  apply (fun H => elem_of_sublist _ _ _ H (sublist_take _ _)) in Hin.
  change (map ?f ?l) with (f <$> l) in Hin.
  apply list_elem_of_fmap in Hin as ([k e] & Heq & Hin). simpl in Heq.
  injection Heq as -> ->.
  apply list_elem_of_filter in Hin as [HP Hin]. simpl in HP.
  rewrite stable_sort_Permutation in Hin.
  apply elem_of_map_to_list in Hin.
  apply andb_true_iff in HP as [Hpfx Hlive].
  by exists e.
Qed.

Lemma kv_list_NoDup kv now pfx : NoDup (fst <$> kv_list kv now pfx).
Proof.
  unfold kv_list. rewrite fmap_take.
  eapply sublist_NoDup; [|apply sublist_take].
  change (map ?f ?l) with (f <$> l).
  rewrite <- list_fmap_compose.
  change (fst ∘ _) with (@fst string KVEntry).
  apply NoDup_fmap_filter.
  rewrite stable_sort_Permutation.
  apply NoDup_fst_map_to_list.
Qed.

(** ** The note store *)

Section NoteStore.
Context `{Marked} `{SanitizeHtml}.

Lemma getNote_saveNote kv now now' id title content :
  getNote (snd (saveNote kv now id title content)) now' id
  = Some (fst (saveNote kv now id title content)).
Proof. unfold getNote, saveNote. simpl. by rewrite kv_get_put_eq. Qed.

Lemma getNote_deleteNote kv now now' id :
  now <= now' -> getNote (snd (deleteNote kv now id)) now' id = None.
Proof.
  intros Hle. unfold deleteNote.
  destruct (getNote kv now id) as [n|] eqn:Hget; simpl.
  - unfold getNote. by rewrite kv_get_delete_eq.
  - unfold getNote in *.
    destruct (kv_get kv now (note_key id)) as [e|] eqn:Hkv.
    + unfold kv_get in *.
      destruct (kv !! note_key id) as [e'|]; [|done].
      destruct (kv_live now e'); [|done]. injection Hkv as ->.
      destruct (kv_live now' e); [done|done].
    + by rewrite (kv_get_None_mono kv now now' _ Hle Hkv).
Qed.

(** *** The invariant of note keys *)

Lemma store_wf_empty : store_wf ∅.
Proof. intros key e Hlook. by rewrite lookup_empty in Hlook. Qed.

Lemma store_wf_saveNote kv now id title content :
  store_wf kv -> store_wf (snd (saveNote kv now id title content)).
Proof.
  intros Hwf key e. unfold saveNote, kv_put. simpl.
  destruct (decide (note_key id = key)) as [<-|Hne].
  - rewrite lookup_insert_eq. intros [= <-] _. simpl. split; [by eexists|].
    by intros m [= <-].
  - rewrite lookup_insert_ne by done. apply Hwf.
Qed.

Lemma store_wf_delete kv key : store_wf kv -> store_wf (delete key kv).
Proof.
  intros Hwf key' e Hlook. apply lookup_delete_Some in Hlook as [_ Hlook].
  by apply Hwf.
Qed.

Lemma store_wf_deleteNote kv now id :
  store_wf kv -> store_wf (snd (deleteNote kv now id)).
Proof.
  intros Hwf. unfold deleteNote.
  destruct (getNote kv now id); simpl; [by apply store_wf_delete|done].
Qed.

Lemma store_wf_createSession kv now rnd :
  store_wf kv -> store_wf (snd (createSession kv now rnd)).
Proof.
  intros Hwf key e. unfold createSession, kv_put. simpl.
  destruct (decide (SESSION_PREFIX +:+ randomUUID rnd = key)) as [<-|Hne].
  - intros _. by rewrite session_key_not_note.
  - rewrite lookup_insert_ne by done. apply Hwf.
Qed.

Lemma store_wf_deleteSession kv token :
  store_wf kv -> store_wf (deleteSession kv token).
Proof.
  intros Hwf. unfold deleteSession.
  destruct (js_truthy_str token); [by apply store_wf_delete|done].
Qed.

(** Every namespace the worker produces satisfies the invariant. *)
Lemma reachable_store_wf kv : reachable kv -> store_wf kv.
Proof.
  induction 1;
    eauto using store_wf_empty, store_wf_saveNote, store_wf_deleteNote,
                store_wf_createSession, store_wf_deleteSession.
Qed.
End NoteStore.

(** *** The listing *)

Lemma getAllNotes_Permutation kv now :
  getAllNotes kv now ≡ₚ omap snd (kv_list kv now "note:").
Proof. unfold getAllNotes, js_sort. apply stable_sort_Permutation. Qed.

Lemma getAllNotes_elem kv now m :
  m ∈ getAllNotes kv now ->
  exists key e, kv !! key = Some e /\ kv_metadata e = Some m /\
                String.prefix "note:" key = true /\ kv_live now e = true.
Proof.
  rewrite getAllNotes_Permutation. intros Hin.
  apply list_elem_of_omap in Hin as ([key om] & Hin & Hsnd). simpl in Hsnd. subst om.
  apply kv_list_elem in Hin as (e & Hlook & Hmeta & Hpfx & Hlive).
  by exists key, e.
Qed.

Lemma listed_ids_NoDup (l : list (string * option NoteMeta.t)) :
  NoDup (fst <$> l) ->
  (forall key m, (key, Some m) ∈ l -> key = note_key (NoteMeta.id m)) ->
  NoDup (NoteMeta.id <$> omap snd l).
Proof.
  induction l as [|[key om] r IH]; [constructor|].
  rewrite fmap_cons, NoDup_cons. simpl. intros [Hkey Hr] Hkeys.
  assert (NoDup (NoteMeta.id <$> omap snd r)) as IHr.
  { apply IH; [done|]. intros k m Hin. apply Hkeys. by right. }
  destruct om as [m|]; simpl; [|done].
  rewrite NoDup_cons. split; [|done].
  intros Hin. apply Hkey.
  apply list_elem_of_fmap in Hin as (m' & Hid & Hin).
  apply list_elem_of_omap in Hin as ([k' om'] & Hin & Hsnd). simpl in Hsnd. subst om'.
  assert (k' = note_key (NoteMeta.id m')) as -> by (apply Hkeys; by right).
  assert (key = note_key (NoteMeta.id m)) as -> by (apply Hkeys; by left).
  rewrite Hid. by apply (list_elem_of_fmap_2 fst r (note_key (NoteMeta.id m'), Some m')).
Qed.

(** Under the invariant, the listed ids are pairwise distinct ... *)
Lemma getAllNotes_ids_NoDup kv now :
  store_wf kv -> NoDup (NoteMeta.id <$> getAllNotes kv now).
Proof.
  intros Hwf. rewrite getAllNotes_Permutation.
  apply listed_ids_NoDup; [apply kv_list_NoDup|].
  intros key m Hin.
  apply kv_list_elem in Hin as (e & Hlook & Hmeta & Hpfx & _).
  by apply (Hwf key e Hlook Hpfx).
Qed.

(** ... and every listed note can be fetched. *)
Lemma getAllNotes_getNote kv now m :
  store_wf kv -> m ∈ getAllNotes kv now ->
  is_Some (getNote kv now (NoteMeta.id m)).
Proof.
  intros Hwf Hin.
  apply getAllNotes_elem in Hin as (key & e & Hlook & Hmeta & Hpfx & Hlive).
  destruct (Hwf key e Hlook Hpfx) as [[n Hn] Hid].
  rewrite (Hid m Hmeta) in Hlook.
  unfold getNote, kv_get. rewrite Hlook, Hlive, Hn. by eexists.
Qed.

(** ** Note identifiers *)

Lemma urlAlphabet_url_safe (n : nat) :
  is_url_safe (nth n (list_ascii_of_string urlAlphabet) "u"%char) = true.
Proof.
  destruct (Nat.lt_ge_cases n (length (list_ascii_of_string urlAlphabet))) as [Hlt|Hge].
  - assert (forallb is_url_safe (list_ascii_of_string urlAlphabet) = true) as Hall
      by reflexivity.
    rewrite forallb_forall in Hall. apply Hall. by apply nth_In.
  - by rewrite nth_overflow.
Qed.

Lemma nanoid_length size rnd : String.length (nanoid size rnd) = size.
Proof.
  unfold nanoid, getRandomValues.
  assert (forall l, String.length (string_of_list_ascii l) = length l) as Hlen.
  { induction l as [|c l IH]; simpl; congruence. }
  by rewrite Hlen, length_map, length_rev, length_map, length_seq.
Qed.

Lemma nanoid_chars size rnd :
  Forall (fun c => is_url_safe c = true) (chars (nanoid size rnd)).
Proof.
  unfold chars, nanoid. rewrite list_ascii_of_string_of_list_ascii.
  apply List.Forall_forall. intros c Hin.
  apply in_map_iff in Hin as (byte & <- & _).
  apply urlAlphabet_url_safe.
Qed.

(** C1 fails on the code: when every random byte is 8, the identifier
    is eight hyphens, none of which is alphanumeric, against the
    [Format: 8 alphanumeric characters] of the function's own
    documentation. *)
Lemma generateNoteId_not_alphanumeric :
  ~ (forall rnd,
       String.length (generateNoteId rnd) = 8%nat /\
       Forall (fun c => is_alphanumeric c = true) (chars (generateNoteId rnd))).
Proof.
  intros Hall. destruct (Hall (fun _ => 8)) as [_ Hchars].
  assert (generateNoteId (fun _ => 8) = "--------") as Hid by reflexivity.
  rewrite Hid in Hchars. by inversion Hchars.
Qed.

(** What does hold of the identifiers: each has exactly 8 characters,
    drawn from the 64-symbol URL-safe alphabet [A-Za-z0-9_-]. *)
Theorem generateNoteId_url_safe (rnd : nat -> Z) :
  String.length (generateNoteId rnd) = 8%nat /\
  Forall (fun c => is_url_safe c = true) (chars (generateNoteId rnd)).
Proof.
  unfold generateNoteId. split; [apply nanoid_length|apply nanoid_chars].
Qed.

(** ** Rendering on write *)

Lemma glob_match_literal (pattern s : string) :
  star_free pattern = true -> glob_match pattern s = true -> s = pattern.
Proof.
  revert s. induction pattern as [|c p IH]; intros s; simpl.
  - intros _. by intros ->%String.eqb_eq.
  - intros [Hc Hp]%andb_true_iff. apply negb_true_iff in Hc. rewrite Hc.
    destruct s as [|d s]; [done|].
    intros [Hcd Hm]%andb_true_iff. apply Ascii.eqb_eq in Hcd as ->.
    f_equal. by apply IH.
Qed.

(** The reading tells a rendering with a script or a handler from one
    without.  A quoted value hides what it holds, in an end tag as in a
    start tag; a comment ends at its closing mark and not at a quote;
    what follows either is read as markup; inside a special element
    nothing is vouched for; and a tag the text ends in counts. *)
Example script_free_examples :
  script_free "<h1>Hi</h1><p><img src='x' alt='a onclick=b'></p>" = true /\
  script_free "<h1>Hi</h1><script>alert(1)</script>" = false /\
  script_free "<p><img src=x onerror=alert(1)></p>" = false /\
  html_attributes "<IMG SRC=x OnError = 'alert(1)'>" = [("img", "src"); ("img", "onerror")] /\
  html_tags "</p a='><a title='><script>alert(1)</script>" = ["script"] /\
  html_tags "<!-- a='--><script>alert(1)</script>'>" = ["script"] /\
  html_tags "<p title='<script>'>1 < 2</p><!-- <script> -->" = ["p"] /\
  script_free "<textarea><p title='</textarea><img src=x onerror=alert(1)>'>" = false /\
  html_attributes "<p>x</p><img src=x onerror=alert(1) " = [("img", "src"); ("img", "onerror")].
Proof. repeat split. Qed.

Section Rendering.
Context `{Marked} `{SanitizeHtml}.

(** The worker's policy adds neither a [script] tag nor an
    event-handler attribute to the library defaults. *)
Lemma SANITIZE_OPTIONS_tags tag :
  In tag (allowedTags SANITIZE_OPTIONS) ->
  In tag defaults_allowedTags \/ In tag ["img"; "h1"; "h2"; "h3"].
Proof. simpl. apply in_app_or. Qed.

Lemma SANITIZE_OPTIONS_attributes tag names :
  allowedAttributes SANITIZE_OPTIONS !! tag = Some names ->
  defaults_allowedAttributes !! tag = Some names \/
  In names [["class"]; ["href"; "title"; "target"; "rel"]; ["src"; "alt"; "title"]].
Proof.
  simpl. intros Hlook.
  repeat (apply lookup_insert_Some in Hlook as [[_ <-]|[_ Hlook]];
          [right; simpl; tauto|]).
  by left.
Qed.

Lemma SANITIZE_OPTIONS_script_free html :
  sanitizer_discards ->
  (forall tag, In tag defaults_allowedTags -> is_special tag = false) ->
  (forall tag names name attr,
      defaults_allowedAttributes !! tag = Some names ->
      In name names -> glob_match name attr = true ->
      is_event_handler attr = false) ->
  script_free (sanitizeHtml html SANITIZE_OPTIONS) = true.
Proof.
  intros Hsan Htags Hattrs. destruct (Hsan html SANITIZE_OPTIONS) as [Ht Ha].
  unfold script_free. apply andb_true_iff. split; apply forallb_forall.
  - intros tag Hin. apply negb_true_iff.
    apply Ht, SANITIZE_OPTIONS_tags in Hin as [Hin|Hin]; [by apply Htags|].
    simpl in Hin. intuition (subst; reflexivity).
  - intros [tag attr] Hin. apply negb_true_iff. simpl.
    destruct (Ha tag attr Hin) as (names & name & Hlook & Hname & Hmatch).
    assert (exists t, allowedAttributes SANITIZE_OPTIONS !! t = Some names)
      as [t Ht'] by (destruct Hlook; eauto).
    apply SANITIZE_OPTIONS_attributes in Ht' as [Hdef|Hown].
    + by apply (Hattrs t names name).
    + assert (star_free name = true /\ is_event_handler name = false) as [Hstar Hsafe].
      { simpl in Hown.
        destruct Hown as [<-|[<-|[<-|[]]]]; simpl in Hname;
          intuition (subst; done). }
      by rewrite (glob_match_literal name attr Hstar Hmatch).
Qed.

(** C2: after a write, the note read back carries as [htmlContent] the
    sanitization, under [SANITIZE_OPTIONS], of the Markdown rendering
    of its [content]; and when the sanitizer discards what its policy
    does not list, and the library defaults list neither [script], nor
    another element that changes how a parser reads what follows, nor
    an entry matching an [on*] attribute, that HTML has no [script] tag
    and no [on*] attribute as a parser reads it, whatever the
    content. *)
Theorem saveNote_htmlContent_sanitized
    (kv : KVNamespace) (now now' : Z) (id title content : string) :
  sanitizer_discards ->
  (forall tag, In tag defaults_allowedTags -> is_special tag = false) ->
  (forall tag names name attr,
      defaults_allowedAttributes !! tag = Some names ->
      In name names -> glob_match name attr = true ->
      is_event_handler attr = false) ->
  exists note,
    getNote (snd (saveNote kv now id title content)) now' id = Some note /\
    Note.content note = content /\
    Note.htmlContent note = sanitizeHtml (marked_parse content) SANITIZE_OPTIONS /\
    script_free (Note.htmlContent note) = true.
Proof.
  intros Hsan Htags Hattrs.
  exists (fst (saveNote kv now id title content)).
  split; [apply getNote_saveNote|]. simpl.
  split; [done|]. split; [done|].
  by apply SANITIZE_OPTIONS_script_free.
Qed.
End Rendering.

(** Facts about the instances. *)
Lemma html_scan_InText_plain (s : string) :
  Forall (fun c => Ascii.eqb c "<" = false) (list_ascii_of_string s) ->
  html_scan InText s = [].
Proof.
  induction s as [|c r IH]; [done|]. simpl.
  intros [Hc Hr]%Forall_cons. rewrite Hc. simpl. by apply IH.
Qed.

Lemma html_scan_InText_app (a b : string) :
  Forall (fun c => Ascii.eqb c "<" = false) (list_ascii_of_string a) ->
  html_scan InText (a +:+ b) = html_scan InText b.
Proof.
  induction a as [|c r IH]; [done|].
  intros [Hc Hr]%Forall_cons.
  change (String c r +:+ b) with (String c (r +:+ b)).
  simpl. rewrite Hc. simpl. by apply IH.
Qed.

Lemma escape_html_scan (html : string) : html_scan InText (escape_html html) = [].
Proof.
  induction html as [|c r IH]; [done|]. simpl.
  destruct (Ascii.eqb c "&"); [by rewrite html_scan_InText_app by by repeat constructor|].
  destruct (Ascii.eqb c "<") eqn:Hlt;
    [by rewrite html_scan_InText_app by by repeat constructor|].
  destruct (Ascii.eqb c ">"); [by rewrite html_scan_InText_app by by repeat constructor|].
  destruct (Ascii.eqb c double_quote);
    [by rewrite html_scan_InText_app by by repeat constructor|].
  rewrite html_scan_InText_app; [done|]. by repeat constructor.
Qed.

Lemma TextOnly_discards : @sanitizer_discards TextOnly.sanitizer.
Proof.
  intros html o. unfold html_tags, html_attributes. simpl.
  rewrite escape_html_scan. split; [by intros tag []|by intros tag attr []].
Qed.

Lemma TextOnly_defaults_not_special tag :
  In tag (@defaults_allowedTags TextOnly.sanitizer) -> is_special tag = false.
Proof.
  assert (forallb (fun t => negb (is_special t)) (@defaults_allowedTags TextOnly.sanitizer)
          = true) as Hall by (by vm_compute).
  rewrite forallb_forall in Hall. intros Hin. by apply negb_true_iff, Hall.
Qed.

Lemma TextOnly_defaults_no_handler tag names name attr :
  @defaults_allowedAttributes TextOnly.sanitizer !! tag = Some names ->
  In name names -> glob_match name attr = true ->
  is_event_handler attr = false.
Proof.
  simpl. intros Hlook Hname Hmatch.
  assert (star_free name = true /\ is_event_handler name = false) as [Hstar Hsafe].
  { apply lookup_insert_Some in Hlook as [[_ <-]|[_ Hlook]];
      [|apply lookup_insert_Some in Hlook as [[_ <-]|[_ Hlook]]];
      [| |by rewrite lookup_empty in Hlook];
      simpl in Hname; intuition (subst; done). }
  by rewrite (glob_match_literal name attr Hstar Hmatch).
Qed.

(** The allow-list sanitizer discards what its policy does not list:
    what it keeps it has checked, and what it escapes has no markup
    left. *)
Lemma AllowList_discards : @sanitizer_discards AllowList.sanitizer.
Proof.
  intros html o. simpl.
  destruct (policy_allows o html) eqn:Hallowed.
  - apply andb_true_iff in Hallowed as [Htags Hattrs].
    rewrite forallb_forall in Htags. rewrite forallb_forall in Hattrs. split.
    + intros tag Hin. apply Htags, existsb_exists in Hin as (tag' & Hin & Heq).
      by apply String.eqb_eq in Heq as ->.
    + intros tag attr Hin.
      apply Hattrs, existsb_exists in Hin as (name & Hname & Hmatch).
      simpl in Hname, Hmatch. apply in_app_or in Hname as [Hname|Hname].
      * destruct (allowedAttributes o !! tag) as [names|] eqn:Hlook; [|done].
        exists names, name. eauto.
      * destruct (allowedAttributes o !! "*") as [names|] eqn:Hlook; [|done].
        exists names, name. eauto.
  - unfold html_tags, html_attributes. rewrite escape_html_scan.
    split; [by intros tag []|by intros tag attr []].
Qed.

(** What the allow-list sanitizer does under the worker's policy: it
    keeps a heading and a link, and escapes a text with a script
    element or with an event handler. *)
Example AllowList_examples :
  let sanitize := fun html =>
    @sanitizeHtml AllowList.sanitizer html (@SANITIZE_OPTIONS AllowList.sanitizer) in
  sanitize "<h1>Hi</h1><p><a href='/x' title='t'>x</a></p>"
  = "<h1>Hi</h1><p><a href='/x' title='t'>x</a></p>" /\
  sanitize "<p>Hi <script>alert(1)</script></p>"
  = "&lt;p&gt;Hi &lt;script&gt;alert(1)&lt;/script&gt;&lt;/p&gt;" /\
  sanitize "<p><img src=x onerror=alert(1)></p>"
  = "&lt;p&gt;&lt;img src=x onerror=alert(1)&gt;&lt;/p&gt;".
Proof. by vm_compute. Qed.

Lemma saveNote_htmlContent_sanitized_witness :
  exists note,
    getNote (snd (@saveNote TextOnly.marked AllowList.sanitizer
                    ∅ 100 "A" "Hello" "# Hi <script>alert(1)</script>")) 200 "A"
    = Some note /\
    Note.content note = "# Hi <script>alert(1)</script>" /\
    Note.htmlContent note
    = @sanitizeHtml AllowList.sanitizer
        (@marked_parse TextOnly.marked "# Hi <script>alert(1)</script>")
        (@SANITIZE_OPTIONS AllowList.sanitizer) /\
    script_free (Note.htmlContent note) = true.
Proof.
  apply (@saveNote_htmlContent_sanitized
           TextOnly.marked AllowList.sanitizer
           ∅ 100 200 "A" "Hello" "# Hi <script>alert(1)</script>").
  - exact AllowList_discards.
  - exact TextOnly_defaults_not_special.
  - exact TextOnly_defaults_no_handler.
Defined.

(** ** Writing and reading back *)

Section Writes.
Context `{Marked} `{SanitizeHtml}.

Lemma saveNote_created kv now id title content :
  Note.created (fst (saveNote kv now id title content))
  = js_or_num (Note.created <$> getNote kv now id) now.
Proof. reflexivity. Qed.

(** C10: [saveNote] keeps the prior [created] exactly when it is
    truthy; a prior [created] of 0 is replaced by the current time. *)
Theorem saveNote_created_truthy
    (kv : KVNamespace) (now : Z) (id title content : string) (existing : Note.t) :
  getNote kv now id = Some existing ->
  (Note.created existing = 0 ->
     Note.created (fst (saveNote kv now id title content)) = now) /\
  (Note.created existing <> 0 ->
     Note.created (fst (saveNote kv now id title content)) = Note.created existing).
Proof.
  intros Hget. rewrite saveNote_created, Hget. simpl.
  destruct (Z.eqb_spec (Note.created existing) 0); split; (done || lia).
Qed.

(** X30: [saveNote id t c] followed by [getNote id] yields the note
    just written, with title [t], content [c] and [updated] set to the
    time of the write; over a prior record its [created] is the prior
    one when that is not 0, and its [updated] is not earlier than the
    prior one when the clock has not gone back; with no prior record
    the write is the creation of a note under the supplied id, created
    and updated at the time of the write. *)
Theorem saveNote_getNote_roundtrip
    (kv : KVNamespace) (now now' : Z) (id t c : string) :
  let note := fst (saveNote kv now id t c) in
  getNote (snd (saveNote kv now id t c)) now' id = Some note /\
  Note.id note = id /\ Note.title note = t /\ Note.content note = c /\
  Note.updated note = now /\
  (forall prior, getNote kv now id = Some prior ->
     (Note.created prior <> 0 -> Note.created note = Note.created prior) /\
     (Note.updated prior <= now -> Note.updated prior <= Note.updated note)) /\
  (getNote kv now id = None ->
     note = Note.mk id t c (sanitizeHtml (marked_parse c) SANITIZE_OPTIONS) now now).
Proof.
  intros note. split; [apply getNote_saveNote|].
  repeat (split; [reflexivity|]). split.
  - intros prior Hprior. split.
    + intros Hcreated. unfold note. rewrite saveNote_created, Hprior. simpl.
      by destruct (Z.eqb_spec (Note.created prior) 0).
    + done.
  - intros Hnone. unfold note, saveNote. simpl. by rewrite Hnone.
Qed.
End Writes.

Lemma saveNote_created_truthy_witness :
  let kv := snd (@saveNote TextOnly.marked TextOnly.sanitizer ∅ 0 "a" "t" "c") in
  let existing := fst (@saveNote TextOnly.marked TextOnly.sanitizer ∅ 0 "a" "t" "c") in
  getNote kv 5 "a" = Some existing /\
  ((Note.created existing = 0 ->
      Note.created (fst (@saveNote TextOnly.marked TextOnly.sanitizer kv 5 "a" "t2" "c2")) = 5) /\
   (Note.created existing <> 0 ->
      Note.created (fst (@saveNote TextOnly.marked TextOnly.sanitizer kv 5 "a" "t2" "c2"))
      = Note.created existing)).
Proof.
  split; [reflexivity|].
  apply (@saveNote_created_truthy TextOnly.marked TextOnly.sanitizer
           (snd (@saveNote TextOnly.marked TextOnly.sanitizer ∅ 0 "a" "t" "c"))
           5 "a" "t2" "c2").
  reflexivity.
Defined.

(** C3 fails on the code: a note whose [created] is 0, as one written
    when the clock read 0, loses it on the next write under its id,
    which moves [created] to the time of that write; the fallback
    [existing?.created || now], meant for a missing record, also takes
    a present [created] of 0. *)
Lemma saveNote_update_changes_created :
  ~ (forall (kv : KVNamespace) (now : Z) (id t c : string) (prior note : Note.t),
       getNote kv now id = Some prior ->
       getNote (snd (@saveNote TextOnly.marked TextOnly.sanitizer kv now id t c)) now id
       = Some note ->
       Note.title note = t /\ Note.content note = c /\
       Note.created note = Note.created prior /\
       Note.updated prior <= Note.updated note).
Proof.
  intros Hclaim.
  pose (kv := snd (@saveNote TextOnly.marked TextOnly.sanitizer ∅ 0 "a" "t" "c")).
  destruct (Hclaim kv 5 "a" "t2" "c2"
              (fst (@saveNote TextOnly.marked TextOnly.sanitizer ∅ 0 "a" "t" "c"))
              (fst (@saveNote TextOnly.marked TextOnly.sanitizer kv 5 "a" "t2" "c2"))
              eq_refl eq_refl)
    as (_ & _ & Hcreated & _).
  vm_compute in Hcreated. discriminate.
Qed.

Lemma saveNote_getNote_roundtrip_witness :
  let kv := TextOnly.three_notes in
  let note := fst (@saveNote TextOnly.marked TextOnly.sanitizer kv 400 "B" "t" "c") in
  getNote (snd (@saveNote TextOnly.marked TextOnly.sanitizer kv 400 "B" "t" "c")) 500 "B"
  = Some note /\
  Note.title note = "t" /\ Note.content note = "c" /\
  Note.created note = 200 /\ 200 <= Note.updated note.
Proof.
  intros kv note.
  destruct (@saveNote_getNote_roundtrip TextOnly.marked TextOnly.sanitizer
              kv 400 500 "B" "t" "c")
    as (Hget & _ & Htitle & Hcontent & _ & Hprior & _).
  destruct (Hprior (Note.mk "B" "second" "two" "&lt;p&gt;two&lt;/p&gt;" 200 200) eq_refl) as [Hc Hu].
  split; [exact Hget|]. split; [exact Htitle|]. split; [exact Hcontent|].
  split; [apply Hc; discriminate|apply Hu; discriminate].
Defined.

(** ** Deleting *)

(** C8: [deleteNote] answers [true] exactly when a record existed
    under the id, a live entry of the namespace that holds a note, and
    then the namespace it leaves is the one before without that key; in
    every other case it answers [false] and leaves the namespace as it
    was; in both cases a later [getNote] of that id finds nothing. *)
Theorem deleteNote_removes (kv : KVNamespace) (now now' : Z) (id : string) :
  now <= now' ->
  (fst (deleteNote kv now id) = true <->
     exists e n, kv !! note_key id = Some e /\ kv_live now e = true /\
                 kv_value e = VJson n) /\
  (fst (deleteNote kv now id) = true ->
     snd (deleteNote kv now id) = delete (note_key id) kv) /\
  (fst (deleteNote kv now id) = false -> snd (deleteNote kv now id) = kv) /\
  (fst (deleteNote kv now id) = true <-> is_Some (getNote kv now id)) /\
  (fst (deleteNote kv now id) = true ->
     is_Some (kv !! note_key id) /\ snd (deleteNote kv now id) !! note_key id = None) /\
  (getNote kv now id = None -> deleteNote kv now id = (false, kv)) /\
  getNote (snd (deleteNote kv now id)) now' id = None.
Proof.
  intros Hle.
  assert (is_Some (getNote kv now id) <->
          exists e n, kv !! note_key id = Some e /\ kv_live now e = true /\
                      kv_value e = VJson n) as Hexists.
  { unfold getNote, kv_get. split.
    - intros [n Hn]. destruct (kv !! note_key id) as [e|]; [|done].
      destruct (kv_live now e) eqn:Hlive; [|done].
      destruct (kv_value e) as [s|n'] eqn:Hvalue; [done|]. by exists e, n'.
    - intros (e & n & -> & -> & Hvalue). rewrite Hvalue. by eexists. }
  assert (fst (deleteNote kv now id) = true <-> is_Some (getNote kv now id)) as Htrue.
  { unfold deleteNote. destruct (getNote kv now id); simpl; split; try done; by eexists. }
  split; [by rewrite Htrue|].
  split; [unfold deleteNote; by destruct (getNote kv now id)|].
  split; [unfold deleteNote; by destruct (getNote kv now id)|].
  split; [exact Htrue|].
  split.
  - intros Hsome%Htrue. pose proof Hsome as (e & n & Hlook & _)%Hexists.
    split; [by eexists|].
    destruct Hsome as [n' Hn']. unfold deleteNote. rewrite Hn'. apply lookup_delete_eq.
  - split; [unfold deleteNote; by intros ->|by apply getNote_deleteNote].
Qed.

(** On the three notes: deleting [B] answers [true] and removes its
    key, after which [B] cannot be fetched; deleting an id that was
    never written answers [false] and changes nothing. *)
Lemma deleteNote_removes_witness :
  deleteNote TextOnly.three_notes 400 "B"
  = (true, delete (note_key "B") TextOnly.three_notes) /\
  snd (deleteNote TextOnly.three_notes 400 "B") !! note_key "B" = None /\
  getNote (snd (deleteNote TextOnly.three_notes 400 "B")) 500 "B" = None /\
  deleteNote TextOnly.three_notes 400 "Z" = (false, TextOnly.three_notes).
Proof.
  destruct (deleteNote_removes TextOnly.three_notes 400 500 "B")
    as (Hexists & Hremoved & _ & _ & Hgone & _ & Hget); [lia|].
  destruct (deleteNote_removes TextOnly.three_notes 400 500 "Z")
    as (_ & _ & _ & _ & _ & Hnone & _); [lia|].
  assert (fst (deleteNote TextOnly.three_notes 400 "B") = true) as Hfst.
  { apply Hexists.
    exists (mkEntry (VJson (Note.mk "B" "second" "two" "&lt;p&gt;two&lt;/p&gt;" 200 200))
              (Some (NoteMeta.mk "B" "second" 200 200)) None).
    eexists. repeat split; reflexivity. }
  split; [|split; [by apply Hgone|split; [exact Hget|by apply Hnone]]].
  rewrite (surjective_pairing (deleteNote TextOnly.three_notes 400 "B")).
  by rewrite Hfst, (Hremoved Hfst).
Defined.

(** ** Ordering and navigation *)

(** C5: [getAllNotes] is sorted by [created], newest first: of two
    adjacent elements the earlier one was created no earlier than the
    later one. *)
Theorem getAllNotes_sorted (kv : KVNamespace) (now : Z) (i : nat) (a b : NoteMeta.t) :
  getAllNotes kv now !! i = Some a ->
  getAllNotes kv now !! S i = Some b ->
  NoteMeta.created a >= NoteMeta.created b.
Proof.
  intros Ha Hb.
  assert (Sorted (fun u v => (NoteMeta.created v - NoteMeta.created u <=? 0) = true)
            (getAllNotes kv now)) as Hsorted.
  { unfold getAllNotes, js_sort.
    apply (stable_sort_Sorted
             (fun u v => NoteMeta.created v - NoteMeta.created u <=? 0)).
    intros u v Huv. apply Z.leb_gt in Huv. apply Z.leb_le. lia. }
  pose proof (Sorted_adjacent _ _ i a b Hsorted Ha Hb) as Hab. simpl in Hab.
  apply Z.leb_le in Hab. lia.
Qed.

Lemma getAllNotes_sorted_witness :
  getAllNotes TextOnly.three_notes 500 !! 0%nat = Some (NoteMeta.mk "C" "third" 300 300) /\
  getAllNotes TextOnly.three_notes 500 !! 1%nat = Some (NoteMeta.mk "B" "second" 200 200) /\
  300 >= 200.
Proof.
  split; [reflexivity|]. split; [reflexivity|].
  apply (getAllNotes_sorted TextOnly.three_notes 500 0
           (NoteMeta.mk "C" "third" 300 300) (NoteMeta.mk "B" "second" 200 200));
    reflexivity.
Defined.

Lemma js_index_lookup {A} (l : list A) (i : Z) (x : A) :
  js_index l i = Some x <-> 0 <= i /\ l !! Z.to_nat i = Some x.
Proof.
  unfold js_index. destruct (Z.ltb_spec i 0) as [Hneg|Hpos]; split.
  - done.
  - intros [Hi _]. lia.
  - intros Hl. split; [lia|done].
  - by intros [_ Hl].
Qed.

(** In a list with pairwise distinct ids, stepping one place down from
    [a] and one place up from [b] are inverse to each other. *)
Lemma adjacent_ids (l : list NoteMeta.t) (a b : string) :
  NoDup (NoteMeta.id <$> l) ->
  let ia := findIndex (fun n => String.eqb (NoteMeta.id n) a) l in
  let ib := findIndex (fun n => String.eqb (NoteMeta.id n) b) l in
  (0 <= ia /\ NoteMeta.id <$> js_index l (ia + 1) = Some b) <->
  (0 < ib /\ NoteMeta.id <$> js_index l (ib - 1) = Some a).
Proof.
  intros Hnd ia ib. split.
  - intros [Hia Hnext].
    destruct (js_index l (ia + 1)) as [mb|] eqn:Hmb; [|done].
    injection Hnext as <-.
    apply js_index_lookup in Hmb as [_ Hmb].
    assert (ib = ia + 1) as Hib.
    { unfold ib. rewrite (findIndex_NoDup NoteMeta.id l _ mb Hnd Hmb). lia. }
    split; [lia|].
    destruct (findIndex_lookup _ l Hia) as (ma & Hma & Hida).
    apply String.eqb_eq in Hida.
    replace (ib - 1) with ia by lia.
    unfold js_index. destruct (Z.ltb_spec ia 0); [lia|].
    fold ia in Hma. by rewrite Hma; simpl; rewrite Hida.
  - intros [Hib Hprev].
    destruct (js_index l (ib - 1)) as [ma|] eqn:Hma; [|done].
    injection Hprev as <-.
    apply js_index_lookup in Hma as [_ Hma].
    assert (ia = ib - 1) as Hia.
    { unfold ia. rewrite (findIndex_NoDup NoteMeta.id l _ ma Hnd Hma). lia. }
    split; [lia|].
    destruct (findIndex_lookup (fun n => String.eqb (NoteMeta.id n) b) l) as (mb & Hmb & Hidb);
      [fold ib; lia|].
    apply String.eqb_eq in Hidb. fold ib in Hmb.
    replace (ia + 1) with ib by lia.
    unfold js_index. destruct (Z.ltb_spec ib 0); [lia|].
    by rewrite Hmb; simpl; rewrite Hidb.
Qed.

Lemma getPreviousNoteId_Some kv now a b :
  getPreviousNoteId kv now a = Some b <->
  is_Some (getNote kv now a) /\
  0 <= findIndex (fun n => String.eqb (NoteMeta.id n) a) (getAllNotes kv now) /\
  NoteMeta.id <$>
    js_index (getAllNotes kv now)
      (findIndex (fun n => String.eqb (NoteMeta.id n) a) (getAllNotes kv now) + 1)
  = Some b.
Proof.
  unfold getPreviousNoteId.
  set (notes := getAllNotes kv now).
  set (i := findIndex _ notes).
  destruct (getNote kv now a) as [n|].
  2: { split; [done|]. by intros [[? ?] _]. }
  destruct (Z.leb_spec 0 i) as [Hi|Hi]; simpl.
  2: { split; [done|]. intros (_ & ? & _). lia. }
  destruct (Z.ltb_spec i (Z.of_nat (length notes) - 1)) as [Hlen|Hlen].
  - split; [by intros ->|by intros (_ & _ & ->)].
  - split; [done|]. intros (_ & _ & Hnext).
    destruct (js_index notes (i + 1)) as [m|] eqn:Hm; [|done].
    apply js_index_lookup in Hm as [_ Hm]. apply lookup_lt_Some in Hm. lia.
Qed.

Lemma getNextNoteId_Some kv now b a :
  getNextNoteId kv now b = Some a <->
  is_Some (getNote kv now b) /\
  0 < findIndex (fun n => String.eqb (NoteMeta.id n) b) (getAllNotes kv now) /\
  NoteMeta.id <$>
    js_index (getAllNotes kv now)
      (findIndex (fun n => String.eqb (NoteMeta.id n) b) (getAllNotes kv now) - 1)
  = Some a.
Proof.
  unfold getNextNoteId.
  set (notes := getAllNotes kv now).
  set (i := findIndex _ notes).
  destruct (getNote kv now b) as [n|].
  2: { split; [done|]. by intros [[? ?] _]. }
  destruct (Z.ltb_spec 0 i) as [Hi|Hi].
  - split; [by intros ->|by intros (_ & _ & ->)].
  - split; [done|]. intros (_ & ? & _). lia.
Qed.

Lemma js_index_listed kv now i id :
  store_wf kv ->
  NoteMeta.id <$> js_index (getAllNotes kv now) i = Some id ->
  is_Some (getNote kv now id).
Proof.
  intros Hwf Hid.
  destruct (js_index (getAllNotes kv now) i) as [m|] eqn:Hm; [|done].
  injection Hid as <-. apply js_index_lookup in Hm as [_ Hm].
  apply (getAllNotes_getNote kv now m Hwf).
  by apply list_elem_of_lookup_2 in Hm.
Qed.

(** C4: on a namespace whose note keys satisfy the invariant (every
    namespace the worker produces does), [getPreviousNoteId] and
    [getNextNoteId] are inverse to each other: the previous note of [a]
    is [b] exactly when the next note of [b] is [a]; and both answer
    nothing for an id whose note cannot be fetched. *)
Theorem previous_next_inverse (kv : KVNamespace) (now : Z) (a b : string) :
  store_wf kv ->
  (getPreviousNoteId kv now a = Some b <-> getNextNoteId kv now b = Some a) /\
  (getNote kv now a = None ->
     getPreviousNoteId kv now a = None /\ getNextNoteId kv now a = None).
Proof.
  intros Hwf. split.
  - rewrite getPreviousNoteId_Some, getNextNoteId_Some.
    pose proof (adjacent_ids (getAllNotes kv now) a b
                  (getAllNotes_ids_NoDup kv now Hwf)) as Hadj.
    simpl in Hadj. split.
    + intros (Ha & Hi & Hnext).
      destruct Hadj as [Hadj _]. destruct (Hadj (conj Hi Hnext)) as [Hj Hprev].
      split; [by eapply js_index_listed|done].
    + intros (Hb & Hj & Hprev).
      destruct Hadj as [_ Hadj]. destruct (Hadj (conj Hj Hprev)) as [Hi Hnext].
      split; [by eapply js_index_listed|done].
  - intros Hnone. unfold getPreviousNoteId, getNextNoteId. by rewrite Hnone.
Qed.

Lemma previous_next_inverse_witness :
  store_wf TextOnly.three_notes /\
  (getPreviousNoteId TextOnly.three_notes 500 "C" = Some "B"
   <-> getNextNoteId TextOnly.three_notes 500 "B" = Some "C") /\
  (getNote TextOnly.three_notes 500 "C" = None ->
     getPreviousNoteId TextOnly.three_notes 500 "C" = None /\
     getNextNoteId TextOnly.three_notes 500 "C" = None).
Proof.
  assert (store_wf TextOnly.three_notes) as Hwf.
  { unfold TextOnly.three_notes.
    repeat apply store_wf_saveNote. apply store_wf_empty. }
  split; [exact Hwf|].
  apply (previous_next_inverse TextOnly.three_notes 500 "C" "B" Hwf).
Defined.

(** ** Credential comparison *)

Lemma xor_loop_zero (a b : list Z) (steps i : nat) (result : Z) :
  xor_loop a b steps i result = 0 <->
  result = 0 /\ forall j, (j < steps)%nat -> u8_at a (i + j) = u8_at b (i + j).
Proof.
  revert i result. induction steps as [|k IH]; intros i result; simpl.
  - split; [intros ->; split; [done|lia]|by intros [-> _]].
  - rewrite IH, Z.lor_eq_0_iff, Z.lxor_eq_0_iff. split.
    + intros [[-> Hi] Hrest]. split; [done|].
      intros [|j] Hj; [by rewrite Nat.add_0_r|].
      rewrite <- Nat.add_succ_comm. apply Hrest. lia.
    + intros [-> Hall]. split; [split; [done|]|].
      * rewrite <- (Nat.add_0_r i). apply Hall. lia.
      * intros j Hj. rewrite Nat.add_succ_comm. apply Hall. lia.
Qed.

Lemma u8_at_ext (a b : list Z) :
  length a = length b ->
  (forall j, (j < length a)%nat -> u8_at a j = u8_at b j) -> a = b.
Proof.
  intros Hlen Hall. apply list_eq_same_length with (length a); [done|done|].
  intros j x y Hj Hx Hy. specialize (Hall j Hj). unfold u8_at in Hall.
  rewrite Hx, Hy in Hall. by simpl in Hall.
Qed.

Lemma TextEncoder_encode_inj (a b : string) :
  TextEncoder_encode a = TextEncoder_encode b -> a = b.
Proof.
  unfold TextEncoder_encode. intros Heq.
  rewrite <- (string_of_list_ascii_of_string a), <- (string_of_list_ascii_of_string b).
  f_equal. revert Heq. generalize (list_ascii_of_string b).
  induction (list_ascii_of_string a) as [|c l IH]; intros [|c' l']; simpl; try done.
  intros [= Hc Hl]. f_equal; [|by apply IH].
  apply N2Z.inj in Hc.
  by rewrite <- (ascii_N_embedding c), <- (ascii_N_embedding c'), Hc.
Qed.

Lemma TextEncoder_encode_length (a : string) :
  length (TextEncoder_encode a) = String.length a.
Proof.
  unfold TextEncoder_encode. rewrite length_map.
  induction a as [|c a IH]; simpl; congruence.
Qed.

(** C6: [secureCompare] decides equality of the encoded inputs: it is
    false whenever their byte lengths differ, for inputs of equal byte
    length it is true exactly when they agree byte for byte, and
    altogether it is true exactly when the two strings are equal. *)
Theorem secureCompare_decides_equality `{SubtleCrypto} (a b : string) :
  (length (TextEncoder_encode a) <> length (TextEncoder_encode b) ->
     secureCompare a b = false) /\
  (length (TextEncoder_encode a) = length (TextEncoder_encode b) ->
     (secureCompare a b = true <-> TextEncoder_encode a = TextEncoder_encode b)) /\
  (secureCompare a b = true <-> a = b).
Proof.
  assert (length (TextEncoder_encode a) = length (TextEncoder_encode b) ->
          (secureCompare a b = true <-> TextEncoder_encode a = TextEncoder_encode b))
    as Hequal.
  { intros Hlen. unfold secureCompare.
    rewrite (proj2 (Nat.eqb_eq _ _) Hlen). simpl.
    rewrite Z.eqb_eq, xor_loop_zero. split.
    - intros [_ Hall]. by apply u8_at_ext.
    - by intros ->. }
  assert (length (TextEncoder_encode a) <> length (TextEncoder_encode b) ->
          secureCompare a b = false) as Hdiffer.
  { intros Hlen. unfold secureCompare.
    by rewrite (proj2 (Nat.eqb_neq _ _) Hlen). }
  split; [done|]. split; [done|].
  destruct (decide (length (TextEncoder_encode a) = length (TextEncoder_encode b)))
    as [Hlen|Hlen].
  - rewrite (Hequal Hlen). split; [apply TextEncoder_encode_inj|by intros ->].
  - rewrite (Hdiffer Hlen). split; [done|]. by intros ->.
Qed.

Lemma secureCompare_decides_equality_witness :
  @secureCompare TextOnly.crypto "hunter2" "hunter22" = false /\
  (@secureCompare TextOnly.crypto "hunter2" "hunter3" = true <-> "hunter2" = "hunter3").
Proof.
  destruct (@secureCompare_decides_equality TextOnly.crypto "hunter2" "hunter22")
    as (Hdiffer & _ & _).
  destruct (@secureCompare_decides_equality TextOnly.crypto "hunter2" "hunter3")
    as (_ & _ & Hiff).
  split; [apply Hdiffer; vm_compute; discriminate|exact Hiff].
Defined.

(** ** Sessions *)

Lemma randomUUID_length rnd : String.length (randomUUID rnd) = 36%nat.
Proof. reflexivity. Qed.

Lemma randomUUID_truthy rnd : js_truthy_str (randomUUID rnd) = true.
Proof.
  pose proof (randomUUID_length rnd) as Hlen.
  by destruct (randomUUID rnd).
Qed.

(** C7: on every namespace, the token returned by [createSession]
    validates from the moment of issue until its 24 hours are over, and
    no token validates once [deleteSession] has revoked it. *)
Theorem session_roundtrip
    (kv : KVNamespace) (now now' : Z) (rnd : nat -> Z) (token : string) :
  (now <= now' < now + SESSION_TTL * 1000 ->
     validateSession (snd (createSession kv now rnd)) now'
       (fst (createSession kv now rnd)) = true) /\
  validateSession (deleteSession kv token) now' token = false /\
  validateSession
    (deleteSession (snd (createSession kv now rnd)) (fst (createSession kv now rnd)))
    now' (fst (createSession kv now rnd)) = false.
Proof.
  assert (forall kv0 t, validateSession (deleteSession kv0 t) now' t = false) as Hrevoke.
  { intros kv0 t. unfold validateSession, deleteSession.
    destruct (js_truthy_str t); [|done]. simpl.
    by rewrite kv_get_delete_eq. }
  split; [|by split].
  intros Hwindow. unfold createSession. cbn [fst snd].
  unfold validateSession. rewrite randomUUID_truthy. cbn [negb].
  unfold kv_get, kv_put. rewrite lookup_insert_eq.
  unfold kv_live. cbn [kv_expiration kv_value].
  destruct (Z.ltb_spec now' (now + SESSION_TTL * 1000)); [reflexivity|lia].
Qed.

Lemma session_roundtrip_witness :
  validateSession (snd (createSession ∅ 1000 (fun i => Z.of_nat i))) 2000
    (fst (createSession ∅ 1000 (fun i => Z.of_nat i))) = true.
Proof.
  apply (session_roundtrip ∅ 1000 2000 (fun i => Z.of_nat i) "").
  unfold SESSION_TTL. lia.
Defined.

(** ** The session cookie *)

(** Whatever single character precedes [session=], the search finds
    the text after it. *)
Lemma getSessionFromCookie_skips (x : ascii) (value : string) :
  js_truthy_str (not_semicolon_run value) = true ->
  getSessionFromCookie (Some (String x ("session=" +:+ value)))
  = Some (not_semicolon_run value).
Proof.
  intros Hvalue. simpl.
  change ("" +:+ value) with value. rewrite Hvalue.
  by destruct x as [[] [] [] [] [] [] [] []].
Qed.

(** C9: the search for [session=] is not anchored at a cookie name: a
    header whose only cookie is named [xsession] has no cookie named
    [session], yet the value of that cookie is returned. *)
Theorem getSessionFromCookie_unanchored :
  cookie_names "xsession=evil" = ["xsession"] /\
  ~ In "session" (cookie_names "xsession=evil") /\
  getSessionFromCookie (Some "xsession=evil") = Some "evil".
Proof.
  split; [reflexivity|]. split; [|reflexivity].
  simpl. intros [Heq|[]]. discriminate.
Qed.

(** * Properties of the rest of the worker *)

(** ** Escaping *)

Lemma string_app_assoc (a b c : string) : (a +:+ b) +:+ c = a +:+ (b +:+ c).
Proof.
  induction a as [|x a IH]; [done|].
  change (String x ((a +:+ b) +:+ c) = String x (a +:+ b +:+ c)). by rewrite IH.
Qed.

Lemma replace_all_app c by_ (a b : string) :
  replace_all c by_ (a +:+ b) = replace_all c by_ a +:+ replace_all c by_ b.
Proof.
  induction a as [|x a IH]; [done|].
  change (replace_all c by_ (String x a +:+ b))
    with ((if Ascii.eqb x c then by_ else String x "") +:+ replace_all c by_ (a +:+ b)).
  change (replace_all c by_ (String x a))
    with ((if Ascii.eqb x c then by_ else String x "") +:+ replace_all c by_ a).
  by rewrite IH, string_app_assoc.
Qed.

Lemma escapeHtml_app (a b : string) :
  escapeHtml (a +:+ b) = escapeHtml a +:+ escapeHtml b.
Proof. unfold escapeHtml. by rewrite !replace_all_app. Qed.

Lemma escapeHtml_char (c : ascii) : escapeHtml (String c "") = escape_char c.
Proof. by destruct c as [[] [] [] [] [] [] [] []]. Qed.

(** The five passes amount to one pass that rewrites each character. *)
Lemma escapeHtml_cons (c : ascii) (r : string) :
  escapeHtml (String c r) = escape_char c +:+ escapeHtml r.
Proof.
  change (String c r) with (String c "" +:+ r).
  by rewrite escapeHtml_app, escapeHtml_char.
Qed.

Lemma chars_app (a b : string) : chars (a +:+ b) = (chars a ++ chars b)%list.
Proof.
  unfold chars. induction a as [|x a IH]; [done|].
  change (x :: list_ascii_of_string (a +:+ b) = x :: (list_ascii_of_string a ++ list_ascii_of_string b)%list).
  by rewrite IH.
Qed.

Lemma escape_char_no_markup (c : ascii) :
  Forall (fun x => is_markup_char x = false) (chars (escape_char c)) /\
  forall r, html_scan InText (escape_char c +:+ r) = html_scan InText r.
Proof.
  unfold escape_char.
  destruct (Ascii.eqb c "&") eqn:Hamp.
  { split; [by repeat constructor|done]. }
  destruct (Ascii.eqb c "<") eqn:Hlt.
  { split; [by repeat constructor|done]. }
  destruct (Ascii.eqb c ">") eqn:Hgt.
  { split; [by repeat constructor|done]. }
  destruct (Ascii.eqb c double_quote) eqn:Hdq.
  { split; [by repeat constructor|done]. }
  destruct (Ascii.eqb c single_quote) eqn:Hsq.
  { split; [by repeat constructor|done]. }
  split.
  - constructor; [|constructor]. unfold is_markup_char. by rewrite Hlt, Hgt, Hdq, Hsq.
  - intros r. change (String c "" +:+ r) with (String c r). simpl. by rewrite Hlt.
Qed.

(** X1: the text [escapeHtml] returns contains no angle bracket and no
    quote of either kind, and read as HTML it opens no tag and carries
    no attribute, whatever the input. *)
Theorem escapeHtml_no_markup (str : string) :
  Forall (fun c => is_markup_char c = false) (chars (escapeHtml str)) /\
  html_scan InText (escapeHtml str) = [].
Proof.
  induction str as [|c r [IHchars IHscan]]; [by split; [constructor|]|].
  rewrite escapeHtml_cons.
  destruct (escape_char_no_markup c) as [Hchars Hscan]. split.
  - rewrite chars_app. by apply Forall_app.
  - by rewrite Hscan.
Qed.

Lemma escape_char_nonempty (c : ascii) (r : string) : escape_char c +:+ r <> "".
Proof.
  unfold escape_char.
  destruct (Ascii.eqb c "&"); [done|].
  destruct (Ascii.eqb c "<"); [done|].
  destruct (Ascii.eqb c ">"); [done|].
  destruct (Ascii.eqb c double_quote); [done|].
  destruct (Ascii.eqb c single_quote); done.
Qed.

(** X2: [escapeHtml] loses nothing: two texts with the same escaped
    form are the same text. *)
Theorem escapeHtml_inj (a b : string) : escapeHtml a = escapeHtml b -> a = b.
Proof.
  revert b. induction a as [|c a IH]; intros [|d b].
  - done.
  - rewrite escapeHtml_cons. intros Heq. symmetry in Heq.
    by apply escape_char_nonempty in Heq.
  - rewrite escapeHtml_cons. intros Heq. by apply escape_char_nonempty in Heq.
  - rewrite !escapeHtml_cons. unfold escape_char.
    destruct (Ascii.eqb_spec c "&") as [->|Hc1];
      [|destruct (Ascii.eqb_spec c "<") as [->|Hc2];
        [|destruct (Ascii.eqb_spec c ">") as [->|Hc3];
          [|destruct (Ascii.eqb_spec c double_quote) as [->|Hc4];
            [|destruct (Ascii.eqb_spec c single_quote) as [->|Hc5]]]]];
      (destruct (Ascii.eqb_spec d "&") as [->|Hd1];
       [|destruct (Ascii.eqb_spec d "<") as [->|Hd2];
         [|destruct (Ascii.eqb_spec d ">") as [->|Hd3];
           [|destruct (Ascii.eqb_spec d double_quote) as [->|Hd4];
             [|destruct (Ascii.eqb_spec d single_quote) as [->|Hd5]]]]]);
      simpl; intros Heq; try discriminate Heq;
      try (injection Heq as Heq; f_equal; by apply IH);
      try (injection Heq as <- Heq; congruence);
      try (injection Heq as -> Heq; congruence).
    injection Heq as -> Heq. f_equal. by apply IH.
Qed.

Lemma escapeHtml_inj_witness :
  escapeHtml "Q&A" = escapeHtml "Q&A" /\ "Q&A" = "Q&A".
Proof. split; [reflexivity|]. apply (escapeHtml_inj "Q&A" "Q&A"). reflexivity. Defined.

(** ** Listings depend on the listed keys only *)

Lemma StronglySorted_filter {A} (R : relation A) (P : A -> Prop)
    `{!forall x, Decision (P x)} (l : list A) :
  StronglySorted R l -> StronglySorted R (filter P l).
Proof.
  induction 1 as [|x l Hl IH Hx]; [constructor|].
  rewrite filter_cons. destruct (decide (P x)); [|done].
  constructor; [done|].
  apply List.Forall_forall. intros y Hy%list_elem_of_In%list_elem_of_filter.
  rewrite List.Forall_forall in Hx. apply Hx, list_elem_of_In, Hy.
Qed.

Lemma string_leb_le (a b : string) : String.leb a b = true <-> String.le a b.
Proof. unfold String.le. by destruct (String.leb a b). Qed.

Lemma map_to_list_sorted (kv : KVNamespace) :
  StronglySorted key_le
    (stable_sort (fun a b => String.leb (fst a) (fst b)) (map_to_list kv)).
Proof.
  apply Sorted_StronglySorted.
  - intros a b c Hab Hbc. unfold key_le in *. rewrite string_leb_le in *.
    by etrans.
  - apply (stable_sort_Sorted (fun a b => String.leb (fst a) (fst b))).
    intros a b Hab.
    destruct (total String.le (fst a) (fst b)) as [Hle|Hle].
    + apply string_leb_le in Hle. congruence.
    + by apply string_leb_le.
Qed.

Lemma kv_list_ext (kv1 kv2 : KVNamespace) (now : Z) (pfx : string) :
  (forall key, String.prefix pfx key = true -> kv1 !! key = kv2 !! key) ->
  kv_list kv1 now pfx = kv_list kv2 now pfx.
Proof.
  intros Hsame. unfold kv_list. do 2 f_equal.
  set (P := fun ke : string * KVEntry =>
              String.prefix pfx (fst ke) && kv_live now (snd ke) = true).
  assert (forall kv x, x ∈ filter P
            (stable_sort (fun a b => String.leb (fst a) (fst b)) (map_to_list kv))
          <-> P x /\ (kv : KVNamespace) !! fst x = Some (snd x)) as Helem.
  { intros kv [k e]. rewrite list_elem_of_filter, stable_sort_Permutation.
    by rewrite elem_of_map_to_list. }
  assert (forall x, P x -> kv1 !! fst x = kv2 !! fst x) as HsameP.
  { intros x HP. apply Hsame. unfold P in HP. by apply andb_true_iff in HP as [? _]. }
  apply (StronglySorted_unique_strong key_le).
  - intros [k1 e1] [k2 e2] H1 H2 H12 H21.
    apply Helem in H1 as [HP1 H1]. apply Helem in H2 as [HP2 H2].
    unfold key_le in *. simpl in *. rewrite string_leb_le in *.
    assert (k1 = k2) as <- by (by apply (anti_symm String.le)).
    pose proof (HsameP _ HP1) as Heq. simpl in Heq. congruence.
  - apply StronglySorted_filter, map_to_list_sorted.
  - apply StronglySorted_filter, map_to_list_sorted.
  - apply NoDup_Permutation.
    + apply NoDup_filter. rewrite stable_sort_Permutation. apply NoDup_map_to_list.
    + apply NoDup_filter. rewrite stable_sort_Permutation. apply NoDup_map_to_list.
    + intros x. rewrite !Helem. split; intros [HP Hx]; (split; [done|]).
      * by rewrite <- (HsameP _ HP).
      * by rewrite (HsameP _ HP).
Qed.

Lemma getAllNotes_ext (kv1 kv2 : KVNamespace) (now : Z) :
  (forall key, String.prefix "note:" key = true -> kv1 !! key = kv2 !! key) ->
  getAllNotes kv1 now = getAllNotes kv2 now.
Proof. intros Hsame. unfold getAllNotes. by rewrite (kv_list_ext kv1 kv2). Qed.

Lemma getNote_ext (kv1 kv2 : KVNamespace) (now : Z) (id : string) :
  (forall key, String.prefix "note:" key = true -> kv1 !! key = kv2 !! key) ->
  getNote kv1 now id = getNote kv2 now id.
Proof.
  intros Hsame. unfold getNote, kv_get.
  by rewrite (Hsame _ (note_key_prefix id)).
Qed.

Lemma validateSession_ext (kv1 kv2 : KVNamespace) (now : Z) (token : string) :
  kv1 !! (SESSION_PREFIX +:+ token) = kv2 !! (SESSION_PREFIX +:+ token) ->
  validateSession kv1 now token = validateSession kv2 now token.
Proof. intros Hsame. unfold validateSession, kv_get. by rewrite Hsame. Qed.

Lemma note_key_not_session (id token : string) :
  note_key id <> SESSION_PREFIX +:+ token.
Proof. done. Qed.

Lemma prefix_note_neq (key key' : string) :
  String.prefix "note:" key = true -> String.prefix "note:" key' = false -> key <> key'.
Proof. intros Hk Hk' ->. congruence. Qed.

(** ** The session cookie, issued and read back *)

Lemma not_semicolon_run_app (token rest : string) :
  no_semicolon token = true ->
  not_semicolon_run (token +:+ String ";" rest) = token /\
  not_semicolon_run token = token.
Proof.
  unfold no_semicolon. induction token as [|c r IH]; [done|].
  change (list_ascii_of_string (String c r)) with (c :: list_ascii_of_string r).
  change (String c r +:+ String ";" rest) with (String c (r +:+ String ";" rest)).
  simpl. intros [Hc Hr]%andb_true_iff. apply negb_true_iff in Hc. rewrite Hc.
  destruct (IH Hr) as [-> ->]. done.
Qed.

Lemma match_session_here (value : string) :
  js_truthy_str (not_semicolon_run value) = true ->
  getSessionFromCookie (Some ("session=" +:+ value)) = Some (not_semicolon_run value).
Proof.
  intros Hvalue. simpl. change ("" +:+ value) with value. by rewrite Hvalue.
Qed.

(** X3: a token that is not empty and has no semicolon comes back from
    the cookie made for it: from the [Set-Cookie] text of
    [createSessionCookie], from the [Cookie] header [session=token],
    and from that header followed by further cookies. *)
Theorem session_cookie_roundtrip (token others : string) :
  js_truthy_str token = true ->
  no_semicolon token = true ->
  getSessionFromCookie (Some (createSessionCookie token)) = Some token /\
  getSessionFromCookie (Some ("session=" +:+ token)) = Some token /\
  getSessionFromCookie (Some ("session=" +:+ token +:+ "; " +:+ others)) = Some token.
Proof.
  intros Htoken Hsemi.
  destruct (not_semicolon_run_app token
              (" HttpOnly; Secure; SameSite=Strict; Path=/; Max-Age=" +:+
               Number_toString SESSION_TTL) Hsemi) as [Hset Hplain].
  destruct (not_semicolon_run_app token (" " +:+ others) Hsemi) as [Hmore _].
  repeat split.
  - unfold createSessionCookie.
    change ("; HttpOnly; Secure; SameSite=Strict; Path=/; Max-Age=" +:+
            Number_toString SESSION_TTL)
      with (String ";" (" HttpOnly; Secure; SameSite=Strict; Path=/; Max-Age=" +:+
                        Number_toString SESSION_TTL)).
    rewrite match_session_here; rewrite Hset; done.
  - rewrite match_session_here; rewrite Hplain; done.
  - change ("; " +:+ others) with (String ";" (" " +:+ others)).
    rewrite match_session_here; rewrite Hmore; done.
Qed.

Lemma session_cookie_roundtrip_witness :
  getSessionFromCookie (Some (createSessionCookie "3f2a-77")) = Some "3f2a-77" /\
  getSessionFromCookie (Some "session=3f2a-77") = Some "3f2a-77" /\
  getSessionFromCookie (Some "session=3f2a-77; theme=dark") = Some "3f2a-77".
Proof. apply (session_cookie_roundtrip "3f2a-77" "theme=dark"); reflexivity. Defined.

Lemma hex_digit_not_semicolon (n : Z) : Ascii.eqb (hex_digit n) ";" = false.
Proof.
  unfold hex_digit. generalize (Z.to_nat n). intros k.
  do 16 (destruct k as [|k]; [reflexivity|]).
  simpl. by destruct k.
Qed.

Lemma no_semicolon_app (a b : string) :
  no_semicolon (a +:+ b) = no_semicolon a && no_semicolon b.
Proof.
  unfold no_semicolon. fold (chars (a +:+ b)) (chars a) (chars b).
  by rewrite chars_app, forallb_app.
Qed.

Lemma hex_bytes_no_semicolon (bs : list Z) : no_semicolon (hex_bytes bs) = true.
Proof.
  induction bs as [|b bs IH]; [done|].
  change (hex_bytes (b :: bs)) with (hex_byte b +:+ hex_bytes bs).
  rewrite no_semicolon_app, IH, andb_true_r.
  unfold no_semicolon, hex_byte. simpl. by rewrite !hex_digit_not_semicolon.
Qed.

Lemma randomUUID_no_semicolon (rnd : nat -> Z) : no_semicolon (randomUUID rnd) = true.
Proof.
  unfold randomUUID. by rewrite !no_semicolon_app, !hex_bytes_no_semicolon.
Qed.

(** X4: the cookie of a session just created passes [requireAuth] from
    the moment of issue until 24 hours later, and is sent to the login
    page from then on. *)
Theorem issued_cookie_authenticates
    (kv : KVNamespace) (now now' : Z) (rnd : nat -> Z) :
  let token := fst (createSession kv now rnd) in
  let kv' := snd (createSession kv now rnd) in
  (now <= now' < now + SESSION_TTL * 1000 ->
     requireAuth kv' now' (Some ("session=" +:+ token)) = false) /\
  (now + SESSION_TTL * 1000 <= now' ->
     requireAuth kv' now' (Some ("session=" +:+ token)) = true).
Proof.
  intros token kv'.
  assert (getSessionFromCookie (Some ("session=" +:+ token)) = Some token) as Hcookie.
  { rewrite match_session_here;
      rewrite (proj2 (not_semicolon_run_app token "" (randomUUID_no_semicolon rnd)));
      [done|apply randomUUID_truthy]. }
  unfold requireAuth. rewrite Hcookie.
  unfold token, kv', createSession. cbn [fst snd].
  rewrite randomUUID_truthy. cbn [negb orb].
  unfold validateSession. rewrite randomUUID_truthy. cbn [negb].
  unfold kv_get, kv_put. rewrite lookup_insert_eq.
  unfold kv_live. cbn [kv_expiration kv_value].
  split; intros Hwindow.
  - destruct (Z.ltb_spec now' (now + SESSION_TTL * 1000)); [reflexivity|lia].
  - destruct (Z.ltb_spec now' (now + SESSION_TTL * 1000)); [lia|reflexivity].
Qed.

Lemma issued_cookie_authenticates_witness :
  requireAuth (snd (createSession ∅ 1000 (fun i => Z.of_nat i))) 5000
    (Some ("session=" +:+ fst (createSession ∅ 1000 (fun i => Z.of_nat i)))) = false /\
  requireAuth (snd (createSession ∅ 1000 (fun i => Z.of_nat i))) 86401000
    (Some ("session=" +:+ fst (createSession ∅ 1000 (fun i => Z.of_nat i)))) = true.
Proof.
  split.
  - apply (issued_cookie_authenticates ∅ 1000 5000 (fun i => Z.of_nat i)).
    unfold SESSION_TTL. lia.
  - apply (issued_cookie_authenticates ∅ 1000 86401000 (fun i => Z.of_nat i)).
    unfold SESSION_TTL. lia.
Defined.

(** ** Keys of different kinds do not interfere *)

Lemma session_key_inj (t1 t2 : string) :
  SESSION_PREFIX +:+ t1 = SESSION_PREFIX +:+ t2 -> t1 = t2.
Proof. apply (inj _). Qed.

Lemma lookup_deleteSession (kv : KVNamespace) (token key : string) :
  key <> SESSION_PREFIX +:+ token -> deleteSession kv token !! key = kv !! key.
Proof.
  intros Hne. unfold deleteSession, kv_delete.
  destruct (js_truthy_str token); [by rewrite lookup_delete_ne|done].
Qed.

Lemma lookup_createSession (kv : KVNamespace) (now : Z) (rnd : nat -> Z) (key : string) :
  key <> SESSION_PREFIX +:+ randomUUID rnd ->
  snd (createSession kv now rnd) !! key = kv !! key.
Proof. intros Hne. unfold createSession, kv_put. cbn [snd]. by rewrite lookup_insert_ne. Qed.

Lemma lookup_saveNote `{Marked} `{SanitizeHtml}
    (kv : KVNamespace) (now : Z) (id title content key : string) :
  key <> note_key id -> snd (saveNote kv now id title content) !! key = kv !! key.
Proof. intros Hne. unfold saveNote, kv_put. cbn [snd]. by rewrite lookup_insert_ne. Qed.

Lemma lookup_deleteNote (kv : KVNamespace) (now : Z) (id key : string) :
  key <> note_key id -> snd (deleteNote kv now id) !! key = kv !! key.
Proof.
  intros Hne. unfold deleteNote, kv_delete.
  destruct (getNote kv now id); cbn [snd]; [by rewrite lookup_delete_ne|done].
Qed.

(** X5: revoking or issuing one session leaves every other token as
    valid or invalid as it was. *)
Theorem sessions_independent
    (kv : KVNamespace) (now now0 : Z) (rnd : nat -> Z) (token other : string) :
  other <> token ->
  other <> fst (createSession kv now0 rnd) ->
  validateSession (deleteSession kv token) now other = validateSession kv now other /\
  validateSession (snd (createSession kv now0 rnd)) now other = validateSession kv now other.
Proof.
  intros Hrevoked Hissued. split; apply validateSession_ext.
  - apply lookup_deleteSession. by intros ?%session_key_inj.
  - apply lookup_createSession. by intros ?%session_key_inj.
Qed.

Lemma sessions_independent_witness :
  let issued := createSession ∅ 1000 (fun i => Z.of_nat i) in
  let other := createSession (snd issued) 2000 (fun i => Z.of_nat i + 7) in
  validateSession (deleteSession (snd other) (fst other)) 3000 (fst issued)
  = validateSession (snd other) 3000 (fst issued) /\
  validateSession (snd (createSession (snd other) 2500 (fun _ => 9))) 3000 (fst issued)
  = validateSession (snd other) 3000 (fst issued).
Proof.
  intros issued other.
  apply (sessions_independent (snd other) 3000 2500 (fun _ => 9) (fst other) (fst issued));
    vm_compute; discriminate.
Defined.

(** X6: notes and sessions live apart: issuing or revoking a session
    changes neither what [getNote] returns nor what [getAllNotes] lists,
    and saving or deleting a note changes the validity of no token. *)
Theorem notes_and_sessions_apart `{Marked} `{SanitizeHtml}
    (kv : KVNamespace) (now now0 : Z) (rnd : nat -> Z)
    (token id title content : string) :
  getNote (snd (createSession kv now0 rnd)) now id = getNote kv now id /\
  getAllNotes (snd (createSession kv now0 rnd)) now = getAllNotes kv now /\
  getNote (deleteSession kv token) now id = getNote kv now id /\
  getAllNotes (deleteSession kv token) now = getAllNotes kv now /\
  validateSession (snd (saveNote kv now0 id title content)) now token
  = validateSession kv now token /\
  validateSession (snd (deleteNote kv now0 id)) now token = validateSession kv now token.
Proof.
  assert (forall key, String.prefix "note:" key = true ->
            snd (createSession kv now0 rnd) !! key = kv !! key) as Hissue.
  { intros key Hkey. apply lookup_createSession.
    apply (prefix_note_neq _ _ Hkey). apply session_key_not_note. }
  assert (forall key, String.prefix "note:" key = true ->
            deleteSession kv token !! key = kv !! key) as Hrevoke.
  { intros key Hkey. apply lookup_deleteSession.
    apply (prefix_note_neq _ _ Hkey). apply session_key_not_note. }
  repeat split.
  - by apply getNote_ext.
  - by apply getAllNotes_ext.
  - by apply getNote_ext.
  - by apply getAllNotes_ext.
  - apply validateSession_ext, lookup_saveNote. intros Heq. symmetry in Heq.
    by apply note_key_not_session in Heq.
  - apply validateSession_ext, lookup_deleteNote. intros Heq. symmetry in Heq.
    by apply note_key_not_session in Heq.
Qed.

(** X7: saving or deleting the note of one id leaves the note of every
    other id as it was. *)
Theorem other_notes_untouched `{Marked} `{SanitizeHtml}
    (kv : KVNamespace) (now now0 : Z) (id other title content : string) :
  other <> id ->
  getNote (snd (saveNote kv now0 id title content)) now other = getNote kv now other /\
  getNote (snd (deleteNote kv now0 id)) now other = getNote kv now other.
Proof.
  intros Hne. unfold getNote, kv_get.
  rewrite lookup_saveNote, lookup_deleteNote; [done| |];
    intros Heq%note_key_inj; done.
Qed.

Lemma other_notes_untouched_witness :
  getNote (snd (@saveNote TextOnly.marked TextOnly.sanitizer
                  TextOnly.three_notes 400 "B" "t" "c")) 500 "A"
  = getNote TextOnly.three_notes 500 "A" /\
  getNote (snd (deleteNote TextOnly.three_notes 400 "B")) 500 "A"
  = getNote TextOnly.three_notes 500 "A".
Proof.
  apply (@other_notes_untouched TextOnly.marked TextOnly.sanitizer
           TextOnly.three_notes 500 400 "B" "A" "t" "c").
  discriminate.
Defined.

(** ** Notes and their metadata stay in step *)

Lemma store_synced_wf (kv : KVNamespace) : store_synced kv -> store_wf kv.
Proof.
  intros Hs key e Hlook Hpfx. destruct (Hs key e Hlook Hpfx) as (n & Hv & Hm & Hk).
  split; [by exists n|]. intros m Hmeta. rewrite Hm in Hmeta. by injection Hmeta as <-.
Qed.

Lemma store_synced_insert_other (kv : KVNamespace) (key : string) (e : KVEntry) :
  String.prefix "note:" key = false -> store_synced kv -> store_synced (<[key := e]> kv).
Proof.
  intros Hkey Hs key' e' Hlook Hpfx.
  rewrite lookup_insert_ne in Hlook by (intros ->; congruence). by apply Hs.
Qed.

Lemma store_synced_delete (kv : KVNamespace) (key : string) :
  store_synced kv -> store_synced (delete key kv).
Proof.
  intros Hs key' e Hlook. apply lookup_delete_Some in Hlook as [_ Hlook]. by apply Hs.
Qed.

Lemma store_synced_saveNote `{Marked} `{SanitizeHtml}
    (kv : KVNamespace) (now : Z) (id title content : string) :
  store_synced kv -> store_synced (snd (saveNote kv now id title content)).
Proof.
  intros Hs key e. unfold saveNote, kv_put. cbn [snd].
  destruct (decide (note_key id = key)) as [<-|Hne].
  - rewrite lookup_insert_eq. intros [= <-] _. by eexists.
  - rewrite lookup_insert_ne by done. apply Hs.
Qed.

Lemma store_synced_deleteNote (kv : KVNamespace) (now : Z) (id : string) :
  store_synced kv -> store_synced (snd (deleteNote kv now id)).
Proof.
  intros Hs. unfold deleteNote.
  destruct (getNote kv now id); cbn [snd]; [by apply store_synced_delete|done].
Qed.

Lemma store_synced_createSession (kv : KVNamespace) (now : Z) (rnd : nat -> Z) :
  store_synced kv -> store_synced (snd (createSession kv now rnd)).
Proof. intros Hs. by apply store_synced_insert_other. Qed.

Lemma store_synced_deleteSession (kv : KVNamespace) (token : string) :
  store_synced kv -> store_synced (deleteSession kv token).
Proof.
  intros Hs. unfold deleteSession.
  destruct (js_truthy_str token); [by apply store_synced_delete|done].
Qed.

Lemma store_synced_empty : store_synced ∅.
Proof. intros key e Hlook. by rewrite lookup_empty in Hlook. Qed.

Lemma reachable_store_synced `{Marked} `{SanitizeHtml} (kv : KVNamespace) :
  reachable kv -> store_synced kv.
Proof.
  induction 1;
    eauto using store_synced_empty, store_synced_saveNote, store_synced_deleteNote,
                store_synced_createSession, store_synced_deleteSession.
Qed.

(** Under the invariant a listed entry is the metadata of the note
    that can be fetched under its id. *)
Lemma getAllNotes_synced (kv : KVNamespace) (now : Z) (m : NoteMeta.t) :
  store_synced kv -> m ∈ getAllNotes kv now ->
  exists n, getNote kv now (NoteMeta.id m) = Some n /\ m = meta_of n.
Proof.
  intros Hs Hin.
  apply getAllNotes_elem in Hin as (key & e & Hlook & Hmeta & Hpfx & Hlive).
  destruct (Hs key e Hlook Hpfx) as (n & Hv & Hm & ->).
  rewrite Hm in Hmeta. injection Hmeta as <-. exists n. split; [|done].
  unfold getNote, kv_get. simpl. by rewrite Hlook, Hlive, Hv.
Qed.

Lemma Sorted_weaken {A} (R R' : A -> A -> Prop) (l : list A) :
  (forall a b, R a b -> R' a b) -> Sorted R l -> Sorted R' l.
Proof.
  intros Himp. induction 1 as [|x l Hl IH Hhd]; constructor; [done|].
  destruct Hhd; constructor. by apply Himp.
Qed.

Lemma getAllNotes_StronglySorted (kv : KVNamespace) (now : Z) :
  StronglySorted (fun a b => NoteMeta.created b <= NoteMeta.created a)
    (getAllNotes kv now).
Proof.
  apply Sorted_StronglySorted; [intros a b c; lia|].
  unfold getAllNotes, js_sort.
  eapply Sorted_weaken;
    [|apply (stable_sort_Sorted
               (fun u v => NoteMeta.created v - NoteMeta.created u <=? 0))].
  - intros a b Hab. apply Z.leb_le in Hab. lia.
  - intros u v Huv. apply Z.leb_gt in Huv. apply Z.leb_le. lia.
Qed.

(** X8: on a namespace in step, [getLatestNote] returns the note listed
    first, which no listed note was created after; it returns nothing
    only when nothing is listed. *)
Theorem getLatestNote_newest (kv : KVNamespace) (now : Z) :
  store_synced kv ->
  match getLatestNote kv now with
  | Some n =>
      (exists rest, getAllNotes kv now = meta_of n :: rest) /\
      (forall m, m ∈ getAllNotes kv now -> NoteMeta.created m <= Note.created n)
  | None => getAllNotes kv now = []
  end.
Proof.
  intros Hs. unfold getLatestNote.
  pose proof (getAllNotes_StronglySorted kv now) as Hsorted.
  destruct (getAllNotes kv now) as [|first rest] eqn:Hall; [done|].
  destruct (getAllNotes_synced kv now first Hs) as (n & Hget & ->).
  { rewrite Hall. by left. }
  rewrite Hget. split; [by exists rest|].
  intros m Hm. apply StronglySorted_inv in Hsorted as [_ Hhd].
  apply elem_of_cons in Hm as [->|Hm]; [simpl; lia|].
  rewrite List.Forall_forall in Hhd. apply (Hhd m). by apply list_elem_of_In.
Qed.

Lemma getLatestNote_newest_witness :
  match getLatestNote TextOnly.three_notes 500 with
  | Some n =>
      (exists rest, getAllNotes TextOnly.three_notes 500 = meta_of n :: rest) /\
      (forall m, m ∈ getAllNotes TextOnly.three_notes 500 ->
                 NoteMeta.created m <= Note.created n)
  | None => getAllNotes TextOnly.three_notes 500 = []
  end.
Proof.
  apply (getLatestNote_newest TextOnly.three_notes 500).
  unfold TextOnly.three_notes.
  repeat apply store_synced_saveNote. apply store_synced_empty.
Defined.

(** ** What the listing shows after a write *)

Lemma kv_live_mono (now now' : Z) (e : KVEntry) :
  now <= now' -> kv_live now' e = true -> kv_live now e = true.
Proof.
  unfold kv_live. intros Hle. destruct (kv_expiration e) as [t|]; [|done].
  intros Hlive%Z.ltb_lt. apply Z.ltb_lt. lia.
Qed.

(** X9: once [deleteNote] has run on an id, no later listing shows
    that id, whether or not there was a note to delete. *)
Theorem deleted_note_not_listed (kv : KVNamespace) (now now' : Z) (id : string) :
  store_wf kv ->
  now <= now' ->
  ~ In id (map NoteMeta.id (getAllNotes (snd (deleteNote kv now id)) now')).
Proof.
  intros Hwf Hle Hin.
  apply in_map_iff in Hin as (m & Hid & Hin). apply list_elem_of_In in Hin.
  apply getAllNotes_elem in Hin as (key & e & Hlook & Hmeta & Hpfx & Hlive).
  pose proof (store_wf_deleteNote kv now id Hwf) as Hwf'.
  destruct (Hwf' key e Hlook Hpfx) as [[n Hn] Hkey].
  rewrite (Hkey m Hmeta), Hid in Hlook.
  unfold deleteNote in Hlook.
  destruct (getNote kv now id) as [n'|] eqn:Hget; cbn [snd] in Hlook.
  - unfold kv_delete in Hlook. by rewrite lookup_delete_eq in Hlook.
  - unfold getNote, kv_get in Hget. rewrite Hlook in Hget.
    rewrite (kv_live_mono now now' e Hle Hlive), Hn in Hget. done.
Qed.

Lemma deleted_note_not_listed_witness :
  ~ In "B" (map NoteMeta.id
              (getAllNotes (snd (deleteNote TextOnly.three_notes 400 "B")) 500)).
Proof.
  apply (deleted_note_not_listed TextOnly.three_notes 400 500 "B"); [|lia].
  unfold TextOnly.three_notes.
  repeat apply store_wf_saveNote. apply store_wf_empty.
Defined.

Lemma kv_list_complete (kv : KVNamespace) (now : Z) (pfx key : string) (e : KVEntry) :
  (size kv <= KV_LIST_LIMIT)%nat ->
  kv !! key = Some e -> String.prefix pfx key = true -> kv_live now e = true ->
  (key, kv_metadata e) ∈ kv_list kv now pfx.
Proof.
  intros Hsize Hlook Hpfx Hlive. unfold kv_list.
  rewrite take_ge.
  - change (map ?f ?l) with (f <$> l).
    apply (list_elem_of_fmap_2' _ _ (key, e)); [|done].
    apply list_elem_of_filter. split; [simpl; by rewrite Hpfx, Hlive|].
    rewrite stable_sort_Permutation. by apply elem_of_map_to_list.
  - rewrite length_map.
    etrans; [apply length_filter|].
    rewrite (Permutation_length (stable_sort_Permutation _ _)).
    by rewrite length_map_to_list.
Qed.

(** X10: while the namespace holds fewer keys than one [list] call
    returns, a note just saved is listed, with the metadata of the
    note returned; the listing reads one page only. *)
Theorem saved_note_listed `{Marked} `{SanitizeHtml}
    (kv : KVNamespace) (now now' : Z) (id title content : string) :
  (size kv < KV_LIST_LIMIT)%nat ->
  meta_of (fst (saveNote kv now id title content))
  ∈ getAllNotes (snd (saveNote kv now id title content)) now'.
Proof.
  intros Hsize. rewrite getAllNotes_Permutation.
  apply list_elem_of_omap.
  exists (note_key id, Some (meta_of (fst (saveNote kv now id title content)))).
  split; [|done].
  apply (kv_list_complete _ now' "note:" (note_key id)
           (mkEntry (VJson (fst (saveNote kv now id title content)))
              (Some (meta_of (fst (saveNote kv now id title content)))) None)).
  - unfold saveNote, kv_put. cbn [snd].
    destruct (kv !! note_key id) as [e|] eqn:Hold.
    + rewrite map_size_insert_Some by eauto. lia.
    + rewrite map_size_insert_None by done. lia.
  - unfold saveNote, kv_put. cbn [snd fst]. by rewrite lookup_insert_eq.
  - apply note_key_prefix.
  - done.
Qed.

Lemma saved_note_listed_witness :
  meta_of (fst (@saveNote TextOnly.marked TextOnly.sanitizer
                  TextOnly.three_notes 400 "D" "fourth" "four"))
  ∈ getAllNotes (snd (@saveNote TextOnly.marked TextOnly.sanitizer
                        TextOnly.three_notes 400 "D" "fourth" "four")) 500.
Proof.
  apply (@saved_note_listed TextOnly.marked TextOnly.sanitizer
           TextOnly.three_notes 400 500 "D" "fourth" "four").
  vm_compute. lia.
Defined.

(** ** Walking the notes *)

Lemma getAllNotes_Sorted (kv : KVNamespace) (now : Z) :
  Sorted (fun a b => NoteMeta.created b <= NoteMeta.created a) (getAllNotes kv now).
Proof.
  unfold getAllNotes, js_sort.
  eapply Sorted_weaken;
    [|apply (stable_sort_Sorted
               (fun u v => NoteMeta.created v - NoteMeta.created u <=? 0))].
  - intros a b Hab. apply Z.leb_le in Hab. lia.
  - intros u v Huv. apply Z.leb_gt in Huv. apply Z.leb_le. lia.
Qed.

(** X11: on a namespace in step, the previous note of [a] is another
    note, one that can be fetched and that was created no later than
    [a]. *)
Theorem previous_note_older (kv : KVNamespace) (now : Z) (a b : string) :
  store_synced kv ->
  getPreviousNoteId kv now a = Some b ->
  a <> b /\
  exists na nb,
    getNote kv now a = Some na /\ getNote kv now b = Some nb /\
    Note.created nb <= Note.created na.
Proof.
  intros Hs Hprev.
  apply getPreviousNoteId_Some in Hprev as (_ & Hi & Hnext).
  set (notes := getAllNotes kv now) in *.
  set (i := findIndex _ notes) in *.
  destruct (findIndex_lookup _ notes Hi) as (ma & Hma & Hida). fold i in Hma.
  apply String.eqb_eq in Hida.
  destruct (js_index notes (i + 1)) as [mb|] eqn:Hmb; [|done].
  injection Hnext as Hidb. apply js_index_lookup in Hmb as [_ Hmb].
  replace (Z.to_nat (i + 1)) with (S (Z.to_nat i)) in Hmb by lia.
  pose proof (Sorted_adjacent _ _ _ _ _ (getAllNotes_Sorted kv now) Hma Hmb) as Hle.
  destruct (getAllNotes_synced kv now ma Hs) as (na & Hna & Hmeta_a);
    [by eapply list_elem_of_lookup_2|].
  destruct (getAllNotes_synced kv now mb Hs) as (nb & Hnb & Hmeta_b);
    [by eapply list_elem_of_lookup_2|].
  rewrite Hida in Hna. rewrite Hidb in Hnb. split.
  - intros <-.
    pose proof (getAllNotes_ids_NoDup kv now (store_synced_wf kv Hs)) as Hnd.
    assert (Z.to_nat i = S (Z.to_nat i)); [|lia].
    apply (NoDup_lookup (NoteMeta.id <$> getAllNotes kv now) _ _ a Hnd).
    + rewrite list_lookup_fmap. fold notes. by rewrite Hma; simpl; rewrite Hida.
    + rewrite list_lookup_fmap. fold notes. by rewrite Hmb; simpl; rewrite Hidb.
  - exists na, nb. repeat split; [done|done|].
    rewrite Hmeta_a, Hmeta_b in Hle. exact Hle.
Qed.

Lemma previous_note_older_witness :
  "C" <> "B" /\
  exists na nb,
    getNote TextOnly.three_notes 500 "C" = Some na /\
    getNote TextOnly.three_notes 500 "B" = Some nb /\
    Note.created nb <= Note.created na.
Proof.
  apply (previous_note_older TextOnly.three_notes 500 "C" "B"); [|reflexivity].
  unfold TextOnly.three_notes.
  repeat apply store_synced_saveNote. apply store_synced_empty.
Defined.

(** X12: the note listed first has no next note and, on a namespace
    whose note keys satisfy the invariant, the note listed last has no
    previous note. *)
Theorem navigation_ends (kv : KVNamespace) (now : Z) :
  store_wf kv ->
  (forall first rest,
      getAllNotes kv now = first :: rest ->
      getNextNoteId kv now (NoteMeta.id first) = None) /\
  (forall front last,
      getAllNotes kv now = (front ++ [last])%list ->
      getPreviousNoteId kv now (NoteMeta.id last) = None).
Proof.
  intros Hwf. split.
  - intros first rest Hall. unfold getNextNoteId.
    destruct (getNote kv now (NoteMeta.id first)); [|done].
    rewrite Hall. simpl. by rewrite String.eqb_refl.
  - intros front last Hall. unfold getPreviousNoteId.
    destruct (getNote kv now (NoteMeta.id last)); [|done].
    pose proof (getAllNotes_ids_NoDup kv now Hwf) as Hnd.
    rewrite Hall in *.
    rewrite (findIndex_NoDup NoteMeta.id (front ++ [last]) (length front) last Hnd).
    + rewrite length_app. simpl length.
      destruct (Z.ltb_spec (Z.of_nat (length front))
                  (Z.of_nat (length front + 1) - 1)); [lia|].
      by rewrite andb_false_r.
    + by rewrite lookup_app_r, Nat.sub_diag.
Qed.

Lemma navigation_ends_witness :
  getNextNoteId TextOnly.three_notes 500 "C" = None /\
  getPreviousNoteId TextOnly.three_notes 500 "A" = None.
Proof.
  assert (store_wf TextOnly.three_notes) as Hwf.
  { unfold TextOnly.three_notes. repeat apply store_wf_saveNote. apply store_wf_empty. }
  destruct (navigation_ends TextOnly.three_notes 500 Hwf) as [Hfirst Hlast]. split.
  - apply (Hfirst (NoteMeta.mk "C" "third" 300 300)
             [NoteMeta.mk "B" "second" 200 200; NoteMeta.mk "A" "first" 100 100]).
    reflexivity.
  - apply (Hlast [NoteMeta.mk "C" "third" 300 300; NoteMeta.mk "B" "second" 200 200]
             (NoteMeta.mk "A" "first" 100 100)).
    reflexivity.
Defined.

(** ** Sequential ids *)

Lemma leading_digits_uint (d : Decimal.uint) (acc : Z) :
  leading_digits (Some acc) (DecimalString.NilEmpty.string_of_uint d)
  = Some (uint_value acc d).
Proof. revert acc. induction d; intros acc; simpl; try done; apply IHd. Qed.

Lemma leading_digits_uint_None (d : Decimal.uint) :
  d <> Decimal.Nil ->
  leading_digits None (DecimalString.NilEmpty.string_of_uint d)
  = Some (uint_value 0 d).
Proof. destruct d; intros Hd; simpl; try done; apply leading_digits_uint. Qed.

Lemma uint_value_pos (d : Decimal.uint) (p : positive) :
  uint_value (Z.pos p) d = Z.pos (Pos.of_uint_acc d p).
Proof.
  revert p. induction d; intros p; simpl; try done;
    match goal with
    | |- uint_value ?a _ = Z.pos (Pos.of_uint_acc _ ?q) =>
        replace a with (Z.pos q) by lia; apply IHd
    end.
Qed.

Lemma uint_value_0 (d : Decimal.uint) : uint_value 0 d = Z.of_N (Pos.of_uint d).
Proof. induction d; simpl; try done; apply (uint_value_pos d). Qed.

Lemma skip_space_digit (c : ascii) (r : string) :
  is_Some (digit_value c) \/ c = "-"%char -> skip_space (String c r) = String c r.
Proof.
  intros Hc.
  assert (is_ascii_space c = false /\ (forall b, is_space2 c b = false) /\
          (forall b b', is_space3 c b b' = false)) as (H1 & H2 & H3).
  { destruct Hc as [[v Hv]| ->]; [|done].
    destruct c as [[] [] [] [] [] [] [] []]; try discriminate Hv; done. }
  simpl. rewrite H1. destruct r as [|b [|b' r]]; [done| |].
  - by rewrite H2.
  - by rewrite H2, H3.
Qed.

Lemma string_of_uint_head (d : Decimal.uint) :
  d <> Decimal.Nil ->
  exists c r, DecimalString.NilEmpty.string_of_uint d = String c r /\
              is_Some (digit_value c).
Proof. destruct d; intros Hd; try done; by eexists _, _. Qed.

Lemma parseInt_digits (d : Decimal.uint) :
  d <> Decimal.Nil ->
  parseInt (DecimalString.NilEmpty.string_of_uint d) = Some (Z.of_uint d).
Proof.
  intros Hd. destruct (string_of_uint_head d Hd) as (c & r & Hs & Hc).
  unfold parseInt. rewrite Hs, skip_space_digit by (by left).
  assert (Ascii.eqb c "-" = false /\ Ascii.eqb c "+" = false) as [-> ->].
  { destruct Hc as [v Hv].
    destruct c as [[] [] [] [] [] [] [] []]; try discriminate Hv; done. }
  rewrite <- Hs, leading_digits_uint_None by done.
  by rewrite uint_value_0.
Qed.

(** A number printed by [toString] is read back by [parseInt]. *)
Lemma string_of_uint_nonnil (d : Decimal.uint) :
  d <> Decimal.Nil ->
  DecimalString.NilZero.string_of_uint d = DecimalString.NilEmpty.string_of_uint d.
Proof. by destruct d. Qed.

Lemma parseInt_Number_toString (n : Z) : parseInt (Number_toString n) = Some n.
Proof.
  unfold Number_toString. rewrite <- (DecimalZ.of_to n) at 2.
  destruct n as [|p|p]; [done| |];
    pose proof (DecimalPos.Unsigned.to_uint_nonnil p) as Hnil;
    cbn [Z.to_int Z.of_int DecimalString.NilZero.string_of_int];
    rewrite string_of_uint_nonnil by done.
  - by apply parseInt_digits.
  - unfold parseInt. rewrite skip_space_digit by (by right).
    cbn [Ascii.eqb Bool.eqb]. cbv iota.
    rewrite leading_digits_uint_None by done. by rewrite uint_value_0.
Qed.

Lemma leading_zeros (k : nat) (s : string) :
  leading_digits (Some 0) (string_of_list_ascii (repeat "0"%char k) +:+ s)
  = leading_digits (Some 0) s.
Proof. induction k as [|k IH]; [done|exact IH]. Qed.

Lemma parseInt_padded (k : nat) (d : Decimal.uint) :
  d <> Decimal.Nil ->
  parseInt (string_of_list_ascii (repeat "0"%char k)
            +:+ DecimalString.NilEmpty.string_of_uint d)
  = Some (Z.of_uint d).
Proof.
  intros Hd. destruct k as [|k]; [by apply parseInt_digits|].
  change (string_of_list_ascii (repeat "0"%char (S k))
          +:+ DecimalString.NilEmpty.string_of_uint d)
    with (String "0" (string_of_list_ascii (repeat "0"%char k)
                      +:+ DecimalString.NilEmpty.string_of_uint d)).
  unfold parseInt. rewrite skip_space_digit by (left; by eexists).
  cbn [Ascii.eqb Bool.eqb]. cbv iota.
  change (leading_digits None (String "0" ?r)) with (leading_digits (Some 0) r).
  by rewrite leading_zeros, leading_digits_uint, uint_value_0.
Qed.

Lemma parseInt_padStart (n : Z) :
  0 <= n -> parseInt (padStart0 4 (Number_toString n)) = Some n.
Proof.
  intros Hn. unfold padStart0, Number_toString.
  rewrite <- (DecimalZ.of_to n) at 3.
  destruct n as [|p|p]; [done| |lia].
  pose proof (DecimalPos.Unsigned.to_uint_nonnil p) as Hnil.
  cbn [Z.to_int Z.of_int DecimalString.NilZero.string_of_int].
  rewrite string_of_uint_nonnil by done. by apply parseInt_padded.
Qed.

Lemma Number_toString_truthy (n : Z) : js_truthy_str (Number_toString n) = true.
Proof.
  pose proof (parseInt_Number_toString n) as Hparse.
  by destruct (Number_toString n).
Qed.

Lemma Float64_of_Z_safe (n : Z) : Z.abs n < 2 ^ 53 -> Float64_of_Z n = Finite n.
Proof.
  intros Hn. unfold Float64_of_Z.
  by destruct (Z.ltb_spec (Z.abs n) (2 ^ 53)); [|lia].
Qed.

Lemma Float64_toString_safe (n : Z) :
  Z.abs n < 2 ^ 53 -> Float64_toString (Finite n) = Number_toString n.
Proof.
  intros Hn. unfold Float64_toString.
  by destruct (Z.ltb_spec (Z.abs n) (2 ^ 53)); [|lia].
Qed.

Lemma getNextNoteNumber_put (kv : KVNamespace) (now : Z) :
  exists text,
    snd (getNextNoteNumber kv now) = kv_put kv COUNTER_KEY (VText text) None None.
Proof. by eexists. Qed.

(** X13: while the counter stands at [n], below the largest exact
    integer, [getNextNoteNumber] returns the decimal text of [n + 1]
    padded with zeros to four characters and leaves the counter at
    [n + 1]; the id it returns reads back as [n + 1], so that later
    calls return later numbers and no two calls in a row return the
    same id. *)
Theorem getNextNoteNumber_counts (kv : KVNamespace) (now now' : Z) (n : Z) :
  0 <= n < MAX_SAFE_INTEGER ->
  counter_is kv now n ->
  exists kv',
    getNextNoteNumber kv now = (padStart0 4 (Number_toString (n + 1)), kv') /\
    counter_is kv' now' (n + 1) /\
    parseInt (padStart0 4 (Number_toString (n + 1))) = Some (n + 1).
Proof.
  intros Hn Hcounter. unfold MAX_SAFE_INTEGER in Hn.
  exists (kv_put kv COUNTER_KEY (VText (Number_toString (n + 1))) None None).
  split; [|split].
  - unfold getNextNoteNumber. destruct Hcounter as [Hheld|[-> Habsent]].
    + rewrite Hheld, Number_toString_truthy.
      unfold parseInt_Number. rewrite parseInt_Number_toString.
      rewrite Float64_of_Z_safe by lia. simpl.
      rewrite Float64_of_Z_safe by lia. by rewrite Float64_toString_safe by lia.
    + by rewrite Habsent.
  - left. by rewrite kv_get_put_eq.
  - apply parseInt_padStart. lia.
Qed.

Lemma getNextNoteNumber_counts_witness :
  exists kv',
    getNextNoteNumber TextOnly.three_notes 500 = ("0001", kv') /\
    counter_is kv' 600 1 /\
    parseInt "0001" = Some 1.
Proof.
  apply (getNextNoteNumber_counts TextOnly.three_notes 500 600 0).
  - unfold MAX_SAFE_INTEGER. lia.
  - right. split; reflexivity.
Defined.

(** X14: a counter whose text does not start with a number spoils the
    sequence for good: the call returns [0NaN] and stores [NaN], and
    so does every call after it. *)
Theorem getNextNoteNumber_not_a_number
    (kv : KVNamespace) (now now' : Z) (text : string) :
  kv_value <$> kv_get kv now COUNTER_KEY = Some (VText text) ->
  js_truthy_str text = true ->
  parseInt text = None ->
  exists kv',
    getNextNoteNumber kv now = ("0NaN", kv') /\
    getNextNoteNumber kv' now' = ("0NaN", kv').
Proof.
  intros Hheld Htruthy Hparse.
  exists (kv_put kv COUNTER_KEY (VText "NaN") None None). split.
  - unfold getNextNoteNumber, parseInt_Number. by rewrite Hheld, Htruthy, Hparse.
  - unfold getNextNoteNumber. rewrite kv_get_put_eq. simpl.
    unfold kv_put. by rewrite insert_insert_eq.
Qed.

Lemma getNextNoteNumber_not_a_number_witness :
  exists kv',
    getNextNoteNumber (kv_put ∅ COUNTER_KEY (VText "seven") None None) 500
    = ("0NaN", kv') /\
    getNextNoteNumber kv' 600 = ("0NaN", kv').
Proof.
  apply (getNextNoteNumber_not_a_number
           (kv_put ∅ COUNTER_KEY (VText "seven") None None) 500 600 "seven");
    reflexivity.
Defined.

(** Past the exact integers the counter stops: at [2^53] the sum
    [2^53 + 1] rounds back to [2^53], and the call returns the number
    it read and stores it again. *)
Lemma getNextNoteNumber_saturates (kv : KVNamespace) (now : Z) :
  kv_value <$> kv_get kv now COUNTER_KEY = Some (VText "9007199254740992") ->
  getNextNoteNumber kv now
  = ("9007199254740992", kv_put kv COUNTER_KEY (VText "9007199254740992") None None).
Proof.
  intros Hheld. unfold getNextNoteNumber. rewrite Hheld.
  assert (Float64_toString (Float64_add1 (parseInt_Number "9007199254740992"))
          = "9007199254740992") as Htext by (by vm_compute).
  cbn [js_truthy_str String.eqb negb]. by rewrite Htext.
Qed.

(** X15: [getNextNoteNumber] writes the counter key and nothing else,
    whatever the counter holds: every other key is as before, so that
    no note, no listing and no session is changed by it, and the
    invariant of note keys is kept. *)
Theorem getNextNoteNumber_touches_counter_only
    (kv : KVNamespace) (now now' : Z) (id token : string) :
  let kv' := snd (getNextNoteNumber kv now) in
  (forall key, key <> COUNTER_KEY -> kv' !! key = kv !! key) /\
  is_Some (kv' !! COUNTER_KEY) /\
  getNote kv' now' id = getNote kv now' id /\
  getAllNotes kv' now' = getAllNotes kv now' /\
  validateSession kv' now' token = validateSession kv now' token /\
  (store_wf kv -> store_wf kv').
Proof.
  intros kv'. destruct (getNextNoteNumber_put kv now) as [text Hput].
  unfold kv'. rewrite Hput. clear kv' Hput.
  assert (forall key, key <> COUNTER_KEY ->
            kv_put kv COUNTER_KEY (VText text) None None !! key = kv !! key) as Hother.
  { intros key Hkey. unfold kv_put. by rewrite lookup_insert_ne. }
  assert (forall key, String.prefix "note:" key = true ->
            kv_put kv COUNTER_KEY (VText text) None None !! key = kv !! key) as Hnotes.
  { intros key Hkey. apply Hother. by intros ->. }
  split; [exact Hother|]. split; [unfold kv_put; rewrite lookup_insert_eq; by eexists|].
  split; [|split; [|split]].
  - by apply getNote_ext.
  - by apply getAllNotes_ext.
  - apply validateSession_ext. by apply Hother.
  - intros Hwf key e Hlook Hkey. rewrite (Hnotes key Hkey) in Hlook. by apply Hwf.
Qed.

(** ** The request handlers *)

Lemma secureResponse_security (body : option string) (init : ResponseInit)
    (name value : string) :
  In (name, value) SECURITY_HEADERS ->
  Response.headers (secureResponse body init) !! name = Some value.
Proof.
  unfold secureResponse, SECURITY_HEADERS. cbn [Response.headers].
  generalize (Headers_set_all (init_headers init) ∅). intros h.
  unfold Headers_set_all. cbn [foldl fst snd].
  intros Hin. simpl in Hin.
  destruct (body_truthy body && _);
    repeat (destruct Hin as [[= <- <-]|Hin];
            [rewrite ?lookup_insert_ne by done; apply lookup_insert_eq|]); done.
Qed.



Lemma orelse_elim (P : Outcome -> Prop) (block : option Outcome) (rest : Outcome) :
  (forall outcome, block = Some outcome -> P outcome) -> P rest -> P (orelse block rest).
Proof. intros Hblock Hrest. destruct block; simpl; auto. Qed.

Section Handlers.
Context `{SubtleCrypto} `{Marked} `{SanitizeHtml} `{Templates}.
Context (request : Request.t) (env : Env) (now : Z) (rnd : nat -> Z).
Context (P : Outcome -> Prop).

Let kv := NOTES_KV env.
Let method := Request.method request.

Hypothesis P_read :
  forall body init, P (Responded (secureResponse body init) kv).
Hypothesis P_redirect :
  requireAuth kv now (Request.cookie request) = true -> P (Responded AUTH_REDIRECT kv).
Hypothesis P_login :
  Request.pathname request = "/admin/login" -> method = "POST" ->
  P (handleLogin request env now rnd).
Hypothesis P_logout :
  Request.pathname request = "/admin/logout" ->
  forall kv',
    kv' = match getSessionFromCookie (Request.cookie request) with
          | Some token => if js_truthy_str token then deleteSession kv token else kv
          | None => kv
          end ->
    P (Responded
         (secureResponse None
            (mkInit (Some 302) [("Location", "/"); ("Set-Cookie", createLogoutCookie)]))
         kv').
Hypothesis P_create :
  requireAuth kv now (Request.cookie request) = false -> method = "POST" ->
  P (handleCreateNote request env now rnd).
Hypothesis P_update :
  requireAuth kv now (Request.cookie request) = false -> method = "POST" ->
  forall id, P (handleUpdateNote request env now id).
Hypothesis P_delete :
  requireAuth kv now (Request.cookie request) = false -> method = "POST" ->
  forall id,
    P (Responded (secureResponse None (mkInit (Some 302) [("Location", "/admin")]))
         (snd (deleteNote kv now id))).

Lemma handleAdminRoutes_elim :
  P (handleAdminRoutes request env now rnd (Request.pathname request)).
Proof.
  unfold handleAdminRoutes. fold kv method.
  set (path := Request.pathname request) in *.
  apply orelse_elim.
  { intros o. destruct (String.eqb_spec path "/admin/login"); [|done].
    destruct (String.eqb method "GET"); [intros [= <-]; apply P_read|].
    destruct (String.eqb_spec method "POST"); [|done].
    intros [= <-]. by apply P_login. }
  apply orelse_elim.
  { intros o. destruct (String.eqb_spec path "/admin/logout"); [|done].
    intros [= <-]. by apply P_logout. }
  destruct (requireAuth kv now (Request.cookie request)) eqn:Hauth;
    unfold orelse at 1; [by apply P_redirect|].
  apply orelse_elim.
  { intros o. destruct (_ || _); [|done]. intros [= <-]. apply P_read. }
  apply orelse_elim.
  { intros o. destruct (String.eqb path "/admin/new"); [|done].
    destruct (String.eqb method "GET"); [intros [= <-]; apply P_read|].
    destruct (String.eqb_spec method "POST"); [|done].
    intros [= <-]. by apply P_create. }
  apply orelse_elim.
  { intros o. destruct (match_route "/admin/edit/" path) as [id|]; [|done].
    destruct (String.eqb method "GET").
    { destruct (getNote kv now id); intros [= <-]; apply P_read. }
    destruct (String.eqb_spec method "POST"); [|done].
    intros [= <-]. by apply P_update. }
  apply orelse_elim.
  { intros o. destruct (match_route "/admin/delete/" path) as [id|]; [|done].
    destruct (String.eqb method "GET").
    { destruct (getNote kv now id); intros [= <-]; apply P_read. }
    destruct (String.eqb_spec method "POST"); [|done].
    intros [= <-]. by apply P_delete. }
  apply P_read.
Qed.

Lemma fetch_elim : P (fetch request env now rnd).
Proof.
  unfold fetch, handleHome, handleNotePage. fold kv.
  destruct (_ || _).
  { destruct (getLatestNote kv now); apply P_read. }
  destruct (String.prefix "/admin" (Request.pathname request));
    [apply handleAdminRoutes_elim|].
  destruct (match_route "/" (Request.pathname request)) as [id|]; [|apply P_read].
  destruct (getNote kv now id); apply P_read.
Qed.
End Handlers.

Lemma handleLogin_cases `{SubtleCrypto} `{Templates}
    (request : Request.t) (env : Env) (now : Z) (rnd : nat -> Z) :
  (Request.formData request = None /\ handleLogin request env now rnd = Threw) \/
  (exists body init,
     handleLogin request env now rnd
     = Responded (secureResponse body init) (NOTES_KV env)) \/
  (exists body init,
     handleLogin request env now rnd
     = Responded (secureResponse body init) (snd (createSession (NOTES_KV env) now rnd))).
Proof.
  unfold handleLogin. destruct (Request.formData request); [|by left].
  right. destruct (negb _); [left|right]; by eexists _, _.
Qed.

Lemma saveHandler_cases `{Marked} `{SanitizeHtml}
    (request : Request.t) (env : Env) (now : Z) (id : string) :
  (Request.formData request = None /\ handleUpdateNote request env now id = Threw) \/
  (exists body init,
     handleUpdateNote request env now id
     = Responded (secureResponse body init) (NOTES_KV env)) \/
  (exists body init title content,
     handleUpdateNote request env now id
     = Responded (secureResponse body init)
         (snd (saveNote (NOTES_KV env) now id title content))).
Proof.
  unfold handleUpdateNote. destruct (Request.formData request) as [form|]; [|by left].
  right. destruct (_ || _); [left; by eexists _, _|right].
  destruct (saveNote _ _ _ _ _) as [note kv] eqn:Hsave.
  eexists _, _, _, _. by rewrite Hsave.
Qed.

Lemma handleCreateNote_update `{Marked} `{SanitizeHtml}
    (request : Request.t) (env : Env) (now : Z) (rnd : nat -> Z) :
  handleCreateNote request env now rnd
  = handleUpdateNote request env now (generateNoteId rnd).
Proof. reflexivity. Qed.

Section Worker.
Context `{SubtleCrypto} `{Marked} `{SanitizeHtml} `{Templates}.

(** X16: every response of the worker carries the five security
    headers with their fixed values, except the redirect to the login
    page that [requireAuth] answers an unauthenticated admin request
    with: that response is built apart and carries none of them. *)
Theorem fetch_security_headers
    (request : Request.t) (env : Env) (now : Z) (rnd : nat -> Z)
    (response : Response.t) (kv' : KVNamespace) :
  fetch request env now rnd = Responded response kv' ->
  (response = AUTH_REDIRECT /\
   forall name value, In (name, value) SECURITY_HEADERS ->
                      Response.headers response !! name = None) \/
  (forall name value, In (name, value) SECURITY_HEADERS ->
                      Response.headers response !! name = Some value).
Proof.
  revert response kv'. apply fetch_elim.
  - intros body init response kv' [= <- <-]. right. apply secureResponse_security.
  - intros _ response kv' [= <- <-]. left. split; [done|].
    intros name value Hin. simpl in Hin.
    repeat (destruct Hin as [[= <- <-]|Hin]; [done|]). done.
  - intros _ _ response kv' Hr. right.
    destruct (handleLogin_cases request env now rnd)
      as [[_ Ht]|[(b & i & Hl)|(b & i & Hl)]]; rewrite Hr in *; try done;
      injection Hl as -> _; apply secureResponse_security.
  - intros _ kv0 _ response kv' [= <- <-]. right. apply secureResponse_security.
  - intros _ _ response kv' Hr. right. rewrite handleCreateNote_update in Hr.
    destruct (saveHandler_cases request env now (generateNoteId rnd))
      as [[_ Ht]|[(b & i & Hl)|(b & i & t & c & Hl)]]; rewrite Hr in *; try done;
      injection Hl as -> _; apply secureResponse_security.
  - intros _ _ id response kv' Hr. right.
    destruct (saveHandler_cases request env now id)
      as [[_ Ht]|[(b & i & Hl)|(b & i & t & c & Hl)]]; rewrite Hr in *; try done;
      injection Hl as -> _; apply secureResponse_security.
  - intros _ _ id response kv' [= <- <-]. right. apply secureResponse_security.
Qed.

(** X28: whatever the request, the worker leaves the namespace in
    step: if every note key held its note and that note's metadata
    before, it does so afterwards, and the invariant of note keys
    holds. *)
Theorem fetch_keeps_notes_in_step
    (request : Request.t) (env : Env) (now : Z) (rnd : nat -> Z)
    (response : Response.t) (kv' : KVNamespace) :
  store_synced (NOTES_KV env) ->
  fetch request env now rnd = Responded response kv' ->
  store_synced kv' /\ store_wf kv'.
Proof.
  intros Hs Hfetch. assert (store_synced kv') as Hs'; [|by split; [|apply store_synced_wf]].
  revert response kv' Hfetch. apply fetch_elim.
  - by intros body init response kv' [= <- <-].
  - by intros _ response kv' [= <- <-].
  - intros _ _ response kv' Hr.
    destruct (handleLogin_cases request env now rnd)
      as [[_ Ht]|[(b & i & Hl)|(b & i & Hl)]]; rewrite Hr in *; try done;
      injection Hl as _ ->; [done|by apply store_synced_createSession].
  - intros _ kv0 -> response kv' [= <- <-].
    destruct (getSessionFromCookie _) as [token|]; [|done].
    destruct (js_truthy_str token); [by apply store_synced_deleteSession|done].
  - intros _ _ response kv' Hr. rewrite handleCreateNote_update in Hr.
    destruct (saveHandler_cases request env now (generateNoteId rnd))
      as [[_ Ht]|[(b & i & Hl)|(b & i & t & c & Hl)]]; rewrite Hr in *; try done;
      injection Hl as _ ->; [done|by apply store_synced_saveNote].
  - intros _ _ id response kv' Hr.
    destruct (saveHandler_cases request env now id)
      as [[_ Ht]|[(b & i & Hl)|(b & i & t & c & Hl)]]; rewrite Hr in *; try done;
      injection Hl as _ ->; [done|by apply store_synced_saveNote].
  - intros _ _ id response kv' [= <- <-]. by apply store_synced_deleteNote.
Qed.

(** X29: the worker fails on a request only when it is a [POST] whose
    body is not a form; any other request is answered. *)
Theorem fetch_throws_only_without_form
    (request : Request.t) (env : Env) (now : Z) (rnd : nat -> Z) :
  fetch request env now rnd = Threw ->
  Request.method request = "POST" /\ Request.formData request = None.
Proof.
  apply fetch_elim; try done.
  - intros _ Hpost Hr. split; [done|].
    destruct (handleLogin_cases request env now rnd)
      as [[Hf _]|[(b & i & Hl)|(b & i & Hl)]]; [done| |]; congruence.
  - intros _ Hpost Hr. split; [done|]. rewrite handleCreateNote_update in Hr.
    destruct (saveHandler_cases request env now (generateNoteId rnd))
      as [[Hf _]|[(b & i & Hl)|(b & i & t & c & Hl)]]; [done| |]; congruence.
  - intros _ Hpost id Hr. split; [done|].
    destruct (saveHandler_cases request env now id)
      as [[Hf _]|[(b & i & Hl)|(b & i & t & c & Hl)]]; [done| |]; congruence.
Qed.

(** X19: apart from the logout path, a request whose method is not
    [POST] leaves the namespace as it was. *)
Theorem only_post_and_logout_write
    (request : Request.t) (env : Env) (now : Z) (rnd : nat -> Z)
    (response : Response.t) (kv' : KVNamespace) :
  Request.method request <> "POST" ->
  Request.pathname request <> "/admin/logout" ->
  fetch request env now rnd = Responded response kv' ->
  kv' = NOTES_KV env.
Proof.
  intros Hmethod Hpath. revert response kv'. apply fetch_elim; try done.
  - by intros body init response kv' [= <- <-].
  - by intros _ response kv' [= <- <-].
Qed.

(** X18: a request that does not carry a valid session changes no
    note and no listing, whatever its path, method and body. *)
Theorem unauthenticated_cannot_change_notes
    (request : Request.t) (env : Env) (now now' : Z) (rnd : nat -> Z)
    (response : Response.t) (kv' : KVNamespace) (id : string) :
  requireAuth (NOTES_KV env) now (Request.cookie request) = true ->
  fetch request env now rnd = Responded response kv' ->
  getNote kv' now' id = getNote (NOTES_KV env) now' id /\
  getAllNotes kv' now' = getAllNotes (NOTES_KV env) now'.
Proof.
  intros Hauth. revert response kv'. apply fetch_elim; try congruence.
  - by intros body init response kv' [= <- <-].
  - by intros _ response kv' [= <- <-].
  - intros _ _ response kv' Hr.
    destruct (handleLogin_cases request env now rnd)
      as [[_ Ht]|[(b & i & Hl)|(b & i & Hl)]]; rewrite Hr in *; try done;
      injection Hl as _ ->; [done|].
    split; [apply getNote_ext|apply getAllNotes_ext];
      intros key Hkey; apply lookup_createSession;
      apply (prefix_note_neq _ _ Hkey), session_key_not_note.
  - intros _ kv0 -> response kv' [= <- <-].
    destruct (getSessionFromCookie _) as [token|]; [|done].
    destruct (js_truthy_str token) eqn:Htoken; [|done].
    split; [apply getNote_ext|apply getAllNotes_ext];
      intros key Hkey; apply lookup_deleteSession;
      apply (prefix_note_neq _ _ Hkey), session_key_not_note.
Qed.

Lemma secureResponse_init_header (body : option string) (init : ResponseInit)
    (name : string) :
  ~ In name (map fst SECURITY_HEADERS) -> name <> "Content-Type" ->
  Response.headers (secureResponse body init) !! name
  = Headers_set_all (init_headers init) ∅ !! name.
Proof.
  unfold secureResponse, SECURITY_HEADERS. cbn [Response.headers].
  generalize (Headers_set_all (init_headers init) ∅). intros h.
  unfold Headers_set_all. cbn [foldl fst snd map].
  intros Hname Hct.
  assert (forall other, In other ["Content-Security-Policy"; "X-Content-Type-Options";
                                  "X-Frame-Options"; "Referrer-Policy";
                                  "Permissions-Policy"] -> other <> name) as Hne.
  { intros other Hin ->. by apply Hname. }
  destruct (body_truthy body && _);
    rewrite ?lookup_insert_ne; (done || (apply Hne; simpl; tauto)).
Qed.

Lemma secureResponse_status (body : option string) (init : ResponseInit) :
  Response.status (secureResponse body init) = default 200 (init_status init).
Proof. reflexivity. Qed.

Lemma prefix_admin_not_home (path : string) :
  String.prefix "/admin" path = true ->
  String.eqb path "/" || String.eqb path "" = false.
Proof.
  intros Hpath. destruct (String.eqb_spec path "/") as [->|_]; [done|].
  by destruct (String.eqb_spec path "") as [->|_].
Qed.

(** The steps of [handleAdminRoutes] up to the check of the session. *)
Lemma handleAdminRoutes_gate (request : Request.t) (env : Env) (now : Z)
    (rnd : nat -> Z) (path : string) :
  path <> "/admin/logout" ->
  (path = "/admin/login" ->
   Request.method request <> "GET" /\ Request.method request <> "POST") ->
  requireAuth (NOTES_KV env) now (Request.cookie request) = true ->
  handleAdminRoutes request env now rnd path = Responded AUTH_REDIRECT (NOTES_KV env).
Proof.
  intros Hlogout Hlogin Hauth. unfold handleAdminRoutes.
  assert ((if String.eqb path "/admin/login"
           then if String.eqb (Request.method request) "GET"
                then Some (Responded (secureResponse (Some (renderLoginPage None))
                                        (mkInit None [])) (NOTES_KV env))
                else if String.eqb (Request.method request) "POST"
                     then Some (handleLogin request env now rnd) else None
           else None) = None) as ->.
  { destruct (String.eqb_spec path "/admin/login") as [Hp|]; [|done].
    destruct (Hlogin Hp) as [Hget Hpost].
    apply String.eqb_neq in Hget, Hpost. by rewrite Hget, Hpost. }
  apply String.eqb_neq in Hlogout. rewrite Hlogout, Hauth. reflexivity.
Qed.

(** X17: every path that starts with [/admin], other than the logout
    path and a [GET] or [POST] of the login path, answers a request
    without a valid session with the redirect to the login page and
    leaves the namespace as it was, provided the session key of its
    cookie, if it has one, is a key the namespace accepts. *)
Theorem admin_requires_session
    (request : Request.t) (env : Env) (now : Z) (rnd : nat -> Z) :
  String.prefix "/admin" (Request.pathname request) = true ->
  Request.pathname request <> "/admin/logout" ->
  (Request.pathname request = "/admin/login" ->
   Request.method request <> "GET" /\ Request.method request <> "POST") ->
  cookie_key_ok (Request.cookie request) = true ->
  requireAuth (NOTES_KV env) now (Request.cookie request) = true ->
  fetch request env now rnd = Responded AUTH_REDIRECT (NOTES_KV env).
Proof.
  intros Hadmin Hlogout Hlogin _ Hauth. unfold fetch.
  rewrite (prefix_admin_not_home _ Hadmin), Hadmin.
  by apply handleAdminRoutes_gate.
Qed.

Lemma secureCompare_true_iff (a b : string) : secureCompare a b = true <-> a = b.
Proof.
  unfold secureCompare.
  destruct (Nat.eqb_spec (length (TextEncoder_encode a)) (length (TextEncoder_encode b)))
    as [Hlen|Hlen]; simpl.
  - rewrite Z.eqb_eq, xor_loop_zero. split.
    + intros [_ Hall]. apply TextEncoder_encode_inj. by apply u8_at_ext.
    + by intros ->.
  - split; [done|]. by intros ->.
Qed.

Lemma requireAuth_issued (kv : KVNamespace) (now now' : Z) (rnd : nat -> Z) :
  now <= now' < now + SESSION_TTL * 1000 ->
  requireAuth (snd (createSession kv now rnd)) now'
    (Some ("session=" +:+ randomUUID rnd)) = false.
Proof.
  intros Hwindow.
  assert (getSessionFromCookie (Some ("session=" +:+ randomUUID rnd))
          = Some (randomUUID rnd)) as Hcookie.
  { rewrite match_session_here;
      rewrite (proj2 (not_semicolon_run_app _ "" (randomUUID_no_semicolon rnd)));
      [done|apply randomUUID_truthy]. }
  unfold requireAuth. rewrite Hcookie, randomUUID_truthy. cbn [negb orb].
  unfold validateSession, createSession. cbn [snd]. rewrite randomUUID_truthy. cbn [negb].
  unfold kv_get, kv_put. rewrite lookup_insert_eq.
  unfold kv_live. cbn [kv_expiration kv_value].
  destruct (Z.ltb_spec now' (now + SESSION_TTL * 1000)); [reflexivity|lia].
Qed.

Lemma fetch_login (request : Request.t) (env : Env) (now : Z) (rnd : nat -> Z) :
  Request.pathname request = "/admin/login" ->
  Request.method request = "POST" ->
  fetch request env now rnd = handleLogin request env now rnd.
Proof.
  intros Hpath Hmethod. unfold fetch, handleAdminRoutes. by rewrite Hpath, Hmethod.
Qed.

(** X20: a [POST] of the login form succeeds exactly when the
    password field, read as empty when it is missing, equals
    [ADMIN_PASSWORD]: then the response is a 302 to [/admin] that sets
    the cookie of a session just stored; otherwise it is a 401 that
    sets no cookie and the namespace is as before. *)
Theorem login_outcome
    (request : Request.t) (env : Env) (now : Z) (rnd : nat -> Z)
    (form : list (string * string)) :
  Request.pathname request = "/admin/login" ->
  Request.method request = "POST" ->
  Request.formData request = Some form ->
  exists response kv',
    fetch request env now rnd = Responded response kv' /\
    if decide (form_field form "password" = ADMIN_PASSWORD env) then
      kv' = snd (createSession (NOTES_KV env) now rnd) /\
      Response.status response = 302 /\
      Response.headers response !! "Location" = Some "/admin" /\
      Response.headers response !! "Set-Cookie"
      = Some (createSessionCookie (fst (createSession (NOTES_KV env) now rnd)))
    else
      kv' = NOTES_KV env /\
      Response.status response = 401 /\
      Response.headers response !! "Set-Cookie" = None.
Proof.
  intros Hpath Hmethod Hform. rewrite fetch_login by done.
  unfold handleLogin. rewrite Hform.
  destruct (decide (form_field form "password" = ADMIN_PASSWORD env)) as [Hpw|Hpw].
  - rewrite (proj2 (secureCompare_true_iff _ _) Hpw). cbn [negb].
    eexists _, _. split; [reflexivity|]. split; [done|]. split; [done|].
    split; by rewrite secureResponse_init_header
      by (simpl; intuition discriminate || discriminate).
  - destruct (secureCompare _ _) eqn:Hcmp;
      [by apply secureCompare_true_iff in Hcmp|]. cbn [negb].
    eexists _, _. split; [reflexivity|]. split; [done|]. split; [done|].
    by rewrite secureResponse_init_header
      by (simpl; intuition discriminate || discriminate).
Qed.

Lemma fetch_dashboard (request : Request.t) (env : Env) (now : Z) (rnd : nat -> Z) :
  Request.pathname request = "/admin" ->
  requireAuth (NOTES_KV env) now (Request.cookie request) = false ->
  fetch request env now rnd
  = Responded
      (secureResponse (Some (renderAdminDashboard (getAllNotes (NOTES_KV env) now)))
         (mkInit None []))
      (NOTES_KV env).
Proof.
  intros Hpath Hauth. unfold fetch, handleAdminRoutes. by rewrite Hpath, Hauth.
Qed.

(** X21: after a login with the right password, a request for
    [/admin] that brings back the token of the cookie it set is served
    the dashboard of the notes, at any time within 24 hours. *)
Theorem login_opens_dashboard
    (login request : Request.t) (env : Env) (now now' : Z) (rnd rnd' : nat -> Z)
    (form : list (string * string)) :
  Request.pathname login = "/admin/login" ->
  Request.method login = "POST" ->
  Request.formData login = Some form ->
  form_field form "password" = ADMIN_PASSWORD env ->
  Request.pathname request = "/admin" ->
  Request.cookie request = Some ("session=" +:+ randomUUID rnd) ->
  now <= now' < now + SESSION_TTL * 1000 ->
  exists response kv',
    fetch login env now rnd = Responded response kv' /\
    Response.headers response !! "Set-Cookie"
    = Some (createSessionCookie (randomUUID rnd)) /\
    fetch request (mkEnv kv' (ADMIN_PASSWORD env)) now' rnd'
    = Responded
        (secureResponse (Some (renderAdminDashboard (getAllNotes (NOTES_KV env) now')))
           (mkInit None []))
        kv'.
Proof.
  intros Hpath Hmethod Hform Hpw Hpath' Hcookie Hwindow.
  rewrite fetch_login by done. unfold handleLogin. rewrite Hform.
  rewrite (proj2 (secureCompare_true_iff _ _) Hpw). cbn [negb].
  eexists _, _. split; [reflexivity|]. split.
  { by rewrite secureResponse_init_header
      by (simpl; intuition discriminate || discriminate). }
  rewrite fetch_dashboard; cbn [NOTES_KV]; [|done|].
  - do 4 f_equal. apply getAllNotes_ext. intros key Hkey.
    apply (lookup_createSession (NOTES_KV env) now rnd).
    apply (prefix_note_neq _ _ Hkey), session_key_not_note.
  - rewrite Hcookie. by apply requireAuth_issued.
Qed.

(** X22: a request for the logout path, of any method, with or
    without a cookie and without a check of the session, answers 302
    to [/] with the logout cookie; the cookie it brought is redirected
    to the login page from then on; the token of that cookie, if there
    is one, is valid no longer, and without one the namespace is as
    before.  The session key of the cookie has to be one the namespace
    accepts. *)
Theorem logout_revokes
    (request : Request.t) (env : Env) (now now' : Z) (rnd : nat -> Z) :
  Request.pathname request = "/admin/logout" ->
  cookie_key_ok (Request.cookie request) = true ->
  exists response kv',
    fetch request env now rnd = Responded response kv' /\
    Response.status response = 302 /\
    Response.headers response !! "Location" = Some "/" /\
    Response.headers response !! "Set-Cookie" = Some createLogoutCookie /\
    requireAuth kv' now' (Request.cookie request) = true /\
    (forall token,
        getSessionFromCookie (Request.cookie request) = Some token ->
        validateSession kv' now' token = false) /\
    (getSessionFromCookie (Request.cookie request) = None -> kv' = NOTES_KV env).
Proof.
  intros Hpath _. unfold fetch, handleAdminRoutes.
  rewrite Hpath. cbn [String.eqb Ascii.eqb Bool.eqb orb String.prefix orelse].
  eexists _, _. split; [reflexivity|]. split; [done|].
  split; [by rewrite secureResponse_init_header
            by (simpl; intuition discriminate || discriminate)|].
  split; [by rewrite secureResponse_init_header
            by (simpl; intuition discriminate || discriminate)|].
  assert (forall token,
             validateSession
               (if js_truthy_str token then deleteSession (NOTES_KV env) token
                else NOTES_KV env) now' token = false) as Hinvalid.
  { intros token. unfold validateSession, deleteSession.
    destruct (js_truthy_str token); [|done]. cbn [negb].
    by rewrite kv_get_delete_eq. }
  unfold requireAuth.
  destruct (getSessionFromCookie (Request.cookie request)) as [token|].
  - split; [by rewrite Hinvalid, orb_true_r|].
    split; [by intros ? [= <-]|done].
  - done.
Qed.

(** X23: an authenticated [POST] of the new-note form with a title
    and a content stores a note with that title and content under a
    fresh id and answers 302 to [/admin]; with an empty or missing
    title or content it answers 400 and stores nothing. *)
Theorem create_note_route
    (request : Request.t) (env : Env) (now now' : Z) (rnd : nat -> Z)
    (form : list (string * string)) :
  requireAuth (NOTES_KV env) now (Request.cookie request) = false ->
  Request.pathname request = "/admin/new" ->
  Request.method request = "POST" ->
  Request.formData request = Some form ->
  exists response kv',
    fetch request env now rnd = Responded response kv' /\
    if js_truthy_str (form_field form "title") && js_truthy_str (form_field form "content")
    then
      Response.status response = 302 /\
      Response.headers response !! "Location" = Some "/admin" /\
      exists note,
        getNote kv' now' (generateNoteId rnd) = Some note /\
        Note.title note = form_field form "title" /\
        Note.content note = form_field form "content"
    else
      Response.status response = 400 /\ kv' = NOTES_KV env.
Proof.
  intros Hauth Hpath Hmethod Hform. unfold fetch, handleAdminRoutes.
  rewrite Hpath, Hmethod, Hauth.
  cbn [String.eqb Ascii.eqb Bool.eqb orb String.prefix orelse].
  unfold handleCreateNote. rewrite Hform.
  destruct (js_truthy_str (form_field form "title")),
           (js_truthy_str (form_field form "content")); cbn [negb orb andb];
    eexists _, _; (split; [reflexivity|]); try done.
  split; [done|].
  split; [by rewrite secureResponse_init_header
            by (simpl; intuition discriminate || discriminate)|].
  eexists. split; [apply getNote_saveNote|]. done.
Qed.

Lemma strip_prefix_app (p s : string) : strip_prefix p (p +:+ s) = Some s.
Proof.
  induction p as [|c p IH]; [by destruct s|].
  change (String c p +:+ s) with (String c (p +:+ s)). simpl.
  by rewrite Ascii.eqb_refl.
Qed.

Lemma strip_prefix_Some (p s rest : string) :
  strip_prefix p s = Some rest -> s = p +:+ rest.
Proof.
  revert s. induction p as [|c p IH]; intros s; simpl.
  - intros [= ->]. reflexivity.
  - destruct s as [|d s]; [done|].
    destruct (Ascii.eqb_spec c d) as [->|]; [|done].
    intros Hrest%IH. rewrite Hrest. reflexivity.
Qed.

(** X24: an authenticated [POST] of [/admin/delete/id], for an id of
    URL-safe characters whose note key the namespace accepts, answers
    302 to [/admin] and leaves the namespace [deleteNote] leaves:
    afterwards no note can be fetched under that id. *)
Theorem delete_note_route
    (request : Request.t) (env : Env) (now now' : Z) (rnd : nat -> Z) (id : string) :
  requireAuth (NOTES_KV env) now (Request.cookie request) = false ->
  cookie_key_ok (Request.cookie request) = true ->
  Request.pathname request = "/admin/delete/" +:+ id ->
  match_id id = Some id ->
  kv_key_ok (note_key id) = true ->
  Request.method request = "POST" ->
  now <= now' ->
  exists response,
    fetch request env now rnd
    = Responded response (snd (deleteNote (NOTES_KV env) now id)) /\
    Response.status response = 302 /\
    Response.headers response !! "Location" = Some "/admin" /\
    getNote (snd (deleteNote (NOTES_KV env) now id)) now' id = None.
Proof.
  intros Hauth _ Hpath Hid _ Hmethod Hle. unfold fetch, handleAdminRoutes.
  rewrite Hpath, Hmethod, Hauth.
  change (String.eqb ("/admin/delete/" +:+ id) "/") with false.
  change (String.eqb ("/admin/delete/" +:+ id) "") with false.
  change (String.prefix "/admin" ("/admin/delete/" +:+ id)) with true.
  change (String.eqb ("/admin/delete/" +:+ id) "/admin/login") with false.
  change (String.eqb ("/admin/delete/" +:+ id) "/admin/logout") with false.
  change (String.eqb ("/admin/delete/" +:+ id) "/admin") with false.
  change (String.eqb ("/admin/delete/" +:+ id) "/admin/") with false.
  change (String.eqb ("/admin/delete/" +:+ id) "/admin/new") with false.
  change (match_route "/admin/edit/" ("/admin/delete/" +:+ id)) with (@None string).
  unfold match_route. rewrite strip_prefix_app, Hid.
  cbn [String.eqb Ascii.eqb Bool.eqb orb orelse].
  eexists. split; [reflexivity|]. split; [done|].
  split; [by rewrite secureResponse_init_header
            by (simpl; intuition discriminate || discriminate)|].
  by apply getNote_deleteNote.
Qed.

Lemma match_id_Some (id id' : string) :
  match_id id = Some id' ->
  id' = id /\ id <> "" /\ forallb is_url_safe (list_ascii_of_string id) = true.
Proof.
  unfold match_id. destruct (js_truthy_str id) eqn:Hne; [|done].
  destruct (forallb _ _) eqn:Hsafe; [|done]. intros [= <-].
  repeat split. intros ->. done.
Qed.

Lemma match_id_no_slash (id id' p s : string) :
  match_id id = Some id' -> id <> p +:+ String "/" s.
Proof.
  intros (_ & _ & Hsafe)%match_id_Some ->.
  fold (chars (p +:+ String "/" s)) in Hsafe.
  rewrite chars_app, forallb_app in Hsafe.
  apply andb_true_iff in Hsafe as [_ Hsafe]. done.
Qed.

Lemma match_route_no_slash (prefix id id' : string) :
  match_id id = Some id' ->
  match_route (String "/" (prefix +:+ "/")) (String "/" id) = None.
Proof.
  intros Hid. unfold match_route.
  destruct (strip_prefix _ _) as [rest|] eqn:Hstrip; [|done].
  apply strip_prefix_Some in Hstrip. injection Hstrip as Hstrip.
  rewrite string_app_assoc in Hstrip. by apply (match_id_no_slash _ _ _ _ Hid) in Hstrip.
Qed.

Lemma handleAdminRoutes_unrouted
    (request : Request.t) (env : Env) (now : Z) (rnd : nat -> Z) (id : string) :
  match_id id = Some id -> id <> "admin" ->
  handleAdminRoutes request env now rnd (String "/" id)
  = if requireAuth (NOTES_KV env) now (Request.cookie request)
    then Responded AUTH_REDIRECT (NOTES_KV env)
    else Responded (secureResponse (Some "Not found") (mkInit (Some 404) []))
           (NOTES_KV env).
Proof.
  intros Hid Hadmin.
  assert (forall p s, String.eqb (String "/" id) (String "/" (p +:+ String "/" s)) = false)
    as Hslash.
  { intros p s. apply String.eqb_neq. intros [= Heq].
    by apply (match_id_no_slash _ _ _ _ Hid) in Heq. }
  unfold handleAdminRoutes.
  assert (String.eqb (String "/" id) "/admin/login" = false) as ->
    by apply (Hslash "admin" "login").
  assert (String.eqb (String "/" id) "/admin/logout" = false) as ->
    by apply (Hslash "admin" "logout").
  assert (String.eqb (String "/" id) "/admin/" = false) as ->
    by apply (Hslash "admin" "").
  assert (String.eqb (String "/" id) "/admin/new" = false) as ->
    by apply (Hslash "admin" "new").
  assert (match_route "/admin/edit/" (String "/" id) = None) as ->
    by apply (match_route_no_slash "admin/edit" id id Hid).
  assert (match_route "/admin/delete/" (String "/" id) = None) as ->
    by apply (match_route_no_slash "admin/delete" id id Hid).
  assert (String.eqb (String "/" id) "/admin" = false) as ->.
  { apply String.eqb_neq. by intros [= ->]. }
  by destruct (requireAuth _ _ _).
Qed.

(** X25: the admin routes shadow the note page: for an id that starts
    with [admin] (other than [admin] itself), the path of its note page
    is answered by the redirect to the login page or, with a valid
    session, by a 404, and never by the note, whatever the namespace
    holds (the session key of the cookie being one it accepts); and
    [generateNoteId] can return such an id. *)
Theorem admin_prefixed_id_unreachable
    (request : Request.t) (env : Env) (now : Z) (rnd : nat -> Z) (id : string) :
  match_id id = Some id ->
  String.prefix "admin" id = true ->
  id <> "admin" ->
  Request.pathname request = "/" +:+ id ->
  cookie_key_ok (Request.cookie request) = true ->
  fetch request env now rnd
  = (if requireAuth (NOTES_KV env) now (Request.cookie request)
     then Responded AUTH_REDIRECT (NOTES_KV env)
     else Responded (secureResponse (Some "Not found") (mkInit (Some 404) []))
            (NOTES_KV env)) /\
  exists random : nat -> Z,
    match_id (generateNoteId random) = Some (generateNoteId random) /\
    String.prefix "admin" (generateNoteId random) = true /\
    generateNoteId random <> "admin".
Proof.
  intros Hid Hprefix Hadmin Hpath _. split.
  - unfold fetch. rewrite Hpath.
    change ("/" +:+ id) with (String "/" id).
    rewrite prefix_admin_not_home by done.
    change (String.prefix "/admin" (String "/" id)) with (String.prefix "admin" id).
    rewrite Hprefix. by apply handleAdminRoutes_unrouted.
  - exists Pages.admin_bytes. by vm_compute.
Qed.

(** X26: for an id of URL-safe characters that does not start with
    [admin] and whose note key the namespace accepts, the path [/id]
    is answered with the page of the note stored under that id,
    together with the id of its previous note, or with the 404 page
    when no note can be fetched; the namespace is left as it was. *)
Theorem public_note_page
    (request : Request.t) (env : Env) (now : Z) (rnd : nat -> Z) (id : string) :
  match_id id = Some id ->
  String.prefix "admin" id = false ->
  kv_key_ok (note_key id) = true ->
  Request.pathname request = "/" +:+ id ->
  fetch request env now rnd
  = match getNote (NOTES_KV env) now id with
    | Some note =>
        Responded
          (secureResponse
             (Some (renderNotePage note (getPreviousNoteId (NOTES_KV env) now id)))
             (mkInit None []))
          (NOTES_KV env)
    | None =>
        Responded (secureResponse (Some render404Page) (mkInit (Some 404) []))
          (NOTES_KV env)
    end.
Proof.
  intros Hid Hprefix _ Hpath. unfold fetch. rewrite Hpath.
  change ("/" +:+ id) with (String "/" id).
  destruct (match_id_Some _ _ Hid) as (_ & Hne & _).
  assert (String.eqb (String "/" id) "/" || String.eqb (String "/" id) "" = false) as ->.
  { destruct (String.eqb_spec (String "/" id) "/") as [[= ->]|_]; done. }
  change (String.prefix "/admin" (String "/" id)) with (String.prefix "admin" id).
  rewrite Hprefix.
  assert (match_route "/" (String "/" id) = Some id) as -> by exact Hid.
  reflexivity.
Qed.

(** X27: on a namespace in step, the home path redirects to the note
    listed first, the newest, and shows the empty page only when no
    note is listed. *)
Theorem home_redirects_to_newest
    (request : Request.t) (env : Env) (now : Z) (rnd : nat -> Z) :
  store_synced (NOTES_KV env) ->
  Request.pathname request = "/" ->
  fetch request env now rnd
  = match getAllNotes (NOTES_KV env) now with
    | [] =>
        Responded (secureResponse (Some renderEmptyPage) (mkInit None [])) (NOTES_KV env)
    | first :: _ =>
        Responded
          (secureResponse None
             (mkInit (Some 302) [("Location", "/" +:+ NoteMeta.id first)]))
          (NOTES_KV env)
    end.
Proof.
  intros Hs Hpath. unfold fetch, handleHome, getLatestNote. rewrite Hpath.
  cbn [String.eqb Ascii.eqb Bool.eqb orb].
  destruct (getAllNotes (NOTES_KV env) now) as [|first rest] eqn:Hall; [done|].
  destruct (getAllNotes_synced (NOTES_KV env) now first Hs) as (n & Hget & ->).
  { rewrite Hall. by left. }
  by rewrite Hget.
Qed.
End Worker.

(** *** The handlers at work *)

Lemma fetch_security_headers_witness :
  (secureResponse (Some (@render404Page Pages.templates)) (mkInit (Some 404) [])
   = AUTH_REDIRECT /\
   forall name value, In (name, value) SECURITY_HEADERS ->
     Response.headers
       (secureResponse (Some (@render404Page Pages.templates)) (mkInit (Some 404) []))
     !! name = None) \/
  (forall name value, In (name, value) SECURITY_HEADERS ->
     Response.headers
       (secureResponse (Some (@render404Page Pages.templates)) (mkInit (Some 404) []))
     !! name = Some value).
Proof.
  apply (@fetch_security_headers TextOnly.crypto TextOnly.marked TextOnly.sanitizer
           Pages.templates (Request.mk "GET" "/nothing" None None) Pages.env 500
           (fun _ => 0) _ (NOTES_KV Pages.env)).
  reflexivity.
Defined.

Lemma admin_requires_session_witness :
  @fetch TextOnly.crypto TextOnly.marked TextOnly.sanitizer Pages.templates
    (Request.mk "POST" "/admin/delete/B" (Some "theme=dark; session=stale") None)
    Pages.env 500 (fun _ => 0)
  = Responded AUTH_REDIRECT (NOTES_KV Pages.env).
Proof.
  apply (@admin_requires_session TextOnly.crypto TextOnly.marked TextOnly.sanitizer
           Pages.templates
           (Request.mk "POST" "/admin/delete/B" (Some "theme=dark; session=stale") None)
           Pages.env 500 (fun _ => 0)); try reflexivity; discriminate.
Defined.

Lemma create_note_route_witness :
  exists response kv',
    @fetch TextOnly.crypto TextOnly.marked TextOnly.sanitizer Pages.templates
      (Request.mk "POST" "/admin/new" Pages.session_cookie
         (Some [("title", "Hello"); ("content", "# Hi")]))
      Pages.signed_in 2000 Pages.admin_bytes
    = Responded response kv' /\
    Response.status response = 302 /\
    Response.headers response !! "Location" = Some "/admin" /\
    exists note,
      getNote kv' 3000 (generateNoteId Pages.admin_bytes) = Some note /\
      Note.title note = "Hello" /\ Note.content note = "# Hi".
Proof.
  apply (@create_note_route TextOnly.crypto TextOnly.marked TextOnly.sanitizer
           Pages.templates
           (Request.mk "POST" "/admin/new" Pages.session_cookie
              (Some [("title", "Hello"); ("content", "# Hi")]))
           Pages.signed_in 2000 3000 Pages.admin_bytes
           [("title", "Hello"); ("content", "# Hi")]);
    reflexivity.
Defined.

Lemma unauthenticated_cannot_change_notes_witness :
  let kv' := snd (createSession (NOTES_KV Pages.env) 500 Pages.session_bytes) in
  getNote kv' 600 "B" = getNote (NOTES_KV Pages.env) 600 "B" /\
  getAllNotes kv' 600 = getAllNotes (NOTES_KV Pages.env) 600.
Proof.
  intros kv'.
  apply (@unauthenticated_cannot_change_notes TextOnly.crypto TextOnly.marked
           TextOnly.sanitizer Pages.templates
           (Request.mk "POST" "/admin/login" None (Some [("password", "hunter2")]))
           Pages.env 500 600
           Pages.session_bytes
           (secureResponse None
              (mkInit (Some 302)
                 [("Location", "/admin");
                  ("Set-Cookie", createSessionCookie (randomUUID Pages.session_bytes))]))
           kv' "B");
    reflexivity.
Defined.

Lemma only_post_and_logout_write_witness :
  NOTES_KV Pages.signed_in = NOTES_KV Pages.signed_in.
Proof.
  apply (@only_post_and_logout_write TextOnly.crypto TextOnly.marked
           TextOnly.sanitizer Pages.templates
           (Request.mk "GET" "/admin/delete/B" Pages.session_cookie None)
           Pages.signed_in 2000 (fun _ => 0)
           (secureResponse
              (Some (@renderDeleteConfirm Pages.templates
                       (Note.mk "B" "second" "two" "&lt;p&gt;two&lt;/p&gt;" 200 200)))
              (mkInit None []))
           (NOTES_KV Pages.signed_in));
    [discriminate|discriminate|reflexivity].
Defined.

Lemma login_outcome_witness :
  exists response kv',
    @fetch TextOnly.crypto TextOnly.marked TextOnly.sanitizer Pages.templates
      (Request.mk "POST" "/admin/login" None (Some [("password", "hunter2")]))
      Pages.env 500 Pages.session_bytes
    = Responded response kv' /\
    kv' = snd (createSession (NOTES_KV Pages.env) 500 Pages.session_bytes) /\
    Response.status response = 302 /\
    Response.headers response !! "Location" = Some "/admin" /\
    Response.headers response !! "Set-Cookie"
    = Some (createSessionCookie
              (fst (createSession (NOTES_KV Pages.env) 500 Pages.session_bytes))).
Proof.
  apply (@login_outcome TextOnly.crypto TextOnly.marked TextOnly.sanitizer
           Pages.templates
           (Request.mk "POST" "/admin/login" None (Some [("password", "hunter2")]))
           Pages.env 500 Pages.session_bytes [("password", "hunter2")]);
    reflexivity.
Defined.

Lemma login_opens_dashboard_witness :
  exists response kv',
    @fetch TextOnly.crypto TextOnly.marked TextOnly.sanitizer Pages.templates
      (Request.mk "POST" "/admin/login" None (Some [("password", "hunter2")]))
      Pages.env 500 Pages.session_bytes
    = Responded response kv' /\
    Response.headers response !! "Set-Cookie"
    = Some (createSessionCookie (randomUUID Pages.session_bytes)) /\
    @fetch TextOnly.crypto TextOnly.marked TextOnly.sanitizer Pages.templates
      (Request.mk "GET" "/admin" Pages.session_cookie None)
      (mkEnv kv' (ADMIN_PASSWORD Pages.env)) 900 (fun _ => 0)
    = Responded
        (secureResponse
           (Some (@renderAdminDashboard Pages.templates
                    (getAllNotes (NOTES_KV Pages.env) 900)))
           (mkInit None []))
        kv'.
Proof.
  apply (@login_opens_dashboard TextOnly.crypto TextOnly.marked TextOnly.sanitizer
           Pages.templates
           (Request.mk "POST" "/admin/login" None (Some [("password", "hunter2")]))
           (Request.mk "GET" "/admin" Pages.session_cookie None)
           Pages.env 500 900 Pages.session_bytes (fun _ => 0)
           [("password", "hunter2")]);
    try reflexivity.
  unfold SESSION_TTL. lia.
Defined.

Lemma logout_revokes_witness :
  exists response kv',
    @fetch TextOnly.crypto TextOnly.marked TextOnly.sanitizer Pages.templates
      (Request.mk "GET" "/admin/logout" Pages.session_cookie None)
      Pages.signed_in 2000 (fun _ => 0)
    = Responded response kv' /\
    Response.status response = 302 /\
    Response.headers response !! "Location" = Some "/" /\
    Response.headers response !! "Set-Cookie" = Some createLogoutCookie /\
    requireAuth kv' 2001 Pages.session_cookie = true /\
    validateSession kv' 2001 (randomUUID Pages.session_bytes) = false /\
    validateSession (NOTES_KV Pages.signed_in) 2001 (randomUUID Pages.session_bytes) = true.
Proof.
  destruct (@logout_revokes TextOnly.crypto TextOnly.marked TextOnly.sanitizer
              Pages.templates
              (Request.mk "GET" "/admin/logout" Pages.session_cookie None)
              Pages.signed_in 2000 2001 (fun _ => 0))
    as (response & kv' & Hfetch & Hstatus & Hlocation & Hcookie & Hauth & Hinvalid & _);
    [reflexivity|reflexivity|].
  exists response, kv'.
  split; [exact Hfetch|]. split; [exact Hstatus|]. split; [exact Hlocation|].
  split; [exact Hcookie|]. split; [exact Hauth|].
  split; [apply Hinvalid; reflexivity|reflexivity].
Defined.

Lemma delete_note_route_witness :
  exists response,
    @fetch TextOnly.crypto TextOnly.marked TextOnly.sanitizer Pages.templates
      (Request.mk "POST" "/admin/delete/B" Pages.session_cookie None)
      Pages.signed_in 2000 (fun _ => 0)
    = Responded response (snd (deleteNote (NOTES_KV Pages.signed_in) 2000 "B")) /\
    Response.status response = 302 /\
    Response.headers response !! "Location" = Some "/admin" /\
    getNote (snd (deleteNote (NOTES_KV Pages.signed_in) 2000 "B")) 3000 "B" = None.
Proof.
  apply (@delete_note_route TextOnly.crypto TextOnly.marked TextOnly.sanitizer
           Pages.templates
           (Request.mk "POST" "/admin/delete/B" Pages.session_cookie None)
           Pages.signed_in 2000 3000 (fun _ => 0) "B");
    try reflexivity.
  lia.
Defined.

Lemma admin_prefixed_id_unreachable_witness :
  generateNoteId Pages.admin_bytes = "adminXYZ" /\
  is_Some (getNote (snd (@saveNote TextOnly.marked TextOnly.sanitizer
                           TextOnly.three_notes 400 "adminXYZ" "t" "c")) 500 "adminXYZ") /\
  @fetch TextOnly.crypto TextOnly.marked TextOnly.sanitizer Pages.templates
    (Request.mk "GET" "/adminXYZ" None None)
    (mkEnv (snd (@saveNote TextOnly.marked TextOnly.sanitizer
                   TextOnly.three_notes 400 "adminXYZ" "t" "c")) "hunter2")
    500 (fun _ => 0)
  = Responded AUTH_REDIRECT
      (snd (@saveNote TextOnly.marked TextOnly.sanitizer
              TextOnly.three_notes 400 "adminXYZ" "t" "c")).
Proof.
  split; [reflexivity|]. split; [by eexists|].
  apply (@admin_prefixed_id_unreachable TextOnly.crypto TextOnly.marked
           TextOnly.sanitizer Pages.templates
           (Request.mk "GET" "/adminXYZ" None None)
           (mkEnv (snd (@saveNote TextOnly.marked TextOnly.sanitizer
                          TextOnly.three_notes 400 "adminXYZ" "t" "c")) "hunter2")
           500 (fun _ => 0) "adminXYZ");
    try reflexivity.
  discriminate.
Defined.

Lemma public_note_page_witness :
  @fetch TextOnly.crypto TextOnly.marked TextOnly.sanitizer Pages.templates
    (Request.mk "GET" "/B" None None) Pages.env 500 (fun _ => 0)
  = Responded
      (secureResponse
         (Some (@renderNotePage Pages.templates
                  (Note.mk "B" "second" "two" "&lt;p&gt;two&lt;/p&gt;" 200 200)
                  (Some "A")))
         (mkInit None []))
      (NOTES_KV Pages.env).
Proof.
  apply (@public_note_page TextOnly.crypto TextOnly.marked TextOnly.sanitizer
           Pages.templates (Request.mk "GET" "/B" None None) Pages.env 500
           (fun _ => 0) "B");
    reflexivity.
Defined.

Lemma home_redirects_to_newest_witness :
  @fetch TextOnly.crypto TextOnly.marked TextOnly.sanitizer Pages.templates
    (Request.mk "GET" "/" None None) Pages.env 500 (fun _ => 0)
  = Responded (secureResponse None (mkInit (Some 302) [("Location", "/C")]))
      (NOTES_KV Pages.env).
Proof.
  apply (@home_redirects_to_newest TextOnly.crypto TextOnly.marked TextOnly.sanitizer
           Pages.templates (Request.mk "GET" "/" None None) Pages.env 500 (fun _ => 0));
    [|reflexivity].
  unfold Pages.env, TextOnly.three_notes. cbn [NOTES_KV].
  repeat apply store_synced_saveNote. apply store_synced_empty.
Defined.

Lemma fetch_keeps_notes_in_step_witness :
  store_synced (snd (deleteNote (NOTES_KV Pages.signed_in) 2000 "B")) /\
  store_wf (snd (deleteNote (NOTES_KV Pages.signed_in) 2000 "B")).
Proof.
  apply (@fetch_keeps_notes_in_step TextOnly.crypto TextOnly.marked TextOnly.sanitizer
           Pages.templates
           (Request.mk "POST" "/admin/delete/B" Pages.session_cookie None)
           Pages.signed_in 2000 (fun _ => 0)
           (secureResponse None (mkInit (Some 302) [("Location", "/admin")]))).
  - unfold Pages.signed_in, TextOnly.three_notes. cbn [NOTES_KV].
    apply store_synced_createSession.
    repeat apply store_synced_saveNote. apply store_synced_empty.
  - reflexivity.
Defined.

Lemma fetch_throws_only_without_form_witness :
  @fetch TextOnly.crypto TextOnly.marked TextOnly.sanitizer Pages.templates
    (Request.mk "POST" "/admin/login" None None) Pages.env 500 (fun _ => 0) = Threw /\
  "POST" = "POST" /\ @None (list (string * string)) = None.
Proof.
  split; [reflexivity|].
  apply (@fetch_throws_only_without_form TextOnly.crypto TextOnly.marked
           TextOnly.sanitizer Pages.templates
           (Request.mk "POST" "/admin/login" None None) Pages.env 500 (fun _ => 0)).
  reflexivity.
Defined.
